(** * toyota_agent: the manual-acquisition pipeline and the SQL tool

    A shallow embedding of [src/manuals_scraper.py] and of
    [SqlSelectTool.forward] in [src/agent_core.py].

    Conventions of the embedding.
    - Python text is a [string]; every [ascii] stands for the code point of
      the same number (0..255), and the character classes below are
      Python's own tables restricted to that range.
    - A decoded JSON document is a [value]; a Python [dict] with string
      keys is an association list in insertion order.
    - A function that can raise returns a [result]; a function that talks
      to the network or to the disk threads a [world] through. *)

From Stdlib Require Import ZArith NArith Lia Bool List Ascii String DecimalString.
From Stdlib Require DecimalPos.
From stdpp Require Import base option list gmap strings.

Import ListNotations.
Local Open Scope string_scope.
Local Open Scope list_scope.
Local Open Scope Z_scope.

(** ** Exceptions *)

Inductive exn : Type :=
| TypeError
| ValueError
| AttributeError
| HTTPError
| JSONDecodeError
| TransportError.

Inductive result (A : Type) : Type :=
| Ok (a : A)
| Raise (e : exn).

Arguments Ok {A} a.
Arguments Raise {A} e.

Definition bind {A B : Type} (m : result A) (k : A -> result B) : result B :=
  match m with
  | Ok a => k a
  | Raise e => Raise e
  end.

Notation "'do' x <- m ; k" := (bind m (fun x => k))
  (at level 10, x name, m at level 100, k at level 200).

(** ** Characters *)

Definition code (c : ascii) : N := N_of_ascii c.

Definition between (lo hi : N) (c : ascii) : bool :=
  ((lo <=? code c) && (code c <=? hi))%N.

(** [str.isdecimal]: category Nd. *)
Definition isdecimal_char (c : ascii) : bool := between 48 57 c.

(** [str.isdigit]: the decimal digits and the superscripts 2, 3 and 1. *)
Definition isdigit_char (c : ascii) : bool :=
  isdecimal_char c || (code c =? 178)%N || (code c =? 179)%N || (code c =? 185)%N.

(** [str.isnumeric]: the digits and the vulgar fractions. *)
Definition isnumeric_char (c : ascii) : bool :=
  isdigit_char c || between 188 190 c.

(** [str.isalpha]: categories Lu, Ll, Lt, Lm, Lo. *)
Definition isalpha_char (c : ascii) : bool :=
  between 65 90 c || between 97 122 c
  || (code c =? 170)%N || (code c =? 181)%N || (code c =? 186)%N
  || between 192 214 c || between 216 246 c || between 248 255 c.

(** [c.isalnum()] *)
Definition isalnum_char (c : ascii) : bool :=
  isalpha_char c || isdecimal_char c || isdigit_char c || isnumeric_char c.

(** The characters [str.strip()] removes when called without argument. *)
Definition isspace_char (c : ascii) : bool :=
  between 9 13 c || between 28 32 c || (code c =? 133)%N || (code c =? 160)%N.

(** One character of [str.lower()]. *)
Definition lower_char (c : ascii) : ascii :=
  if between 65 90 c || between 192 214 c || between 216 222 c
  then ascii_of_N (code c + 32)
  else c.

(** ** Strings *)

Fixpoint string_map (f : ascii -> ascii) (s : string) : string :=
  match s with
  | EmptyString => EmptyString
  | String c r => String (f c) (string_map f r)
  end.

Fixpoint string_forallb (f : ascii -> bool) (s : string) : bool :=
  match s with
  | EmptyString => true
  | String c r => f c && string_forallb f r
  end.

Fixpoint string_mem (c : ascii) (s : string) : bool :=
  match s with
  | EmptyString => false
  | String d r => Ascii.eqb c d || string_mem c r
  end.

Definition nonempty (s : string) : bool :=
  match s with
  | EmptyString => false
  | String _ _ => true
  end.

(** [s.lower()] *)
Definition lower (s : string) : string := string_map lower_char s.

(** [s.startswith(p)] *)
Definition startswith (p s : string) : bool := String.prefix p s.

(** [s.isdigit()]: at least one character, all of them digits. *)
Definition isdigit (s : string) : bool :=
  nonempty s && string_forallb isdigit_char s.

(** [s.lstrip(chars)], with [chars] given as a predicate. *)
Fixpoint lstrip (drop : ascii -> bool) (s : string) : string :=
  match s with
  | EmptyString => EmptyString
  | String c r => if drop c then lstrip drop r else s
  end.

(** [s.rstrip(chars)] *)
Fixpoint rstrip (drop : ascii -> bool) (s : string) : string :=
  match s with
  | EmptyString => EmptyString
  | String c r =>
      match rstrip drop r with
      | EmptyString => if drop c then EmptyString else String c EmptyString
      | r' => String c r'
      end
  end.

(** [s.strip(chars)] *)
Definition strip (drop : ascii -> bool) (s : string) : string :=
  rstrip drop (lstrip drop s).

(** [s[:n]] *)
Fixpoint slice_to (n : nat) (s : string) : string :=
  match n, s with
  | S m, String c r => String c (slice_to m r)
  | _, _ => EmptyString
  end.

(** [s.split("T")[0]], which is also [s.split("T", 1)[0]]: the text before
    the first ["T"], the whole text when there is none. *)
Fixpoint before_T (s : string) : string :=
  match s with
  | EmptyString => EmptyString
  | String c r => if Ascii.eqb c "T" then EmptyString else String c (before_T r)
  end.

(** [sep.join(parts)] *)
Fixpoint join (sep : string) (parts : list string) : string :=
  match parts with
  | [] => EmptyString
  | [p] => p
  | p :: rest => (p ++ sep ++ join sep rest)%string
  end.

(** [int(s)] for a text that passed [isdigit]: the decimal digits are
    read in base ten; a superscript digit is no decimal digit and makes
    [int] raise [ValueError]. The cap recent interpreters put on the
    number of digits (4300 by default) is not modelled. *)
Fixpoint int_digits (acc : Z) (s : string) : result Z :=
  match s with
  | EmptyString => Ok acc
  | String c r =>
      if isdecimal_char c
      then int_digits (10 * acc + (Z.of_N (code c) - 48)) r
      else Raise ValueError
  end.

(** [str(n)] for an integer [n]: its decimal numeral, with a leading
    minus sign when negative. *)
Definition str_int (n : Z) : string :=
  DecimalString.NilZero.string_of_int (Z.to_int n).

(** ** JSON values and Python's view of them *)

#[local] Set Warnings "-register-all".

(** What [json.loads] builds, real numbers left out: the payloads carry
    integers, and no function below computes with a number. *)
Inductive value : Type :=
| VNone
| VBool (b : bool)
| VInt (z : Z)
| VStr (s : string)
| VList (items : list value)
| VDict (entries : list (string * value)).

(** A [dict] with string keys, in insertion order. *)
Definition dict : Type := list (string * value).

(** [k in d] *)
Fixpoint has_key (k : string) (d : dict) : bool :=
  match d with
  | [] => false
  | (k', _) :: r => String.eqb k k' || has_key k r
  end.

(** [d.get(k)]: the value stored under [k], [None] without one. *)
Fixpoint get (d : dict) (k : string) : value :=
  match d with
  | [] => VNone
  | (k', v) :: r => if String.eqb k k' then v else get r k
  end.

(** [bool(v)] *)
Definition truthy (v : value) : bool :=
  match v with
  | VNone => false
  | VBool b => b
  | VInt z => negb (z =? 0)
  | VStr s => nonempty s
  | VList l => match l with [] => false | _ => true end
  | VDict d => match d with [] => false | _ => true end
  end.

(** [a or b] *)
Definition py_or (a b : value) : value := if truthy a then a else b.

(** [hash(v)] succeeds: lists and dicts are unhashable. *)
Definition hashable (v : value) : bool :=
  match v with
  | VList _ | VDict _ => false
  | _ => true
  end.

Definition Z_of_bool (b : bool) : Z := if b then 1 else 0.

(** [a == b]. [bool] is a subclass of [int], so [True == 1]; two lists
    are equal item by item; two dicts are equal when they have the same
    number of entries and every entry of the first is found, equal, in
    the second. *)
Fixpoint py_eq (a b : value) : bool :=
  match a, b with
  | VNone, VNone => true
  | VBool x, VBool y => Bool.eqb x y
  | VBool x, VInt y => Z_of_bool x =? y
  | VInt x, VBool y => x =? Z_of_bool y
  | VInt x, VInt y => x =? y
  | VStr x, VStr y => String.eqb x y
  | VList xs, VList ys =>
      (fix items_eq (xs ys : list value) {struct xs} : bool :=
         match xs, ys with
         | [], [] => true
         | x :: xs', y :: ys' => py_eq x y && items_eq xs' ys'
         | _, _ => false
         end) xs ys
  | VDict xs, VDict ys =>
      (length xs =? length ys)%nat
      && (fix entries_in (xs : list (string * value)) : bool :=
            match xs with
            | [] => true
            | (k, x) :: xs' =>
                has_key k ys && py_eq x (get ys k) && entries_in xs'
            end) xs
  | _, _ => false
  end.

(** [str(v).isdigit()]. The text of [None], of a boolean, of a list and
    of a dict starts with a letter or a bracket; the text of an integer
    is its decimal numeral. *)
Definition str_isdigit (v : value) : bool :=
  match v with
  | VStr s => isdigit s
  | VInt z => isdigit (str_int z)
  | _ => false
  end.

(** [int(v)] for a [v] that passed [str_isdigit]. *)
Definition int_of (v : value) : result Z :=
  match v with
  | VStr s => int_digits 0 s
  | VInt z => Ok z
  | VBool b => Ok (Z_of_bool b)
  | _ => Raise TypeError
  end.

(** [y is not None and str(y).isdigit()] *)
Definition numeric_year (y : value) : bool :=
  match y with
  | VNone => false
  | _ => str_isdigit y
  end.

(** ** Products: merge *)

(** A [datetime.date] as (year, month, day); dates compare as these
    triples do. *)
Definition date : Type := Z * Z * Z.

(** [date.min] *)
Definition date_min : date := (1, 1, 1).

Definition date_eqb (a b : date) : bool :=
  let '(ya, ma, da) := a in
  let '(yb, mb, db) := b in
  (ya =? yb) && (ma =? mb) && (da =? db).

Definition date_ltb (a b : date) : bool :=
  let '(ya, ma, da) := a in
  let '(yb, mb, db) := b in
  (ya <? yb) || ((ya =? yb) && ((ma <? mb) || ((ma =? mb) && (da <? db)))).

(** The sort key of merge: (line-off date, year). *)
Definition rank : Type := date * Z.

(** [a < b] on tuples: the first components decide unless they are
    equal. *)
Definition rank_ltb (a b : rank) : bool :=
  if date_eqb (fst a) (fst b) then snd a <? snd b else date_ltb (fst a) (fst b).

(** The identity of a product: (brand, model, modelType, ngtdModelId). *)
Definition key : Type := value * value * value * value.

Definition identity_key (p : dict) : key :=
  (get p "brand", get p "model", get p "modelType", get p "ngtdModelId").

(** [a == b] on two such tuples. *)
Definition key_eq (a b : key) : bool :=
  let '(a1, a2, a3, a4) := a in
  let '(b1, b2, b3, b4) := b in
  py_eq a1 b1 && py_eq a2 b2 && py_eq a3 b3 && py_eq a4 b4.

(** [hash(k)] succeeds. *)
Definition key_hashable (k : key) : bool :=
  let '(k1, k2, k3, k4) := k in
  hashable k1 && hashable k2 && hashable k3 && hashable k4.

(** [groups[key].append(prod)] on a [defaultdict(list)]: the entry of an
    equal key grows at its place, a new key goes to the end. *)
Fixpoint groups_append (groups : list (key * list dict)) (k : key) (prod : dict)
  : list (key * list dict) :=
  match groups with
  | [] => [(k, [prod])]
  | (k', items) :: rest =>
      if key_eq k' k
      then (k', items ++ [prod]) :: rest
      else (k', items) :: groups_append rest k prod
  end.

(** The first loop of [merge_products_latest]. *)
Fixpoint group_products (all_products : list dict) (groups : list (key * list dict))
  : result (list (key * list dict)) :=
  match all_products with
  | [] => Ok groups
  | prod :: rest =>
      let k := identity_key prod in
      if key_hashable k
      then group_products rest (groups_append groups k prod)
      else Raise TypeError
  end.

Section Merge.

(** [datetime.fromisoformat(text).date()], [None] when it raises. Which
    texts it accepts depends on the interpreter's version. *)
Variable fromisoformat : string -> option date.

Definition _parse_iso_date (d : value) : date :=
  if negb (truthy d) then date_min
  else match d with
       | VStr s =>
           match fromisoformat (before_T s) with
           | Some x => x
           | None => date_min
           end
       | _ => date_min
       end.

Definition _rank_for_merge (p : dict) : result rank :=
  let d := _parse_iso_date (get p "lineOffDate") in
  let y_raw := get p "year" in
  do y <- (if numeric_year y_raw then int_of y_raw else Ok (-1));
  Ok (d, y).

(** The loop of [max(items, key=_rank_for_merge)]: a later item
    replaces the best one only when its key is greater. *)
Fixpoint max_loop (best : dict) (best_rank : rank) (items : list dict)
  : result dict :=
  match items with
  | [] => Ok best
  | x :: rest =>
      do rx <- _rank_for_merge x;
      if rank_ltb best_rank rx
      then max_loop x rx rest
      else max_loop best best_rank rest
  end.

(** [max(items, key=_rank_for_merge)] *)
Definition max_by_rank (items : list dict) : result dict :=
  match items with
  | [] => Raise ValueError
  | x :: rest => do rx <- _rank_for_merge x; max_loop x rx rest
  end.

(** The second loop of [merge_products_latest]. *)
Fixpoint best_of_groups (groups : list (key * list dict)) : result (list dict) :=
  match groups with
  | [] => Ok []
  | (_, items) :: rest =>
      do best <- max_by_rank items;
      do merged <- best_of_groups rest;
      Ok (best :: merged)
  end.

Definition merge_products_latest (all_products : list dict) : result (list dict) :=
  do groups <- group_products all_products [];
  best_of_groups groups.

End Merge.

(** ** Products: years *)

(** The loop of [years_for_same_product]. *)
Fixpoint sibling_years (k : key) (all_products : list dict) : result (list Z) :=
  match all_products with
  | [] => Ok []
  | p :: rest =>
      if key_eq (identity_key p) k && numeric_year (get p "year")
      then do y <- int_of (get p "year");
           do years <- sibling_years k rest;
           Ok (y :: years)
      else sibling_years k rest
  end.

Fixpoint insert_desc (y : Z) (l : list Z) : list Z :=
  match l with
  | [] => [y]
  | x :: rest =>
      if x <? y then y :: l
      else if x =? y then l
      else x :: insert_desc y rest
  end.

(** [sorted(set(years), reverse=True)]: the distinct years, greatest
    first. *)
Definition sorted_set_desc (years : list Z) : list Z :=
  fold_right insert_desc [] years.

Definition years_for_same_product (prod : dict) (all_products : list dict) (cap : nat)
  : result (list string) :=
  let k := identity_key prod in
  do years <- sibling_years k all_products;
  Ok (map str_int (firstn cap (sorted_set_desc years))).

(** The inner [year_from_prod] of [pick_years_for_product]. *)
Definition year_from_prod (p : dict) : result (list string) :=
  let y := get p "year" in
  if numeric_year y then do n <- int_of y; Ok [str_int n] else Ok [].

Definition USE_SIBLING_YEARS : bool := true.

Definition pick_years_for_product (prod : dict) (all_products : list dict)
  : result (list string) :=
  if USE_SIBLING_YEARS
  then do years <- years_for_same_product prod all_products 12;
       match years with
       | [] => year_from_prod prod
       | _ => Ok years
       end
  else year_from_prod prod.

(** ** Publications: the page parser *)

(** The record [visit] appends for a dict that has a [partNumber] key. *)
Definition publication_of (node : dict) : dict :=
  [ ("partNumber", get node "partNumber");
    ("publicationType",
      py_or (py_or (get node "publicationType") (get node "type")) (get node "category"));
    ("language",
      py_or (py_or (get node "language") (get node "lang")) (get node "locale"));
    ("title",
      py_or (py_or (get node "title") (get node "name")) (get node "label"));
    ("lineOffDate",
      py_or (py_or (get node "lineOffDate") (get node "effectiveDate")) (VStr ""));
    ("modelType",
      py_or (py_or (get node "modelType") (get node "model")) (VStr ""));
    ("ngtdModelId",
      py_or (py_or (get node "ngtdModelId") (get node "modelId")) (VStr ""));
    ("year", get node "year") ].

(** The inner [visit] of [collect_publications]; the result is what it
    appends to [found], in order. *)
Fixpoint visit (node : value) : list dict :=
  match node with
  | VDict d =>
      (if has_key "partNumber" d then [publication_of d] else [])
      ++ (fix visit_values (entries : list (string * value)) : list dict :=
            match entries with
            | [] => []
            | (_, v) :: rest => visit v ++ visit_values rest
            end) d
  | VList l =>
      (fix visit_items (items : list value) : list dict :=
         match items with
         | [] => []
         | v :: rest => visit v ++ visit_items rest
         end) l
  | _ => []
  end.

(** [uniq[pn] = x]: an equal key keeps its place and takes the new
    record, a new key goes to the end. *)
Fixpoint uniq_set (uniq : list (value * dict)) (pn : value) (x : dict)
  : list (value * dict) :=
  match uniq with
  | [] => [(pn, x)]
  | (k, old) :: rest =>
      if py_eq k pn then (k, x) :: rest else (k, old) :: uniq_set rest pn x
  end.

(** The loop over [found]. *)
Fixpoint dedup (found : list dict) (uniq : list (value * dict))
  : result (list (value * dict)) :=
  match found with
  | [] => Ok uniq
  | x :: rest =>
      let pn := get x "partNumber" in
      if truthy pn
      then if hashable pn then dedup rest (uniq_set uniq pn x) else Raise TypeError
      else dedup rest uniq
  end.

Definition collect_publications (next_data : value) : result (list dict) :=
  do uniq <- dedup (visit next_data) [];
  Ok (map snd uniq).

(** ** Publications: the owner's-manual selector *)

(** The inner [norm_date]: [(d or "").split("T")[0]]; a value that is
    true and is no text has no [split]. *)
Definition norm_date (d : value) : result string :=
  match py_or d (VStr "") with
  | VStr s => Ok (before_T s)
  | _ => Raise AttributeError
  end.

(** The condition of the list comprehension. *)
Definition is_en_om (p : dict) : bool :=
  py_eq (get p "publicationType") (VStr "OM")
  && match get p "language" with
     | VStr l => startswith "en" (lower l)
     | _ => false
     end.

(** The sort key, [norm_date(p.get("lineOffDate") or "")]. *)
Definition date_key (p : dict) : result string :=
  norm_date (py_or (get p "lineOffDate") (VStr "")).

Fixpoint keyed (pubs : list dict) : result (list (string * dict)) :=
  match pubs with
  | [] => Ok []
  | p :: rest =>
      do k <- date_key p;
      do ks <- keyed rest;
      Ok ((k, p) :: ks)
  end.

Fixpoint insert_keyed (x : string * dict) (l : list (string * dict))
  : list (string * dict) :=
  match l with
  | [] => [x]
  | y :: rest =>
      if String.ltb (fst x) (fst y) then y :: insert_keyed x rest else x :: l
  end.

(** [list.sort(key=..., reverse=True)]: greatest key first, and stable,
    so records with equal keys keep their order. *)
Definition sort_desc (l : list (string * dict)) : list (string * dict) :=
  fold_right insert_keyed [] l.

Definition pick_latest_en_om (pubs : list dict) : result (option dict) :=
  let oms := List.filter is_en_om pubs in
  match oms with
  | [] => Ok None
  | _ =>
      do ks <- keyed oms;
      Ok (head (map snd (sort_desc ks)))
  end.

(** ** File naming *)

Definition keep_char (c : ascii) : bool := isalnum_char c || string_mem c "._- ".

Definition safe_filename (s : string) : string :=
  let cleaned := string_map (fun c => if keep_char c then c else "_"%char) s in
  let cleaned := slice_to 200 (strip (fun c => string_mem c "_ ") cleaned) in
  if nonempty cleaned then cleaned else "manual".

(** [x and safe_filename(x)] as a condition, for a segment that is a text
    or [None]. *)
Definition segment_kept (x : option string) : bool :=
  match x with
  | Some s => nonempty s && nonempty (safe_filename s)
  | None => false
  end.

Definition segment_name (x : option string) : string :=
  match x with
  | Some s => safe_filename s
  | None => safe_filename ""
  end.

Definition make_named_pdf (brand model model_type : string) (year : option string)
  (part_number : string) : string :=
  let segments := [Some brand; Some model; Some model_type; year; Some part_number] in
  let segments := map segment_name (List.filter segment_kept segments) in
  let base := match segments with [] => "manual" | _ => join "." segments end in
  let base := string_map (fun c => if Ascii.eqb c " " then "_"%char else c) base in
  (base ++ ".pdf")%string.

(** [preferred_year]: the publication's year, else the product's year,
    else the first four characters of the line-off date. A line-off date
    that is true and is no text goes through [len] and the slice as
    Python has them: a number has no [len], a list of four items or more
    is sliced and has no [isdigit], a dict of four entries or more cannot
    be sliced. *)
Definition preferred_year (pub prod : dict) : result (option string) :=
  if numeric_year (get pub "year")
  then do n <- int_of (get pub "year"); Ok (Some (str_int n))
  else if numeric_year (get prod "year")
  then do n <- int_of (get prod "year"); Ok (Some (str_int n))
  else
    match py_or (get pub "lineOffDate") (VStr "") with
    | VStr line_off =>
        if (4 <=? String.length line_off)%nat && isdigit (slice_to 4 line_off)
        then Ok (Some (slice_to 4 line_off))
        else Ok None
    | VList l => if (4 <=? length l)%nat then Raise AttributeError else Ok None
    | VDict d => if (4 <=? length d)%nat then Raise TypeError else Ok None
    | _ => Raise TypeError
    end.

(** ** The network and the disk *)

Record request : Type := {
  req_url : string;
  req_params : list (string * value)
}.

(** What the caller sees of an HTTP response: the status, the body as
    [r.json()] decodes it ([None]: the body is no JSON), the
    [Content-Type] header, the body as [iter_content] yields it, and
    whether the stream reaches its end. *)
Record response : Type := {
  status_code : Z;
  json : option value;
  content_type : string;
  chunks : list string;
  complete : bool
}.

(** The files under the output directory with their content, and the
    calls of [session.send] and [session.get] so far, latest first. *)
Record world : Type := {
  files : gmap string string;
  sent : list request
}.

Definition API : string := "https://diva-api.tweddle.app".
Definition OUT_DIR : string := "./manuals".

(** [r.raise_for_status()] of the HTTP library: it raises for a client
    error (4xx) and for a server error (5xx), and for nothing else. *)
Definition raise_for_status (r : response) : result unit :=
  if (400 <=? status_code r) && (status_code r <? 600)
  then Raise HTTPError
  else Ok tt.

(** [os.path.join(OUT_DIR, name)] *)
Definition path_join (dir name : string) : string := (dir ++ "/" ++ name)%string.

(** [t.isalnum()] of a text: at least one character, all of them letters
    or digits. *)
Definition isalnum (t : string) : bool := nonempty t && string_forallb isalnum_char t.

(** [t in s] of two texts: [t] occurs in [s]; the empty text occurs in
    every text. *)
Fixpoint occurs_in (t s : string) : bool :=
  String.prefix t s
  || match s with
     | EmptyString => false
     | String _ r => occurs_in t r
     end.

(** What [for c in s] yields: the characters of a text, the items of a
    list, the keys of a dict; nothing else can be iterated. *)
Definition iterate (s : value) : result (list value) :=
  match s with
  | VStr t => Ok (map (fun c => VStr (String c "")) (list_ascii_of_string t))
  | VList l => Ok l
  | VDict d => Ok (map (fun e => VStr (fst e)) d)
  | _ => Raise TypeError
  end.

(** [c if (c.isalnum() or c in keep) else "_"] for one [c] of the
    iteration: only a text has [isalnum]. An item of a list may be a
    text of any length; it is kept whole or replaced whole. *)
Definition kept_item (c : value) : result string :=
  match c with
  | VStr t => Ok (if isalnum t || occurs_in t "._- " then t else "_")
  | _ => Raise AttributeError
  end.

(** [("").join(... for c in ...)] *)
Fixpoint join_kept (items : list value) : result string :=
  match items with
  | [] => Ok ""
  | c :: rest =>
      do a <- kept_item c;
      do b <- join_kept rest;
      Ok (a ++ b)%string
  end.

(** [safe_filename] as it runs on whatever it is given: [download_pdf]
    hands it fields of the product and of the publication, which need
    not be texts. *)
Definition safe_filename_any (s : value) : result string :=
  do items <- iterate (py_or s (VStr ""));
  do cleaned <- join_kept items;
  let cleaned := slice_to 200 (strip (fun c => string_mem c "_ ") cleaned) in
  Ok (if nonempty cleaned then cleaned else "manual").

(** The list comprehension of [make_named_pdf],
    [safe_filename(x) for x in segments if x and safe_filename(x)]. *)
Fixpoint named_segments (segments : list value) : result (list string) :=
  match segments with
  | [] => Ok []
  | x :: rest =>
      if truthy x
      then do name <- safe_filename_any x;
           if nonempty name
           then do names <- named_segments rest; Ok (name :: names)
           else named_segments rest
      else named_segments rest
  end.

(** [make_named_pdf] on five values. *)
Definition make_named_pdf_any (brand model model_type year part_number : value)
  : result string :=
  do segments <- named_segments [brand; model; model_type; year; part_number];
  let base := match segments with [] => "manual" | _ => join "." segments end in
  let base := string_map (fun c => if Ascii.eqb c " " then "_"%char else c) base in
  Ok (base ++ ".pdf")%string.

(** The path [download_pdf] computes before it looks at the disk. *)
Definition target_path (prod pub : dict) : result string :=
  let brand := py_or (get prod "brand") (VStr "") in
  let model := py_or (get prod "model") (VStr "") in
  let model_type :=
    py_or (py_or (py_or (get pub "modelType") (get prod "modelType"))
                 (get prod "model")) (VStr "") in
  do year <- preferred_year pub prod;
  let pn := py_or (get pub "partNumber") (VStr "") in
  do name <-
    make_named_pdf_any brand model model_type
      (match year with Some y => VStr y | None => VNone end) pn;
  Ok (path_join OUT_DIR name).

Section Network.

(** The far end: what comes back for the n-th request of the run, an
    exception when the transport gives up (no connection, retries
    used up). *)
Variable server : nat -> request -> result response.

(** [session.send] and [session.get]: the request is recorded, then
    answered. *)
Definition send (req : request) (w : world) : result response * world :=
  (server (length (sent w)) req,
   {| files := files w; sent := req :: sent w |}).

Definition get_pdf_link (pub : dict) (w : world) : result value * world :=
  let pn := get pub "partNumber" in
  let model_type := get pub "modelType" in
  match py_or (get pub "lineOffDate") (VStr "") with
  | VStr line_off_full =>
      let line_off := before_T line_off_full in
      if negb (truthy pn && truthy model_type && nonempty line_off)
      then (Ok VNone, w)
      else
        let params := [("partNumber", pn); ("modelType", model_type);
                       ("lineOffDate", VStr line_off)] in
        let req := {| req_url := (API ++ "/publications/content/pdfLink")%string;
                      req_params := params |} in
        match send req w with
        | (Raise e, w') => (Raise e, w')
        | (Ok r, w') =>
            if (status_code r =? 400) || (status_code r =? 404)
               || (status_code r =? 500)
            then (Ok VNone, w')
            else
              match raise_for_status r with
              | Raise e => (Raise e, w')
              | Ok _ =>
                  match json r with
                  | None => (Raise JSONDecodeError, w')
                  | Some (VDict data) => (Ok (get data "url"), w')
                  | Some _ => (Raise AttributeError, w')
                  end
              end
        end
  | _ => (Raise AttributeError, w)
  end.

(** [open(path, "wb")] followed by the writes of the chunks. *)
Definition write_file (path : string) (body : list string) (w : world) : world :=
  {| files := <[path := String.concat "" body]> (files w); sent := sent w |}.

Definition download_pdf (url : string) (prod pub : dict) (w : world)
  : result string * world :=
  match target_path prod pub with
  | Raise e => (Raise e, w)
  | Ok path =>
      if decide (is_Some (files w !! path))
      then (Ok path, w)
      else
        match send {| req_url := url; req_params := [] |} w with
        | (Raise e, w') => (Raise e, w')
        | (Ok r, w') =>
            match raise_for_status r with
            | Raise e => (Raise e, w')
            | Ok _ =>
                let w'' := write_file path (chunks r) w' in
                if complete r then (Ok path, w'') else (Raise TransportError, w'')
            end
        end
  end.

End Network.

(** ** The SQL tool *)

Section SqlTool.

(** Everything [forward] does with the connection: the statement is
    executed, at most [lim] rows are fetched and written as CSV. *)
Variable run_select : string -> Z -> result string.

Definition is_semicolon (c : ascii) : bool := Ascii.eqb c ";".

(** [int(limit) if (isinstance(limit, int) or str(limit).isdigit())
    else 100] *)
Definition row_limit (limit : value) : result Z :=
  match limit with
  | VInt z => Ok z
  | VBool b => Ok (Z_of_bool b)
  | _ => if str_isdigit limit then int_of limit else Ok 100
  end.

(** [forward]: the answer, and the statements executed against the
    database. *)
Definition forward (query : option string) (limit : value)
  : result string * list string :=
  match query with
  | None => (Ok "Error: 'query' is required.", [])
  | Some text =>
      if negb (nonempty text) || negb (nonempty (strip isspace_char text))
      then (Ok "Error: 'query' is required.", [])
      else
        let q := rstrip is_semicolon (strip isspace_char text) in
        if negb (startswith "select" (lower q))
        then (Ok "Error: only SELECT queries are allowed.", [])
        else
          match row_limit limit with
          | Raise e => (Raise e, [])
          | Ok lim => (run_select q lim, [q])
          end
  end.

End SqlTool.

(** ** Vocabulary of the statements *)

(** Two products of one group. *)
Definition same_product (p q : dict) : bool :=
  key_eq (identity_key p) (identity_key q).

(** [int(y)] does not raise on a year that passed [isdigit]: the year is
    an integer, or a text of decimal digits, or not numeric at all. *)
Definition year_ok (p : dict) : bool :=
  if numeric_year (get p "year")
  then match int_of (get p "year") with Ok _ => true | Raise _ => false end
  else true.

(** A product merge can rank and file: its identity is hashable and its
    year converts. *)
Definition product_ok (p : dict) : bool :=
  key_hashable (identity_key p) && year_ok p.

(** The year of a product as a number, when it has one. *)
Definition year_number (p : dict) : option Z :=
  if numeric_year (get p "year")
  then match int_of (get p "year") with Ok n => Some n | Raise _ => None end
  else None.

(** The part number of a record. *)
Definition part_number (r : dict) : value := get r "partNumber".

(** The line-off date of a publication is a text, or absent. *)
Definition date_is_text (p : dict) : bool :=
  match py_or (get p "lineOffDate") (VStr "") with
  | VStr _ => true
  | _ => false
  end.

(** The date portion of the line-off date, the text before ["T"]. *)
Definition date_portion (p : dict) : string :=
  match py_or (get p "lineOffDate") (VStr "") with
  | VStr s => before_T s
  | _ => ""
  end.

(** [node] is [root] or lies somewhere inside it. *)
Inductive inside (root : value) : value -> Prop :=
| inside_root : inside root root
| inside_item (l : list value) (v : value) :
    inside root (VList l) -> In v l -> inside root v
| inside_entry (d : dict) (k : string) (v : value) :
    inside root (VDict d) -> In (k, v) d -> inside root v.

(** The naming algorithm in the words of the specification: a component
    that sanitizes to nothing is dropped. *)
Definition spec_sanitize (s : string) : string :=
  slice_to 200
    (strip (fun c => string_mem c "_ ")
       (string_map (fun c => if keep_char c then c else "_"%char) s)).

Definition spec_component (x : option string) : string :=
  match x with
  | Some s => spec_sanitize s
  | None => ""
  end.

Definition spec_named_pdf (brand model model_type : string) (year : option string)
  (part_number : string) : string :=
  let components :=
    map spec_component [Some brand; Some model; Some model_type; year; Some part_number] in
  let kept := List.filter nonempty components in
  let base := match kept with [] => "manual" | _ => join "." kept end in
  (string_map (fun c => if Ascii.eqb c " " then "_"%char else c) base ++ ".pdf")%string.

(** [s] without its last character when that is a semicolon. *)
Fixpoint drop_last_semicolon (s : string) : string :=
  match s with
  | EmptyString => EmptyString
  | String c EmptyString => if is_semicolon c then EmptyString else s
  | String c r => String c (drop_last_semicolon r)
  end.

(** The query, trimmed of white space and of a trailing semicolon, starts
    with [select] in any letter case. *)
Definition begins_with_select (text : string) : bool :=
  startswith "select" (lower (drop_last_semicolon (strip isspace_char text))).

(** The answer is one of the tool's error messages. *)
Definition is_error_message (answer : string) : bool := startswith "Error:" answer.

(** The status is a success (2xx). *)
Definition is_2xx (status : Z) : bool := (200 <=? status) && (status <? 300).

(** The statuses the link resolver turns into "no link". *)
Definition soft_failure (status : Z) : bool :=
  (status =? 400) || (status =? 404) || (status =? 500).

(** The request of the link resolver for a publication. *)
Definition pdf_link_request (pub : dict) : request :=
  {| req_url := (API ++ "/publications/content/pdfLink")%string;
     req_params := [("partNumber", get pub "partNumber");
                    ("modelType", get pub "modelType");
                    ("lineOffDate", VStr (date_portion pub))] |}.

(** The three fields the link resolver needs are present. *)
Definition link_fields_present (pub : dict) : bool :=
  truthy (get pub "partNumber") && truthy (get pub "modelType")
  && nonempty (date_portion pub).

(** Any two entries of a list, taken in order, are related. *)
Fixpoint pairwise {A : Type} (R : A -> A -> Prop) (l : list A) : Prop :=
  match l with
  | [] => True
  | a :: rest => Forall (R a) rest /\ pairwise R rest
  end.

(** Two values that are not equal as dict keys. *)
Definition differ (a b : value) : Prop := py_eq a b = false.

(** A record filed under the part number [k]. *)
Definition filed_under (k : value) (x : dict) : bool :=
  truthy (part_number x) && py_eq k (part_number x).

(** The last record of [found] that is filed under [k]. *)
Fixpoint last_with (k : value) (found : list dict) : option dict :=
  match found with
  | [] => None
  | x :: rest =>
      match last_with k rest with
      | Some y => Some y
      | None => if filed_under k x then Some x else None
      end
  end.

(** A text that starts with [en] in any letter case. *)
Definition starts_with_en (l : string) : Prop :=
  exists c1 c2 rest,
    l = String c1 (String c2 rest)
    /\ (c1 = "e"%char \/ c1 = "E"%char) /\ (c2 = "n"%char \/ c2 = "N"%char).

(** [p] has the identity key of the chosen product [prod]: the test of
    [years_for_same_product]. *)
Definition shares_key (prod p : dict) : bool :=
  key_eq (identity_key p) (identity_key prod).

(** Two identity keys that are not equal. *)
Definition key_differ (a b : key) : Prop := key_eq a b = false.

(** The line-off date of a product as a date, when it is a text that
    [fromisoformat] reads up to its ["T"]. *)
Definition parsed_date (fromisoformat : string -> option date) (p : dict)
  : option date :=
  match get p "lineOffDate" with
  | VStr s => if nonempty s then fromisoformat (before_T s) else None
  | _ => None
  end.

(** The rank in the words of the specification: the line-off date, the
    earliest date standing in for a missing or unreadable one, then the
    year, -1 standing in for a missing or non-numeric one. *)
Definition rank_of (fromisoformat : string -> option date) (p : dict) : rank :=
  (match parsed_date fromisoformat p with Some d => d | None => date_min end,
   match year_number p with Some y => y | None => -1 end).

(** [a < b] on ranks, spelled out: the date decides, the year breaks a
    tie. *)
Definition rank_lt (a b : rank) : Prop :=
  let '((ya, ma, da), na) := a in
  let '((yb, mb, db), nb) := b in
  ya < yb
  \/ (ya = yb /\ (ma < mb \/ (ma = mb /\ (da < db \/ (da = db /\ na < nb))))).

(** ** Invariants of the loops *)

(** What the loop over [found] maintains: every key is hashable and
    holds the last record seen for it, no two keys are equal, and every
    record seen that has a part number is covered by a key. *)
Definition uniq_inv (seen : list dict) (uniq : list (value * dict)) : Prop :=
  Forall (fun e => hashable (fst e) = true /\ last_with (fst e) seen = Some (snd e)) uniq
  /\ pairwise differ (map fst uniq)
  /\ (forall y, In y seen -> truthy (part_number y) = true ->
        hashable (part_number y) = true
        /\ exists k, In k (map fst uniq) /\ py_eq k (part_number y) = true).

(** What the first loop of merge maintains: every group has a hashable
    key and holds, in order, the products seen whose key equals it, at
    least one; no two group keys are equal; every product seen has a
    hashable key and a group. *)
Definition group_inv (seen : list dict) (groups : list (key * list dict)) : Prop :=
  Forall (fun g =>
            key_hashable (fst g) = true
            /\ snd g = List.filter (fun p => key_eq (fst g) (identity_key p)) seen
            /\ snd g <> []) groups
  /\ pairwise key_differ (map fst groups)
  /\ (forall p, In p seen ->
        key_hashable (identity_key p) = true
        /\ exists k, In k (map fst groups) /\ key_eq k (identity_key p) = true).

(** How a returned product relates to its group: it is one of the
    products, it has the key of the group, and no product with that key
    outranks it. *)
Definition represents (fromisoformat : string -> option date)
  (all_products : list dict) (g : key * list dict) (r : dict) : Prop :=
  key_hashable (fst g) = true
  /\ In r all_products
  /\ key_eq (fst g) (identity_key r) = true
  /\ forall x, In x all_products -> key_eq (fst g) (identity_key x) = true ->
       rank_ltb (rank_of fromisoformat r) (rank_of fromisoformat x) = false.

(** ** A date parser and sample data *)

Definition digit_value (c : ascii) : option Z :=
  if isdecimal_char c then Some (Z.of_N (code c) - 48) else None.

Fixpoint digits_value (acc : Z) (cs : list ascii) : option Z :=
  match cs with
  | [] => Some acc
  | c :: rest =>
      match digit_value c with
      | Some d => digits_value (10 * acc + d) rest
      | None => None
      end
  end.

Definition leap_year (y : Z) : bool :=
  ((y mod 4 =? 0) && negb (y mod 100 =? 0)) || (y mod 400 =? 0).

Definition days_in_month (y m : Z) : Z :=
  if m =? 2 then (if leap_year y then 29 else 28)
  else if (m =? 4) || (m =? 6) || (m =? 9) || (m =? 11) then 30
  else 31.

(** The one form of date every version of [fromisoformat] reads:
    [YYYY-MM-DD] naming a day of the calendar. *)
Definition iso_ymd (s : string) : option date :=
  match list_ascii_of_string s with
  | [y1; y2; y3; y4; s1; m1; m2; s2; d1; d2] =>
      match digits_value 0 [y1; y2; y3; y4], digits_value 0 [m1; m2],
            digits_value 0 [d1; d2] with
      | Some y, Some m, Some d =>
          if Ascii.eqb s1 "-" && Ascii.eqb s2 "-"
             && (1 <=? y) && (1 <=? m) && (m <=? 12)
             && (1 <=? d) && (d <=? days_in_month y m)
          then Some (y, m, d)
          else None
      | _, _, _ => None
      end
  | _ => None
  end.

Definition product (brand model model_type : string) (id : Z) (year line_off : value)
  : dict :=
  [("brand", VStr brand); ("model", VStr model); ("modelType", VStr model_type);
   ("ngtdModelId", VInt id); ("year", year); ("lineOffDate", line_off)].

(** One vehicle in three variants, the youngest year without a date, and
    a second vehicle. *)
Definition rav4_2019 : dict :=
  product "Toyota" "RAV4" "XA50" 7 (VInt 2019) (VStr "2019-01-01T00:00:00").
Definition rav4_2021 : dict :=
  product "Toyota" "RAV4" "XA50" 7 (VStr "2021") (VStr "2021-06-15T00:00:00").
Definition rav4_2023 : dict :=
  product "Toyota" "RAV4" "XA50" 7 (VInt 2023) VNone.
Definition yaris_2022 : dict :=
  product "Toyota" "Yaris" "XP210" 9 (VInt 2022) (VStr "2022-03-01").

Definition sample_products : list dict :=
  [rav4_2019; yaris_2022; rav4_2021; rav4_2023].

Definition publication (pn type language title line_off : string) : dict :=
  [("partNumber", VStr pn); ("publicationType", VStr type);
   ("language", VStr language); ("title", VStr title);
   ("lineOffDate", VStr line_off); ("modelType", VStr "XA50");
   ("ngtdModelId", VStr "7"); ("year", VInt 2022)].

Definition om_2020 : dict :=
  publication "OM42A01E" "OM" "en-GB" "Owner's Manual" "2020-01-01T00:00:00".
Definition om_2022 : dict :=
  publication "OM42B02E" "OM" "EN" "Owner's Manual" "2022-03-01T00:00:00".
Definition sm_2023 : dict :=
  publication "SM42C03F" "SM" "fr" "Manuel" "2023-05-01T00:00:00".

Definition sample_publications : list dict := [om_2020; sm_2023; om_2022].

(** A hydration payload in which one part number occurs twice, with two
    titles, and one record has an empty part number. *)
Definition sample_payload : value :=
  VDict [("props", VDict [("pageProps", VDict [("publications", VList [
    VDict [("partNumber", VStr "OM42A01E"); ("title", VStr "First")];
    VDict [("partNumber", VStr ""); ("title", VStr "Blank")];
    VDict [("partNumber", VStr "OM42A01E"); ("title", VStr "Second")]])])])].

Definition empty_world : world := {| files := ∅; sent := [] |}.

(** A far end that answers every request with status 300 and a JSON
    body carrying a link. *)
Definition redirecting_server (n : nat) (req : request) : result response :=
  Ok {| status_code := 300;
        json := Some (VDict [("url", VStr "https://cdn.example/OM42B02E.pdf")]);
        content_type := "application/json";
        chunks := [];
        complete := true |}.

(** A far end that answers every request with status 200 and a link. *)
Definition link_server (n : nat) (req : request) : result response :=
  Ok {| status_code := 200;
        json := Some (VDict [("url", VStr "https://cdn.example/OM42B02E.pdf")]);
        content_type := "application/json";
        chunks := [];
        complete := true |}.

(** A far end that serves a PDF of two chunks. *)
Definition pdf_server (n : nat) (req : request) : result response :=
  Ok {| status_code := 200;
        json := None;
        content_type := "application/pdf";
        chunks := ["%PDF-1.7"; "%%EOF"];
        complete := true |}.

(** A database that answers every statement with one row. *)
Definition one_row_db (q : string) (lim : Z) : result string := Ok "1".

(** ** The text of a value *)

Definition backslash : ascii := "092"%char.
Definition double_quote : ascii := "034"%char.

(** One hexadecimal digit, in capitals or not. *)
Definition hex_digit (upper : bool) (n : N) : ascii :=
  if (n <? 10)%N then ascii_of_N (48 + n)
  else ascii_of_N ((if upper then 55 else 87) + n).

(** The two hexadecimal digits of a byte. *)
Definition hex2 (upper : bool) (n : N) : string :=
  String (hex_digit upper (n / 16)) (String (hex_digit upper (n mod 16)) "").

(** [str.isprintable] on one character. *)
Definition isprintable_char (c : ascii) : bool :=
  between 32 126 c || between 161 172 c || between 174 255 c.

Fixpoint string_flat_map (f : ascii -> string) (s : string) : string :=
  match s with
  | EmptyString => EmptyString
  | String c r => (f c ++ string_flat_map f r)%string
  end.

(** One character inside [repr(s)], between quotes [q]. *)
Definition repr_char (q c : ascii) : string :=
  if Ascii.eqb c q || Ascii.eqb c backslash then String backslash (String c "")
  else if (code c =? 9)%N then String backslash "t"
  else if (code c =? 10)%N then String backslash "n"
  else if (code c =? 13)%N then String backslash "r"
  else if isprintable_char c then String c ""
  else String backslash (String "x" (hex2 false (code c))).

(** [repr(s)] of a text: between single quotes, unless the text holds a
    single quote and no double quote. *)
Definition repr_str (s : string) : string :=
  let q := if string_mem "'" s && negb (string_mem double_quote s)
           then double_quote else "'"%char in
  String q (string_flat_map (repr_char q) s ++ String q "").

(** [repr(v)] *)
Fixpoint py_repr (v : value) : string :=
  match v with
  | VNone => "None"
  | VBool b => if b then "True" else "False"
  | VInt z => str_int z
  | VStr s => repr_str s
  | VList l =>
      "[" ++
      (fix repr_items (items : list value) : string :=
         match items with
         | [] => ""
         | x :: rest =>
             py_repr x ++ match rest with
                          | [] => ""
                          | _ :: _ => ", " ++ repr_items rest
                          end
         end) l
      ++ "]"
  | VDict d =>
      "{" ++
      (fix repr_entries (entries : list (string * value)) : string :=
         match entries with
         | [] => ""
         | (k, x) :: rest =>
             repr_str k ++ ": " ++ py_repr x
             ++ match rest with
                | [] => ""
                | _ :: _ => ", " ++ repr_entries rest
                end
         end) d
      ++ "}"
  end%string.

(** [str(v)]: a text is its own text, every other value prints as its
    [repr]. *)
Definition py_str (v : value) : string :=
  match v with
  | VStr s => s
  | _ => py_repr v
  end.

(** ** The publications URL *)

Definition PORTAL : string := "https://customerportal.tweddle-aws.eu".

(** The UTF-8 bytes of one character below 256. *)
Definition utf8 (c : ascii) : list N :=
  if (code c <? 128)%N then [code c]
  else [192 + code c / 64; 128 + code c mod 64]%N.

(** The bytes [quote] never escapes: letters, digits and [_.-~]. *)
Definition always_safe (b : N) : bool :=
  ((65 <=? b) && (b <=? 90) || (97 <=? b) && (b <=? 122) || (48 <=? b) && (b <=? 57)
   || (b =? 95) || (b =? 46) || (b =? 45) || (b =? 126))%N.

(** One byte of [quote(s)], with the default [safe="/"]. *)
Definition quote_byte (b : N) : string :=
  if always_safe b || (b =? 47)%N
  then String (ascii_of_N b) ""
  else String "%" (hex2 true b).

(** [urllib.parse.quote(s)] of a text. *)
Definition quote (s : string) : string :=
  string_flat_map (fun c => String.concat "" (map quote_byte (utf8 c))) s.

(** [quote(v)]: what is no text (and no bytes) is refused. *)
Definition quote_value (v : value) : result string :=
  match v with
  | VStr s => Ok (quote s)
  | _ => Raise TypeError
  end.

(** The pairs [(f"year[{i}]", y)] appended by the loop over
    [enumerate(years)], counting from [i]. *)
Fixpoint year_params (i : nat) (years : list string) : list (string * value) :=
  match years with
  | [] => []
  | y :: rest =>
      ("year[" ++ str_int (Z.of_nat i) ++ "]", VStr y)%string :: year_params (S i) rest
  end.

(** The generator [f"{k}={quote(v)}" for k, v in params if v], consumed
    by [join]. *)
Fixpoint query_parts (params : list (string * value)) : result (list string) :=
  match params with
  | [] => Ok []
  | (k, v) :: rest =>
      if truthy v
      then do qv <- quote_value v;
           do parts <- query_parts rest;
           Ok ((k ++ "=" ++ qv)%string :: parts)
      else query_parts rest
  end.

Definition build_publications_url (prod : dict) (years : list string) (language : string)
  : result string :=
  let params :=
    [ ("brand", py_or (get prod "brand") (VStr ""));
      ("model", py_or (get prod "model") (VStr ""));
      ("modelType", py_or (py_or (get prod "modelType") (get prod "model")) (VStr ""));
      ("ngtdModelId", VStr (py_str (py_or (get prod "ngtdModelId") (VStr ""))));
      ("language", VStr language) ] in
  let params := params ++ year_params 0 years in
  do parts <- query_parts params;
  Ok (PORTAL ++ "/publications?" ++ join "&" parts)%string.

(** ** The catalogue and the run *)

(** [len(data)] *)
Definition py_len (data : value) : result nat :=
  match data with
  | VStr s => Ok (String.length s)
  | VList l => Ok (length l)
  | VDict d => Ok (length d)
  | _ => Raise TypeError
  end.

(** What [for prod in data] yields for a value that has a length: the
    items of a list, the characters of a text, the keys of a dict. *)
Definition items_of (data : value) : list value :=
  match data with
  | VList l => l
  | VStr s => map (fun c => VStr (String c "")) (list_ascii_of_string s)
  | VDict d => map (fun e => VStr (fst e)) d
  | _ => []
  end.

(** The first loop of [merge_products_latest] over such items: an item
    that is no dict has no [get]. *)
Fixpoint group_values (items : list value) (groups : list (key * list dict))
  : result (list (key * list dict)) :=
  match items with
  | [] => Ok groups
  | VDict prod :: rest =>
      let k := identity_key prod in
      if key_hashable k
      then group_values rest (groups_append groups k prod)
      else Raise TypeError
  | _ :: _ => Raise AttributeError
  end.

(** The dicts among the items. *)
Fixpoint dicts_of (items : list value) : list dict :=
  match items with
  | [] => []
  | VDict d :: rest => d :: dicts_of rest
  | _ :: rest => dicts_of rest
  end.

Definition PRODUCT_LIMIT : nat := 15.

Section Run.

Variable fromisoformat : string -> option date.

(** [r.text]: the body decoded with the character set the response
    declares or the library guesses. *)
Variable text : response -> string.

(** [parse_next_data]: the JSON of the page's [__NEXT_DATA__] script
    element, [None] without one. *)
Variable parse_next_data : string -> result value.

Variable server : nat -> request -> result response.

Definition get_products (w : world) : result value * world :=
  match send server {| req_url := (API ++ "/pubhub/info/products")%string;
                       req_params := [] |} w with
  | (Raise e, w') => (Raise e, w')
  | (Ok r, w') =>
      match raise_for_status r with
      | Raise e => (Raise e, w')
      | Ok _ =>
          match json r with
          | None => (Raise JSONDecodeError, w')
          | Some data =>
              match py_len data with
              | Raise e => (Raise e, w')
              | Ok _ => (Ok data, w')
              end
          end
      end
  end.

(** [merge_products_latest(all_products)] as [main] calls it, on what
    the catalogue holds. *)
Definition merge_catalogue (data : value) : result (list dict) :=
  do groups <- group_values (items_of data) [];
  best_of_groups fromisoformat groups.

(** The body of the loop of [main] for one product; [all_products] is
    the catalogue, by now a list of dicts. A [continue] and the end of
    the body both return. The address of the download is handed to the
    HTTP library, which takes the text of whatever it is given. *)
Definition process_product (all_products : list dict) (p : dict) (w : world)
  : result unit * world :=
  match pick_years_for_product p all_products with
  | Raise e => (Raise e, w)
  | Ok years =>
  match build_publications_url p years "en" with
  | Raise e => (Raise e, w)
  | Ok pub_url =>
  match send server {| req_url := pub_url; req_params := [] |} w with
  | (Raise e, w1) => (Raise e, w1)
  | (Ok r, w1) =>
  match parse_next_data (text r) with
  | Raise e => (Raise e, w1)
  | Ok next_data =>
  if negb (truthy next_data) then (Ok tt, w1) else
  match collect_publications next_data with
  | Raise e => (Raise e, w1)
  | Ok pubs =>
  match pick_latest_en_om pubs with
  | Raise e => (Raise e, w1)
  | Ok None => (Ok tt, w1)
  | Ok (Some om) =>
  if negb (truthy (VDict om)) then (Ok tt, w1) else
  match get_pdf_link server om w1 with
  | (Raise e, w2) => (Raise e, w2)
  | (Ok pdf_url, w2) =>
  if negb (truthy pdf_url) then (Ok tt, w2) else
  match download_pdf server (py_str pdf_url) p om w2 with
  | (Raise e, w3) => (Raise e, w3)
  | (Ok _, w3) => (Ok tt, w3)
  end end end end end end end end.

(** The loop of [main]. *)
Fixpoint process_products (all_products products : list dict) (w : world)
  : result unit * world :=
  match products with
  | [] => (Ok tt, w)
  | p :: rest =>
      match process_product all_products p w with
      | (Raise e, w') => (Raise e, w')
      | (Ok _, w') => process_products all_products rest w'
      end
  end.

(** [main], with [MERGE_PRODUCTS] and [PRODUCT_LIMIT] as the module
    sets them: the catalogue is merged and the first fifteen
    representatives are processed. *)
Definition main (w : world) : result unit * world :=
  match get_products w with
  | (Raise e, w1) => (Raise e, w1)
  | (Ok data, w1) =>
      match merge_catalogue data with
      | Raise e => (Raise e, w1)
      | Ok base_list =>
          process_products (dicts_of (items_of data)) (firstn PRODUCT_LIMIT base_list) w1
      end
  end.

End Run.

(** ** Vocabulary of the further statements *)

(** A character a file name is made of: a letter, a digit, a dot, an
    underscore or a hyphen. *)
Definition name_char (c : ascii) : bool := isalnum_char c || string_mem c "._-".

(** In the list [seen], a product with key [k1] stands before every
    product with key [k2]. *)
Definition appears_before (seen : list dict) (k1 k2 : key) : Prop :=
  exists before x after,
    seen = before ++ x :: after
    /\ key_eq k1 (identity_key x) = true
    /\ forall y, In y before -> key_eq k2 (identity_key y) = false.

(** In the list [all_products], the group of [a] begins before the group
    of [b]: a product of [a]'s group stands before every product of
    [b]'s. *)
Definition group_begins_before (all_products : list dict) (a b : dict) : Prop :=
  exists before x after,
    all_products = before ++ x :: after
    /\ same_product x a = true
    /\ forall y, In y before -> same_product y b = false.

(** A field of a product the URL builder can take: a text, or a value
    that is false. *)
Definition text_or_false (v : value) : bool :=
  match v with
  | VStr _ => true
  | _ => negb (truthy v)
  end.

(** How often the character [c] occurs in [s]. *)
Fixpoint count_char (c : ascii) (s : string) : nat :=
  match s with
  | EmptyString => 0%nat
  | String d r => ((if Ascii.eqb c d then 1 else 0) + count_char c r)%nat
  end.

(** A character that stands for itself in a URL: an ASCII letter or
    digit, or one of [_.-~]. *)
Definition unreserved_char (c : ascii) : bool :=
  between 48 57 c || between 65 90 c || between 97 122 c || string_mem c "_.-~".

(** A character of an escaped value: unreserved, a slash, or part of an
    escape. *)
Definition value_char (c : ascii) : bool := unreserved_char c || string_mem c "/%".

(** A character of a parameter name: unreserved or a square bracket. *)
Definition name_of_field_char (c : ascii) : bool := unreserved_char c || string_mem c "[]".

(** A character of a query string: of a name, of a value, or one of the
    separators [=] and [&]. *)
Definition query_char (c : ascii) : bool :=
  value_char c || name_of_field_char c || string_mem c "=&".

(** The number of parameters that have a value: among brand, model,
    model type (or, failing it, model), model id and language, those
    that are true, and the years that are not empty. *)
Definition url_fields (prod : dict) (years : list string) (language : string) : nat :=
  (length (List.filter truthy
             [get prod "brand"; get prod "model";
              py_or (get prod "modelType") (get prod "model");
              get prod "ngtdModelId"; VStr language])
   + length (List.filter nonempty years))%nat.

(** A path directly in the output directory whose name is a safe file
    name ending in [.pdf]. *)
Definition pdf_path (p : string) : Prop :=
  exists base,
    p = ("./manuals/" ++ base ++ ".pdf")%string
    /\ nonempty base = true
    /\ string_forallb name_char base = true.

(** From [w] to [w'] at most [n] requests were sent and at most [m]
    files were added; every file of [w] is in [w'] with its content, and
    a file that is new is a [pdf_path]. *)
Definition grows (n m : nat) (w w' : world) : Prop :=
  (exists new, sent w' = new ++ sent w /\ (length new <= n)%nat)
  /\ files w ⊆ files w'
  /\ (forall p, files w !! p = None -> is_Some (files w' !! p) -> pdf_path p)
  /\ (size (files w') <= size (files w) + m)%nat.

(** The request for the catalogue. *)
Definition catalogue_request : request :=
  {| req_url := "https://diva-api.tweddle.app/pubhub/info/products"; req_params := [] |}.

Definition is_dict (v : value) : bool :=
  match v with
  | VDict _ => true
  | _ => false
  end.

(** A catalogue [main] can walk: a list of dicts; or a text or a dict
    that is empty. *)
Definition catalogue_shape (data : value) : bool :=
  match data with
  | VList items => forallb is_dict items
  | VStr s => negb (nonempty s)
  | VDict d => match d with [] => true | _ => false end
  | _ => false
  end.

(** A far end whose catalogue is a JSON object wrapping the list. *)
Definition wrapped_catalogue_server (n : nat) (req : request) : result response :=
  Ok {| status_code := 200;
        json := Some (VDict [("products", VList [VDict rav4_2019])]);
        content_type := "application/json";
        chunks := [];
        complete := true |}.

(** A page reader that finds no payload. *)
Definition no_payload (html : string) : result value := Ok VNone.

(** The body as text, byte for byte. *)
Definition latin1_text (r : response) : string := String.concat "" (chunks r).

(** A far end that serves the sample catalogue, a page for every
    address of the portal, a link for every other address of the API and
    a PDF for the rest. *)
Definition sample_server (n : nat) (req : request) : result response :=
  if String.eqb (req_url req) "https://diva-api.tweddle.app/pubhub/info/products"
  then Ok {| status_code := 200;
             json := Some (VList (map VDict sample_products));
             content_type := "application/json";
             chunks := [];
             complete := true |}
  else if startswith "https://customerportal.tweddle-aws.eu/" (req_url req)
  then Ok {| status_code := 200;
             json := None;
             content_type := "text/html";
             chunks := ["<html>"; "</html>"];
             complete := true |}
  else if startswith "https://diva-api.tweddle.app/" (req_url req)
  then link_server n req
  else pdf_server n req.

(** A page reader that finds the sample publications on every page. *)
Definition sample_page (html : string) : result value :=
  Ok (VDict [("props", VList (map VDict sample_publications))]).

(** A far end whose stream breaks off after the first chunk. *)
Definition broken_server (n : nat) (req : request) : result response :=
  Ok {| status_code := 200;
        json := None;
        content_type := "application/pdf";
        chunks := ["%PDF-1.7"];
        complete := false |}.

(** The text of the one character SUPERSCRIPT TWO, and a variant of the
    sample vehicle that has it as its year. *)
Definition superscript_two : string := String "178"%char "".

Definition rav4_superscript : dict :=
  product "Toyota" "RAV4" "XA50" 7 (VStr superscript_two) (VStr "2022-01-01").

(** A publication whose model type is a list of one text. *)
Definition om_listed : dict :=
  [("partNumber", VStr "OM42B02E"); ("publicationType", VStr "OM");
   ("language", VStr "en"); ("lineOffDate", VStr "2022-03-01T00:00:00");
   ("modelType", VList [VStr "XA50"]); ("year", VInt 2022)].

(** * Properties *)

(** ** Text *)

Lemma startswith_empty (s : string) : startswith "" s = true.
Proof. destruct s; reflexivity. Qed.

Lemma startswith_cons (a b : ascii) (p s : string) :
  startswith (String a p) (String b s) = true <-> a = b /\ startswith p s = true.
Proof.
  unfold startswith; simpl.
  destruct (ascii_dec a b) as [e | n]; split; intros H.
  - now split.
  - now destruct H.
  - discriminate.
  - now destruct H.
Qed.

Lemma startswith_trans (p a b : string) :
  startswith p a = true -> startswith a b = true -> startswith p b = true.
Proof.
  revert a b; induction p as [| c p IH]; intros a b Hpa Hab.
  - apply startswith_empty.
  - destruct a as [| x a]; [discriminate |].
    destruct b as [| y b]; [discriminate |].
    apply startswith_cons in Hpa as [-> Hpa].
    apply startswith_cons in Hab as [-> Hab].
    apply startswith_cons; split; [reflexivity | eauto].
Qed.

Lemma startswith_string_map (f : ascii -> ascii) (a b : string) :
  startswith a b = true -> startswith (string_map f a) (string_map f b) = true.
Proof.
  revert b; induction a as [| x a IH]; intros b H.
  - apply startswith_empty.
  - destruct b as [| y b]; [discriminate |].
    apply startswith_cons in H as [-> H].
    simpl. apply startswith_cons; split; [reflexivity | auto].
Qed.

Lemma startswith_refl (s : string) : startswith s s = true.
Proof.
  induction s as [| c s IH]; [reflexivity |].
  apply startswith_cons; split; [reflexivity | exact IH].
Qed.

(** Stripping every trailing semicolon leaves a prefix of what dropping
    one of them leaves. *)
Lemma rstrip_prefix_drop_last (s : string) :
  startswith (rstrip is_semicolon s) (drop_last_semicolon s) = true.
Proof.
  induction s as [| c s IH]; [reflexivity |].
  destruct s as [| d s].
  - simpl. destruct (is_semicolon c); [reflexivity | apply startswith_refl].
  - change (drop_last_semicolon (String c (String d s)))
      with (String c (drop_last_semicolon (String d s))).
    change (rstrip is_semicolon (String c (String d s)))
      with (match rstrip is_semicolon (String d s) with
            | EmptyString => if is_semicolon c then EmptyString else String c EmptyString
            | String x r' => String c (String x r')
            end).
    destruct (rstrip is_semicolon (String d s)) as [| x r'].
    + destruct (is_semicolon c); [apply startswith_empty |].
      apply startswith_cons; split; [reflexivity | apply startswith_empty].
    + apply startswith_cons; split; [reflexivity | exact IH].
Qed.

Lemma select_after_rstrip (t : string) :
  startswith "select" (lower (rstrip is_semicolon t)) = true ->
  startswith "select" (lower (drop_last_semicolon t)) = true.
Proof.
  intros H. eapply startswith_trans; [exact H |].
  apply startswith_string_map, rstrip_prefix_drop_last.
Qed.

(** What dropping one trailing semicolon leaves is what stripping all of
    them leaves, followed by semicolons only. *)
Lemma drop_last_rstrip (s : string) :
  exists semis,
    drop_last_semicolon s = (rstrip is_semicolon s ++ semis)%string
    /\ string_forallb is_semicolon semis = true.
Proof.
  induction s as [| c s IH]; [exists ""; split; reflexivity |].
  destruct s as [| d s].
  - exists "". cbn. destruct (is_semicolon c); split; reflexivity.
  - destruct IH as (semis & Heq & Hall).
    change (drop_last_semicolon (String c (String d s)))
      with (String c (drop_last_semicolon (String d s))).
    change (rstrip is_semicolon (String c (String d s)))
      with (match rstrip is_semicolon (String d s) with
            | EmptyString => if is_semicolon c then EmptyString else String c EmptyString
            | String x r' => String c (String x r')
            end).
    rewrite Heq.
    destruct (rstrip is_semicolon (String d s)) as [| x r'].
    + destruct (is_semicolon c) eqn:Hc.
      * exists (String c semis). split; [reflexivity |]. cbn. rewrite Hc. exact Hall.
      * exists semis. split; [reflexivity | exact Hall].
    + exists semis. split; [reflexivity | exact Hall].
Qed.

Lemma string_map_app (f : ascii -> ascii) (a b : string) :
  string_map f (a ++ b) = (string_map f a ++ string_map f b)%string.
Proof.
  induction a as [| c a IH]; [reflexivity |].
  simpl. rewrite IH. reflexivity.
Qed.

Lemma lower_semicolons (semis : string) :
  string_forallb is_semicolon semis = true -> lower semis = semis.
Proof.
  induction semis as [| c semis IH]; [reflexivity |].
  cbn. rewrite andb_true_iff. intros [Hc Hrest].
  apply Ascii.eqb_eq in Hc. subst c. unfold lower in IH. rewrite IH by exact Hrest.
  reflexivity.
Qed.

(** A prefix without semicolon of a text that ends in semicolons lies
    before them. *)
Lemma startswith_before_semicolons (p a semis : string) :
  string_forallb (fun c => negb (is_semicolon c)) p = true ->
  string_forallb is_semicolon semis = true ->
  startswith p (a ++ semis) = true -> startswith p a = true.
Proof.
  revert a. induction p as [| c p IH]; intros a Hp Hsemis H.
  - apply startswith_empty.
  - cbn in Hp. apply andb_true_iff in Hp as [Hc Hp].
    destruct a as [| x a].
    + destruct semis as [| y semis]; [discriminate |].
      cbn in H. apply startswith_cons in H as [-> _].
      cbn in Hsemis. apply andb_true_iff in Hsemis as [Hy _].
      rewrite Hy in Hc. discriminate.
    + cbn in H. apply startswith_cons in H as [-> H].
      apply startswith_cons. split; [reflexivity | eauto].
Qed.

(** Whether one trailing semicolon is trimmed or all of them, the same
    queries begin with [select]. *)
Lemma begins_with_select_rstrip (text : string) :
  begins_with_select text
  = startswith "select" (lower (rstrip is_semicolon (strip isspace_char text))).
Proof.
  unfold begins_with_select.
  destruct (startswith "select" (lower (rstrip _ _))) eqn:Hall.
  - apply select_after_rstrip, Hall.
  - destruct (startswith "select" (lower (drop_last_semicolon _))) eqn:Hone;
      [| reflexivity].
    destruct (drop_last_rstrip (strip isspace_char text)) as (semis & Heq & Hsemis).
    rewrite Heq in Hone. unfold lower in Hone. rewrite string_map_app in Hone.
    fold (lower semis) in Hone. rewrite (lower_semicolons _ Hsemis) in Hone.
    apply startswith_before_semicolons in Hone; [| reflexivity | exact Hsemis].
    unfold lower in Hall. congruence.
Qed.

(** ** The SQL tool *)

(** C9. A query that is missing, or that does not begin with [select] (in
    any letter case) once white space and a trailing semicolon are trimmed
    off, is answered with an error message and no statement reaches the
    database; the empty query is such a query. *)
Theorem forward_rejects_non_select
  (run_select : string -> Z -> result string) (query : option string) (limit : value) :
  match query with
  | None => True
  | Some text => begins_with_select text = false
  end ->
  exists answer,
    forward run_select query limit = (Ok answer, [])
    /\ is_error_message answer = true.
Proof.
  intros H. unfold forward.
  destruct query as [text |]; [| eexists; split; reflexivity].
  destruct (negb (nonempty text) || negb (nonempty (strip isspace_char text)));
    [eexists; split; reflexivity |].
  destruct (startswith "select" (lower (rstrip is_semicolon (strip isspace_char text))))
    eqn:Hsel; simpl; [| eexists; split; reflexivity].
  apply select_after_rstrip in Hsel.
  unfold begins_with_select in H. congruence.
Qed.

Lemma forward_rejects_non_select_witness :
  begins_with_select "  drop table sales; " = false
  /\ exists answer,
       forward one_row_db (Some "  drop table sales; ") (VInt 10) = (Ok answer, [])
       /\ is_error_message answer = true.
Proof.
  split; [reflexivity |].
  apply (forward_rejects_non_select one_row_db (Some "  drop table sales; ") (VInt 10)).
  reflexivity.
Defined.

(** A query that does begin with [select] reaches the database, trimmed:
    the rejection is no blanket refusal. *)
Lemma forward_runs_select
  (run_select : string -> Z -> result string) (text : string) (limit : value) (lim : Z) :
  begins_with_select text = true ->
  row_limit limit = Ok lim ->
  forward run_select (Some text) limit
  = (run_select (rstrip is_semicolon (strip isspace_char text)) lim,
     [rstrip is_semicolon (strip isspace_char text)]).
Proof.
  intros Hsel Hlim. rewrite begins_with_select_rstrip in Hsel.
  unfold forward.
  assert (nonempty (strip isspace_char text) = true) as Hstrip
    by (destruct (strip isspace_char text); [discriminate Hsel | reflexivity]).
  assert (nonempty text = true) as Htext
    by (destruct text; [discriminate Hstrip | reflexivity]).
  rewrite Htext, Hstrip, Hsel, Hlim. reflexivity.
Qed.

Lemma forward_runs_select_example :
  forward one_row_db (Some " Select count(*) from sales; ") VNone
  = (Ok "1", ["Select count(*) from sales"]).
Proof. reflexivity. Qed.

(** ** File naming *)

Lemma safe_filename_nonempty (s : string) : nonempty (safe_filename s) = true.
Proof.
  unfold safe_filename.
  destruct (nonempty (slice_to 200 _)) eqn:E; [exact E | reflexivity].
Qed.

(** Whatever a component holds, once it is not empty it stays in the
    name: the test on its sanitized form never fails. *)
Lemma segment_kept_iff (x : option string) :
  segment_kept x = match x with Some s => nonempty s | None => false end.
Proof.
  destruct x as [s |]; [| reflexivity].
  simpl. rewrite safe_filename_nonempty. apply andb_true_r.
Qed.

Lemma safe_filename_sanitize (s : string) :
  safe_filename s
  = if nonempty (spec_sanitize s) then spec_sanitize s else "manual".
Proof. reflexivity. Qed.

Lemma segments_agree (segments : list (option string)) :
  Forall (fun x => match x with
                   | Some s => nonempty s = true -> nonempty (spec_sanitize s) = true
                   | None => True
                   end) segments ->
  map segment_name (List.filter segment_kept segments)
  = List.filter nonempty (map spec_component segments).
Proof.
  induction 1 as [| x segments Hx _ IH]; [reflexivity |].
  cbn [List.filter map]. rewrite segment_kept_iff.
  destruct x as [s |]; [| exact IH].
  cbn [spec_component].
  destruct (nonempty s) eqn:Hs.
  - rewrite (Hx eq_refl). cbn [map segment_name].
    rewrite safe_filename_sanitize, (Hx eq_refl), IH. reflexivity.
  - destruct s; [| discriminate]. exact IH.
Qed.

(** The code and the specification name the file alike as long as no
    component that is not empty sanitizes to nothing. *)
Lemma make_named_pdf_agrees_with_spec
  (brand model model_type : string) (year : option string) (part_number : string) :
  Forall (fun x => match x with
                   | Some s => nonempty s = true -> nonempty (spec_sanitize s) = true
                   | None => True
                   end)
    [Some brand; Some model; Some model_type; year; Some part_number] ->
  make_named_pdf brand model model_type year part_number
  = spec_named_pdf brand model model_type year part_number.
Proof.
  intros H. unfold make_named_pdf, spec_named_pdf.
  rewrite (segments_agree _ H). reflexivity.
Qed.

(** When every component is the empty text the name is [manual.pdf]. *)
Lemma make_named_pdf_all_empty : make_named_pdf "" "" "" None "" = "manual.pdf".
Proof. reflexivity. Qed.

(** The example of the specification: the slash of the brand becomes an
    underscore. *)
Lemma make_named_pdf_replaces_slash :
  make_named_pdf "Toyota/Lexus" "RAV4" "" (Some "2024") "OM12345"
  = "Toyota_Lexus.RAV4.2024.OM12345.pdf".
Proof. reflexivity. Qed.

(** C2. With the model type ["/"], which sanitizes to nothing, the file
    name keeps a segment, the stand-in [manual]; the naming algorithm as
    the specification words it drops the component. *)
Theorem make_named_pdf_keeps_emptied_component :
  spec_sanitize "/" = ""
  /\ make_named_pdf "Toyota" "RAV4" "/" (Some "2024") "OM12345"
     = "Toyota.RAV4.manual.2024.OM12345.pdf"
  /\ spec_named_pdf "Toyota" "RAV4" "/" (Some "2024") "OM12345"
     = "Toyota.RAV4.2024.OM12345.pdf".
Proof. repeat split; vm_compute; reflexivity. Qed.

(** ** The link resolver *)

(** What [get_pdf_link] does once the line-off date is known to be a
    text: one test on the three fields, then one request. *)
Lemma get_pdf_link_unfold
  (server : nat -> request -> result response) (pub : dict) (w : world) :
  date_is_text pub = true ->
  get_pdf_link server pub w =
    if negb (link_fields_present pub) then (Ok VNone, w)
    else
      let w' := {| files := files w; sent := pdf_link_request pub :: sent w |} in
      match server (length (sent w)) (pdf_link_request pub) with
      | Raise e => (Raise e, w')
      | Ok r =>
          if soft_failure (status_code r) then (Ok VNone, w')
          else
            match raise_for_status r with
            | Raise e => (Raise e, w')
            | Ok _ =>
                match json r with
                | None => (Raise JSONDecodeError, w')
                | Some (VDict data) => (Ok (get data "url"), w')
                | Some _ => (Raise AttributeError, w')
                end
            end
      end.
Proof.
  intros Htext.
  unfold get_pdf_link, link_fields_present, pdf_link_request, date_portion, send,
    soft_failure.
  unfold date_is_text in Htext.
  destruct (py_or (get pub "lineOffDate") (VStr "")); try discriminate.
  reflexivity.
Qed.

(** C7, as the code has it. For a publication whose line-off date is a
    text or absent: when one of part number, model type and date portion
    is missing, the result is "no link" and the world is untouched, no
    request is sent; otherwise exactly one request is sent, and an answer
    with status 400, 404 or 500 gives "no link", an answer with any other
    status from 400 to 599 raises [HTTPError], and an answer with a status
    outside 400..599 (every 2xx among them) whose body is a JSON object
    gives the value under ["url"], which is [None] when the key is
    absent. *)
Theorem get_pdf_link_by_status
  (server : nat -> request -> result response) (pub : dict) (w : world) :
  date_is_text pub = true ->
  (link_fields_present pub = false ->
     get_pdf_link server pub w = (Ok VNone, w))
  /\ (link_fields_present pub = true ->
      forall r, server (length (sent w)) (pdf_link_request pub) = Ok r ->
        sent (snd (get_pdf_link server pub w)) = pdf_link_request pub :: sent w
        /\ (soft_failure (status_code r) = true ->
              fst (get_pdf_link server pub w) = Ok VNone)
        /\ (soft_failure (status_code r) = false ->
            400 <= status_code r < 600 ->
              fst (get_pdf_link server pub w) = Raise HTTPError)
        /\ (~ 400 <= status_code r < 600 ->
            forall data, json r = Some (VDict data) ->
              fst (get_pdf_link server pub w) = Ok (get data "url")
              /\ (has_key "url" data = false -> get data "url" = VNone))).
Proof.
  intros Htext. split; intros Hfields.
  - rewrite get_pdf_link_unfold by exact Htext. now rewrite Hfields.
  - intros r Hr. rewrite get_pdf_link_unfold by exact Htext.
    rewrite Hfields, Hr. cbn [negb].
    unfold raise_for_status.
    split; [| split; [| split; [| intros Hout data Hjson; split]]].
    + destruct (soft_failure (status_code r)); [reflexivity |].
      destruct ((400 <=? status_code r) && (status_code r <? 600)); [reflexivity |].
      destruct (json r) as [[| | | | |] |]; reflexivity.
    + intros ->. reflexivity.
    + intros -> Hrange.
      assert ((400 <=? status_code r) && (status_code r <? 600) = true) as ->
        by (apply andb_true_iff; split; [apply Z.leb_le | apply Z.ltb_lt]; lia).
      reflexivity.
    + assert (soft_failure (status_code r) = false) as ->.
      { unfold soft_failure. destruct (Z.eqb_spec (status_code r) 400); [lia |].
        destruct (Z.eqb_spec (status_code r) 404); [lia |].
        destruct (Z.eqb_spec (status_code r) 500); [lia | reflexivity]. }
      assert ((400 <=? status_code r) && (status_code r <? 600) = false) as ->.
      { apply andb_false_iff.
        destruct (Z.leb_spec 400 (status_code r)); [right | left; reflexivity].
        apply Z.ltb_ge. lia. }
      rewrite Hjson. reflexivity.
    + clear. induction data as [| [k v] data IH]; [reflexivity |].
      cbn [has_key get]. destruct (String.eqb "url" k); cbn [orb]; [discriminate | exact IH].
Qed.

Lemma get_pdf_link_by_status_witness :
  date_is_text om_2022 = true
  /\ link_fields_present om_2022 = true
  /\ sent (snd (get_pdf_link link_server om_2022 empty_world))
     = [pdf_link_request om_2022]
  /\ fst (get_pdf_link link_server om_2022 empty_world)
     = Ok (VStr "https://cdn.example/OM42B02E.pdf").
Proof.
  split; [reflexivity |]. split; [reflexivity |].
  destruct (get_pdf_link_by_status link_server om_2022 empty_world eq_refl) as [_ H].
  destruct (H eq_refl _ eq_refl) as (Hsent & _ & _ & Hout).
  split; [exact Hsent |].
  assert (~ 400 <= 200 < 600) as Hstatus by lia.
  destruct (Hout Hstatus _ eq_refl) as [Hlink _]. exact Hlink.
Defined.

(** C7, as the specification has it, fails: status 300 is neither a 2xx
    nor one of 400, 404 and 500, and the resolver returns the link of the
    body instead of raising. *)
Lemma get_pdf_link_returns_on_status_300 :
  exists r,
    redirecting_server 0 (pdf_link_request om_2022) = Ok r
    /\ status_code r = 300
    /\ is_2xx (status_code r) = false
    /\ soft_failure (status_code r) = false
    /\ fst (get_pdf_link redirecting_server om_2022 empty_world)
       = Ok (VStr "https://cdn.example/OM42B02E.pdf").
Proof. eexists. repeat split. Qed.

(** ** Download *)

Lemma download_pdf_existing
  (server : nat -> request -> result response) (url : string) (prod pub : dict)
  (w : world) (path : string) :
  target_path prod pub = Ok path ->
  is_Some (files w !! path) ->
  download_pdf server url prod pub w = (Ok path, w).
Proof.
  intros Hpath Hex. unfold download_pdf. rewrite Hpath.
  destruct (decide (is_Some (files w !! path))) as [_ | Hno]; [reflexivity |].
  contradiction.
Qed.

Lemma write_file_exists (path : string) (body : list string) (w : world) :
  is_Some (files (write_file path body w) !! path).
Proof. unfold write_file; simpl. rewrite lookup_insert_eq. eauto. Qed.

(** C8. The target path is a function of the product and the
    publication alone. When it exists already, [download_pdf] returns it
    and leaves the world as it is: nothing is sent. When a call returns,
    it returns that path, a second call with the same inputs returns it
    again without sending anything, and if the file was not there before
    the first call, the two calls together sent exactly one request. *)
Theorem download_pdf_idempotent
  (server : nat -> request -> result response) (url : string) (prod pub : dict)
  (w : world) (path : string) :
  target_path prod pub = Ok path ->
  (is_Some (files w !! path) ->
     download_pdf server url prod pub w = (Ok path, w))
  /\ (forall p w1,
        download_pdf server url prod pub w = (Ok p, w1) ->
        p = path
        /\ download_pdf server url prod pub w1 = (Ok path, w1)
        /\ (files w !! path = None ->
              sent w1 = {| req_url := url; req_params := [] |} :: sent w)).
Proof.
  intros Hpath. split; [apply download_pdf_existing; exact Hpath |].
  intros p w1 Hcall.
  assert (p = path /\ is_Some (files w1 !! path)
          /\ (files w !! path = None ->
                sent w1 = {| req_url := url; req_params := [] |} :: sent w))
    as (-> & Hex & Hsent).
  { unfold download_pdf in Hcall. rewrite Hpath in Hcall.
    destruct (decide (is_Some (files w !! path))) as [Hyes | Hno].
    - inversion Hcall; subst. split; [reflexivity |]. split; [exact Hyes |].
      intros Hnone. rewrite Hnone in Hyes. destruct Hyes; discriminate.
    - unfold send in Hcall.
      destruct (server (length (sent w)) _) as [r | e]; [| discriminate].
      destruct (raise_for_status r); [| discriminate].
      destruct (complete r); [| discriminate].
      inversion Hcall; subst. split; [reflexivity |].
      split; [apply write_file_exists | intros _; reflexivity]. }
  split; [reflexivity |]. split; [| exact Hsent].
  apply download_pdf_existing; assumption.
Qed.

Lemma download_pdf_idempotent_witness :
  target_path rav4_2021 om_2022 = Ok "./manuals/Toyota.RAV4.XA50.2022.OM42B02E.pdf"
  /\ exists w1,
       download_pdf pdf_server "https://cdn.example/OM42B02E.pdf" rav4_2021 om_2022
         empty_world
       = (Ok "./manuals/Toyota.RAV4.XA50.2022.OM42B02E.pdf", w1)
       /\ download_pdf pdf_server "https://cdn.example/OM42B02E.pdf" rav4_2021 om_2022 w1
          = (Ok "./manuals/Toyota.RAV4.XA50.2022.OM42B02E.pdf", w1)
       /\ length (sent w1) = 1%nat.
Proof.
  split; [reflexivity |].
  eexists. split; [reflexivity |].
  destruct (download_pdf_idempotent pdf_server "https://cdn.example/OM42B02E.pdf"
              rav4_2021 om_2022 empty_world _ eq_refl) as [_ H].
  destruct (H _ _ eq_refl) as (_ & Hagain & Hsent).
  split; [exact Hagain |].
  rewrite Hsent; reflexivity.
Defined.

(** A stream that breaks off leaves its file behind, and the next call
    takes that file for a finished download. *)
Lemma download_pdf_trusts_a_broken_file
  (server : nat -> request -> result response) (url : string) (prod pub : dict)
  (w w1 : world) (path : string) (r : response) :
  target_path prod pub = Ok path ->
  files w !! path = None ->
  server (length (sent w)) {| req_url := url; req_params := [] |} = Ok r ->
  raise_for_status r = Ok tt ->
  complete r = false ->
  download_pdf server url prod pub w = (Raise TransportError, w1) ->
  download_pdf server url prod pub w1 = (Ok path, w1).
Proof.
  intros Hpath Hnone Hr Hstatus Hbroken Hcall.
  apply download_pdf_existing; [exact Hpath |].
  unfold download_pdf in Hcall. rewrite Hpath in Hcall.
  destruct (decide (is_Some (files w !! path))) as [Hyes | _].
  - rewrite Hnone in Hyes. destruct Hyes; discriminate.
  - unfold send in Hcall. rewrite Hr, Hstatus, Hbroken in Hcall.
    inversion Hcall; subst. apply write_file_exists.
Qed.

(** ** Equality of hashable values *)

Ltac bool_to_prop :=
  repeat match goal with
    | H : Bool.eqb _ _ = true |- _ => apply Bool.eqb_prop in H
    | H : (_ =? _)%Z = true |- _ => apply Z.eqb_eq in H
    | H : String.eqb _ _ = true |- _ => apply String.eqb_eq in H
    end.

Lemma py_eq_refl (v : value) : hashable v = true -> py_eq v v = true.
Proof.
  destruct v; simpl; intros H; try discriminate; try reflexivity.
  - apply Bool.eqb_reflx.
  - apply Z.eqb_refl.
  - apply String.eqb_refl.
Qed.

Lemma py_eq_sym (a b : value) :
  hashable a = true -> py_eq a b = true -> py_eq b a = true.
Proof.
  destruct a, b; simpl; intros Ha H; try discriminate; try reflexivity;
    bool_to_prop; subst.
  - apply Bool.eqb_reflx.
  - apply Z.eqb_refl.
  - apply Z.eqb_refl.
  - apply Z.eqb_refl.
  - apply String.eqb_refl.
Qed.

Lemma py_eq_trans (a b c : value) :
  hashable b = true -> py_eq a b = true -> py_eq b c = true -> py_eq a c = true.
Proof.
  destruct a, b, c; simpl; intros Hb H1 H2; try discriminate; try reflexivity;
    bool_to_prop; subst;
    first [ apply Bool.eqb_reflx | apply Z.eqb_refl | apply String.eqb_refl
          | (repeat match goal with b : bool |- _ => destruct b end;
             simpl in *; first [reflexivity | discriminate | lia]) ].
Qed.

Lemma py_eq_hashable_l (a b : value) :
  hashable b = true -> py_eq a b = true -> hashable a = true.
Proof. destruct a, b; simpl; intros Hb H; try discriminate; reflexivity. Qed.

(** Equal keys select the same records. *)
Lemma py_eq_rewrite_l (a b c : value) :
  hashable a = true -> hashable b = true -> py_eq a b = true ->
  py_eq a c = py_eq b c.
Proof.
  intros Ha Hb Hab.
  destruct (py_eq a c) eqn:Hac, (py_eq b c) eqn:Hbc; try reflexivity.
  - rewrite <- Hbc. symmetry.
    apply (py_eq_trans b a c Ha); [apply py_eq_sym; assumption | exact Hac].
  - rewrite <- Hac. apply (py_eq_trans a b c Hb); assumption.
Qed.

(** ** Lists *)

Lemma pairwise_app {A : Type} (R : A -> A -> Prop) (l1 l2 : list A) :
  pairwise R (l1 ++ l2)
  <-> pairwise R l1 /\ pairwise R l2 /\ (forall a b, In a l1 -> In b l2 -> R a b).
Proof.
  induction l1 as [| x l1 IH]; simpl.
  - split; [intros H; repeat split; [exact H | intros a b []] | intros (_ & H & _); exact H].
  - rewrite Forall_app, IH. split.
    + intros ((Hx1 & Hx2) & H1 & H2 & H12). repeat split; try assumption.
      intros a b [<- | Ha] Hb.
      * rewrite Forall_forall in Hx2. apply Hx2. apply list_elem_of_In. exact Hb.
      * apply H12; assumption.
    + intros ((Hx1 & H1) & H2 & H12). repeat split; try assumption.
      * apply Forall_forall. intros b Hb. apply H12; [left; reflexivity |].
        apply list_elem_of_In. exact Hb.
      * intros a b Ha Hb. apply H12; [right |]; assumption.
Qed.

Lemma last_with_snoc (k : value) (found : list dict) (x : dict) :
  last_with k (found ++ [x])
  = if filed_under k x then Some x else last_with k found.
Proof.
  induction found as [| y found IH]; simpl.
  - destruct (filed_under k x); reflexivity.
  - rewrite IH. destruct (filed_under k x); [reflexivity |].
    destruct (last_with k found); reflexivity.
Qed.

Lemma last_with_some (k : value) (found : list dict) (x : dict) :
  last_with k found = Some x ->
  In x found /\ truthy (part_number x) = true /\ py_eq k (part_number x) = true.
Proof.
  induction found as [| y found IH]; simpl; [discriminate |].
  destruct (last_with k found) as [z |].
  - intros H; inversion H; subst. destruct (IH eq_refl) as (Hin & Ht & He).
    repeat split; [right |..]; assumption.
  - destruct (filed_under k y) eqn:Hf; [| discriminate].
    intros H; inversion H; subst.
    apply andb_true_iff in Hf as [Ht He]. repeat split; [left; reflexivity |..]; assumption.
Qed.

(** The last record filed under a key, said with positions: nothing
    behind it is filed under that key. *)
Lemma last_with_app (k : value) (before after : list dict) (x : dict) :
  filed_under k x = true ->
  Forall (fun y => filed_under k y = false) after ->
  last_with k (before ++ x :: after) = Some x.
Proof.
  intros Hx Hafter.
  assert (last_with k after = None) as Hnone.
  { induction Hafter as [| y after Hy _ IH]; [reflexivity |].
    simpl. rewrite IH, Hy. reflexivity. }
  induction before as [| b before IH]; simpl.
  - rewrite Hnone, Hx. reflexivity.
  - rewrite IH. reflexivity.
Qed.

Lemma last_with_key (k k' : value) (found : list dict) :
  hashable k = true -> hashable k' = true -> py_eq k k' = true ->
  last_with k found = last_with k' found.
Proof.
  intros Hk Hk' Heq.
  induction found as [| x found IH]; [reflexivity |].
  simpl. rewrite IH. unfold filed_under.
  rewrite (py_eq_rewrite_l k k' (part_number x) Hk Hk' Heq). reflexivity.
Qed.

(** ** The page parser *)

Section Uniq.

Variables (pn : value) (x : dict).
Hypothesis pn_hashable : hashable pn = true.

Lemma uniq_set_keys_forall (Q : value -> Prop) (uniq : list (value * dict)) :
  Forall Q (map fst uniq) -> Q pn -> Forall Q (map fst (uniq_set uniq pn x)).
Proof.
  induction uniq as [| [k old] uniq IH]; simpl; intros Hall Hpn.
  - constructor; [exact Hpn | constructor].
  - inversion Hall; subst.
    destruct (py_eq k pn); simpl; constructor; auto.
Qed.

Lemma uniq_set_keeps_keys (k : value) (uniq : list (value * dict)) :
  In k (map fst uniq) -> In k (map fst (uniq_set uniq pn x)).
Proof.
  induction uniq as [| [k' old] uniq IH]; simpl; [intros [] |].
  intros [<- | Hin]; destruct (py_eq k' pn); simpl; auto.
Qed.

Lemma uniq_set_files (uniq : list (value * dict)) :
  exists k, In (k, x) (uniq_set uniq pn x) /\ py_eq k pn = true.
Proof.
  induction uniq as [| [k old] uniq IH]; simpl.
  - exists pn. split; [left; reflexivity | apply py_eq_refl, pn_hashable].
  - destruct (py_eq k pn) eqn:He.
    + exists k. split; [left; reflexivity | exact He].
    + destruct IH as (k' & Hin & He'). exists k'. split; [right |]; assumption.
Qed.

Lemma uniq_set_distinct (uniq : list (value * dict)) :
  Forall (fun k => hashable k = true) (map fst uniq) ->
  pairwise differ (map fst uniq) ->
  pairwise differ (map fst (uniq_set uniq pn x)).
Proof.
  induction uniq as [| [k old] uniq IH]; simpl; intros Hh Hd.
  - split; [constructor | exact I].
  - inversion Hh; subst. destruct Hd as [Hk Hd].
    destruct (py_eq k pn) eqn:He; simpl; [split; assumption |].
    split; [| apply IH; assumption].
    apply uniq_set_keys_forall; [exact Hk | exact He].
Qed.

Lemma uniq_set_entries (uniq : list (value * dict)) (e : value * dict) :
  Forall (fun k => hashable k = true) (map fst uniq) ->
  pairwise differ (map fst uniq) ->
  In e (uniq_set uniq pn x) ->
  (py_eq (fst e) pn = true /\ snd e = x)
  \/ (In e uniq /\ py_eq (fst e) pn = false).
Proof.
  induction uniq as [| [k old] uniq IH]; simpl; intros Hh Hd Hin.
  - destruct Hin as [<- | []]. left. split; [apply py_eq_refl, pn_hashable | reflexivity].
  - inversion Hh as [| ? ? Hk Hh']; subst. destruct Hd as [Hkd Hd].
    destruct (py_eq k pn) eqn:He; simpl in Hin.
    + destruct Hin as [<- | Hin]; [left; split; [exact He | reflexivity] |].
      right. split; [right; exact Hin |].
      rewrite Forall_forall in Hkd.
      assert (differ k (fst e)) as Hdiff.
      { apply Hkd. apply list_elem_of_In. apply in_map. exact Hin. }
      unfold differ in Hdiff.
      destruct (py_eq (fst e) pn) eqn:He'; [| reflexivity].
      rewrite <- Hdiff. symmetry.
      apply (py_eq_trans k pn (fst e) pn_hashable He).
      apply py_eq_sym; [| exact He'].
      apply (py_eq_hashable_l _ pn pn_hashable He').
    + destruct Hin as [<- | Hin]; [right; split; [left; reflexivity | exact He] |].
      destruct (IH Hh' Hd Hin) as [Hl | [Hr1 Hr2]]; [left; exact Hl |].
      right. split; [right |]; assumption.
Qed.

End Uniq.

Lemma uniq_inv_keys (seen : list dict) (uniq : list (value * dict)) :
  uniq_inv seen uniq -> Forall (fun k => hashable k = true) (map fst uniq).
Proof.
  intros [Hall _]. induction Hall as [| e uniq [He _] _ IH]; simpl; constructor; auto.
Qed.

Lemma uniq_inv_skip (seen : list dict) (uniq : list (value * dict)) (x : dict) :
  truthy (part_number x) = false ->
  uniq_inv seen uniq -> uniq_inv (seen ++ [x]) uniq.
Proof.
  intros Hfalsy (Hall & Hd & Hcov). split; [| split; [exact Hd |]].
  - eapply Forall_impl; [exact Hall |]. intros e [Hh Hl]. split; [exact Hh |].
    rewrite last_with_snoc. unfold filed_under. rewrite Hfalsy. exact Hl.
  - intros y Hy Hty.
    apply in_app_or in Hy as [Hin | [<- | []]]; [apply (Hcov y Hin Hty) | congruence].
Qed.

Lemma uniq_inv_file (seen : list dict) (uniq : list (value * dict)) (x : dict) :
  truthy (part_number x) = true ->
  hashable (part_number x) = true ->
  uniq_inv seen uniq ->
  uniq_inv (seen ++ [x]) (uniq_set uniq (part_number x) x).
Proof.
  intros Ht Hh Hinv. pose proof (uniq_inv_keys _ _ Hinv) as Hkeys.
  destruct Hinv as (Hall & Hd & Hcov). split; [| split].
  - apply Forall_forall. intros e He. apply list_elem_of_In in He.
    assert (hashable (fst e) = true) as Hhe.
    { assert (Forall (fun k => hashable k = true)
                (map fst (uniq_set uniq (part_number x) x))) as Hk'
        by (apply uniq_set_keys_forall; assumption).
      rewrite Forall_forall in Hk'. apply Hk'. apply list_elem_of_In.
      apply in_map. exact He. }
    split; [exact Hhe |].
    rewrite last_with_snoc. unfold filed_under. rewrite Ht. cbn [andb].
    destruct (uniq_set_entries _ x Hh uniq e Hkeys Hd He) as [[Heq Hsnd] | [Hin Hne]].
    + rewrite Heq, Hsnd. reflexivity.
    + rewrite Hne. rewrite Forall_forall in Hall.
      apply Hall. apply list_elem_of_In. exact Hin.
  - apply uniq_set_distinct; assumption.
  - intros y Hy Hty. apply in_app_or in Hy as [Hy | [<- | []]].
    + destruct (Hcov y Hy Hty) as (Hhy & k & Hk & Hke). split; [exact Hhy |].
      exists k. split; [apply uniq_set_keeps_keys; exact Hk | exact Hke].
    + split; [exact Hh |].
      destruct (uniq_set_files _ x Hh uniq) as (k & Hin & Hke).
      exists k. split; [| exact Hke].
      change k with (fst (k, x)). apply in_map. exact Hin.
Qed.

Lemma dedup_inv (found seen : list dict) (uniq uniq' : list (value * dict)) :
  dedup found uniq = Ok uniq' ->
  uniq_inv seen uniq -> uniq_inv (seen ++ found) uniq'.
Proof.
  revert seen uniq. induction found as [| x found IH]; intros seen uniq Hrun Hinv.
  - simpl in Hrun. inversion Hrun; subst. rewrite app_nil_r. exact Hinv.
  - simpl in Hrun. fold (part_number x) in Hrun.
    replace (seen ++ x :: found) with ((seen ++ [x]) ++ found)
      by (rewrite <- app_assoc; reflexivity).
    destruct (truthy (part_number x)) eqn:Ht.
    + destruct (hashable (part_number x)) eqn:Hh; [| discriminate].
      apply (IH _ _ Hrun). apply uniq_inv_file; assumption.
    + apply (IH _ _ Hrun). apply uniq_inv_skip; assumption.
Qed.

Lemma uniq_inv_nil : uniq_inv [] [].
Proof. split; [constructor | split; [exact I | intros y []]]. Qed.

(** The loop raises for an unhashable part number and for nothing
    else. *)
Lemma dedup_total (found : list dict) (uniq : list (value * dict)) :
  Forall (fun x => truthy (part_number x) = true ->
                   hashable (part_number x) = true) found ->
  exists uniq', dedup found uniq = Ok uniq'.
Proof.
  revert uniq. induction found as [| x found IH]; intros uniq Hall; simpl.
  - eexists; reflexivity.
  - inversion Hall as [| ? ? Hx Hrest]; subst. fold (part_number x).
    destruct (truthy (part_number x)); [rewrite Hx by reflexivity |]; apply IH, Hrest.
Qed.

Lemma visit_list_in (l : list value) (v : value) (r : dict) :
  In v l -> In r (visit v) -> In r (visit (VList l)).
Proof.
  induction l as [| a l IH]; simpl; [intros [] |].
  intros [-> | Hin] Hr; apply in_or_app; [left; exact Hr | right; apply IH; assumption].
Qed.

Lemma visit_dict_in (d : dict) (k : string) (v : value) (r : dict) :
  In (k, v) d -> In r (visit v) -> In r (visit (VDict d)).
Proof.
  intros Hin Hr. cbn [visit]. apply in_or_app. right.
  induction d as [| [k' a] d IH]; [destruct Hin |].
  destruct Hin as [Heq | Hin]; apply in_or_app.
  - inversion Heq; subst. left; exact Hr.
  - right. apply IH, Hin.
Qed.

Lemma visit_dict_self (d : dict) :
  has_key "partNumber" d = true -> In (publication_of d) (visit (VDict d)).
Proof.
  intros H. cbn [visit]. rewrite H. apply in_or_app. left. left. reflexivity.
Qed.

(** The walk reaches every node of the payload. *)
Lemma visit_inside (root node : value) (r : dict) :
  inside root node -> In r (visit node) -> In r (visit root).
Proof.
  induction 1 as [| l v _ IH Hin | d k v _ IH Hin]; intros Hr.
  - exact Hr.
  - apply IH. eapply visit_list_in; eassumption.
  - apply IH. eapply visit_dict_in; eassumption.
Qed.

Lemma part_number_publication_of (d : dict) :
  part_number (publication_of d) = get d "partNumber".
Proof. reflexivity. Qed.

Lemma collect_publications_inv (next_data : value) (pubs : list dict) :
  collect_publications next_data = Ok pubs ->
  exists uniq, pubs = map snd uniq /\ uniq_inv (visit next_data) uniq.
Proof.
  unfold collect_publications. intros H.
  destruct (dedup (visit next_data) []) as [uniq |] eqn:Hrun; [| discriminate].
  simpl in H. inversion H; subst. exists uniq. split; [reflexivity |].
  apply (dedup_inv _ [] [] uniq Hrun uniq_inv_nil).
Qed.

(** The parser returns whenever every part number it meets can be a
    dict key. *)
Lemma collect_publications_total (next_data : value) :
  Forall (fun x => truthy (part_number x) = true -> hashable (part_number x) = true)
    (visit next_data) ->
  exists pubs, collect_publications next_data = Ok pubs.
Proof.
  intros H. destruct (dedup_total _ [] H) as [uniq Hu].
  unfold collect_publications. rewrite Hu. eexists; reflexivity.
Qed.

Lemma uniq_inv_entry (seen : list dict) (uniq : list (value * dict)) (r : dict) :
  uniq_inv seen uniq -> In r (map snd uniq) ->
  exists k, In (k, r) uniq /\ hashable k = true /\ last_with k seen = Some r
            /\ hashable (part_number r) = true.
Proof.
  intros (Hall & _ & Hcov) Hin.
  apply in_map_iff in Hin as ([k r'] & Heq & Hin). simpl in Heq; subst r'.
  rewrite Forall_forall in Hall.
  destruct (Hall (k, r)) as [Hh Hl]; [apply list_elem_of_In; exact Hin |].
  simpl in Hh, Hl. exists k. repeat split; try assumption.
  destruct (last_with_some _ _ _ Hl) as (Hseen & Ht & _).
  apply (Hcov r Hseen Ht).
Qed.

Lemma uniq_inv_last (seen : list dict) (uniq : list (value * dict))
  (before after : list dict) (x : dict) :
  uniq_inv seen uniq ->
  seen = before ++ x :: after ->
  truthy (part_number x) = true ->
  Forall (fun y => py_eq (part_number y) (part_number x) = false) after ->
  exists k, In (k, x) uniq /\ hashable k = true /\ py_eq k (part_number x) = true.
Proof.
  intros Hinv Hsplit Ht Hafter. pose proof Hinv as (Hall & _ & Hcov).
  assert (In x seen) as Hx by (rewrite Hsplit; apply in_or_app; right; left; reflexivity).
  destruct (Hcov x Hx Ht) as (Hh & k & Hk & Hke).
  apply in_map_iff in Hk as ([k' x'] & Heq & Hin). simpl in Heq; subst k'.
  rewrite Forall_forall in Hall.
  destruct (Hall (k, x')) as [Hhk Hl]; [apply list_elem_of_In; exact Hin |].
  simpl in Hhk, Hl.
  assert (last_with (part_number x) seen = Some x) as Hlast.
  { rewrite Hsplit. apply last_with_app.
    - unfold filed_under. rewrite Ht, py_eq_refl by exact Hh. reflexivity.
    - eapply Forall_impl; [exact Hafter |]. intros y Hy. unfold filed_under.
      destruct (py_eq (part_number x) (part_number y)) eqn:Hxy;
        [| apply andb_false_r].
      apply (py_eq_sym _ _ Hh) in Hxy. congruence. }
  rewrite (last_with_key k (part_number x) seen Hhk Hh Hke) in Hl.
  assert (x' = x) as -> by congruence.
  exists k. repeat split; assumption.
Qed.

(** C6. In what the parser returns no two records have equal part
    numbers; the record walked last for a part number is returned; and
    of two walked records with equal part numbers and different titles,
    the later one being the last for that part number, the later one is
    returned and the earlier one is not. *)
Theorem collect_publications_last_wins (next_data : value) (pubs : list dict) :
  collect_publications next_data = Ok pubs ->
  pairwise (fun a b => py_eq (part_number a) (part_number b) = false) pubs
  /\ (forall before x after,
        visit next_data = before ++ x :: after ->
        truthy (part_number x) = true ->
        Forall (fun y => py_eq (part_number y) (part_number x) = false) after ->
        In x pubs)
  /\ (forall before e mid x after,
        visit next_data = before ++ e :: mid ++ x :: after ->
        truthy (part_number x) = true ->
        py_eq (part_number e) (part_number x) = true ->
        get e "title" <> get x "title" ->
        Forall (fun y => py_eq (part_number y) (part_number x) = false) after ->
        In x pubs /\ ~ In e pubs).
Proof.
  intros Hrun. destruct (collect_publications_inv _ _ Hrun) as (uniq & -> & Hinv).
  assert (forall before x after,
             visit next_data = before ++ x :: after ->
             truthy (part_number x) = true ->
             Forall (fun y => py_eq (part_number y) (part_number x) = false) after ->
             exists k, In (k, x) uniq /\ hashable k = true
                       /\ py_eq k (part_number x) = true) as Hlast.
  { intros before x after Hsplit Ht Hafter.
    eapply uniq_inv_last; eassumption. }
  split; [| split].
  - pose proof Hinv as (_ & Hd & _).
    assert (forall e, In e uniq ->
              hashable (fst e) = true /\ hashable (part_number (snd e)) = true
              /\ py_eq (fst e) (part_number (snd e)) = true) as Hentry.
    { intros [k r] He.
      destruct (uniq_inv_entry _ _ r Hinv) as (k' & _ & _ & _ & Hhr);
        [change r with (snd (k, r)); apply in_map; exact He |].
      destruct Hinv as (Hall & _). rewrite Forall_forall in Hall.
      destruct (Hall (k, r)) as [Hh Hl]; [apply list_elem_of_In; exact He |].
      destruct (last_with_some _ _ _ Hl) as (_ & _ & Heq).
      repeat split; assumption. }
    clear Hinv Hlast Hrun. induction uniq as [| e uniq IH]; simpl; [exact I |].
    destruct Hd as [He Hd]. split.
    + apply Forall_forall. intros r Hr. apply list_elem_of_In in Hr.
      apply in_map_iff in Hr as (e' & <- & Hin').
      destruct (Hentry e (or_introl eq_refl)) as (Hhe & Hhr & Heq).
      destruct (Hentry e' (or_intror Hin')) as (Hhe' & Hhr' & Heq').
      rewrite Forall_forall in He.
      assert (differ (fst e) (fst e')) as Hdiff
        by (apply He, list_elem_of_In, in_map, Hin').
      unfold differ in Hdiff.
      destruct (py_eq (part_number (snd e)) (part_number (snd e'))) eqn:Hrr;
        [| reflexivity].
      rewrite <- Hdiff. symmetry.
      apply (py_eq_trans _ (part_number (snd e')) _ Hhr');
        [apply (py_eq_trans _ (part_number (snd e)) _ Hhr); assumption |].
      apply py_eq_sym; assumption.
    + apply IH; [exact Hd |]. intros e' He'. apply Hentry. right; exact He'.
  - intros before x after Hsplit Ht Hafter.
    destruct (Hlast before x after Hsplit Ht Hafter) as (k & Hin & _).
    change x with (snd (k, x)). apply in_map. exact Hin.
  - intros before e mid x after Hsplit Ht Heq Htitle Hafter.
    assert (visit next_data = (before ++ e :: mid) ++ x :: after) as Hsplit'
      by (rewrite Hsplit, <- app_assoc; reflexivity).
    destruct (Hlast _ x after Hsplit' Ht Hafter) as (k & Hin & Hhk & Hke).
    split; [change x with (snd (k, x)); apply in_map; exact Hin |].
    intros He.
    destruct (uniq_inv_entry _ _ e Hinv He) as (k' & Hin' & Hhk' & Hl' & Hhe).
    destruct (uniq_inv_entry _ _ x Hinv) as (k'' & _ & _ & _ & Hhx);
      [change x with (snd (k, x)); apply in_map; exact Hin |].
    destruct Hinv as (Hall & _). rewrite Forall_forall in Hall.
    destruct (Hall (k, x)) as [_ Hl]; [apply list_elem_of_In; exact Hin |].
    simpl in Hl.
    destruct (last_with_some _ _ _ Hl') as (_ & _ & Hke').
    assert (py_eq k' k = true) as Hkk.
    { apply (py_eq_trans _ (part_number x) _ Hhx); [| apply py_eq_sym; assumption].
      apply (py_eq_trans _ (part_number e) _ Hhe); assumption. }
    rewrite (last_with_key k' k _ Hhk' Hhk Hkk) in Hl'.
    apply Htitle. congruence.
Qed.

Lemma collect_publications_last_wins_witness :
  collect_publications sample_payload
  = Ok [[("partNumber", VStr "OM42A01E"); ("publicationType", VNone);
         ("language", VNone); ("title", VStr "Second");
         ("lineOffDate", VStr ""); ("modelType", VStr "");
         ("ngtdModelId", VStr ""); ("year", VNone)]]
  /\ pairwise (fun a b => py_eq (part_number a) (part_number b) = false)
       [[("partNumber", VStr "OM42A01E"); ("publicationType", VNone);
         ("language", VNone); ("title", VStr "Second");
         ("lineOffDate", VStr ""); ("modelType", VStr "");
         ("ngtdModelId", VStr ""); ("year", VNone)]].
Proof.
  split; [reflexivity |].
  apply (collect_publications_last_wins sample_payload _ eq_refl).
Defined.

(** C10. Every record the parser returns has a true part number. A dict
    of the payload that has the key [partNumber] is extracted by the
    walk whatever the key holds, and when it holds a false value ([None],
    the empty text, zero, ...) its record is not among the returned
    ones. *)
Theorem collect_publications_truthy_part_numbers (next_data : value) (pubs : list dict) :
  collect_publications next_data = Ok pubs ->
  Forall (fun r => truthy (part_number r) = true) pubs
  /\ (forall d,
        inside next_data (VDict d) ->
        has_key "partNumber" d = true ->
        In (publication_of d) (visit next_data)
        /\ (truthy (get d "partNumber") = false -> ~ In (publication_of d) pubs)).
Proof.
  intros Hrun. destruct (collect_publications_inv _ _ Hrun) as (uniq & -> & Hinv).
  assert (Forall (fun r => truthy (part_number r) = true) (map snd uniq)) as Hall.
  { apply Forall_forall. intros r Hr. apply list_elem_of_In in Hr.
    destruct (uniq_inv_entry _ _ r Hinv Hr) as (k & _ & _ & Hl & _).
    apply (last_with_some _ _ _ Hl). }
  split; [exact Hall |].
  intros d Hinside Hkey. split.
  - eapply visit_inside; [exact Hinside | apply visit_dict_self, Hkey].
  - intros Hfalsy Hin. rewrite Forall_forall in Hall.
    apply list_elem_of_In, Hall in Hin.
    rewrite part_number_publication_of in Hin. congruence.
Qed.

Lemma collect_publications_truthy_part_numbers_witness :
  exists pubs,
    collect_publications sample_payload = Ok pubs
    /\ Forall (fun r => truthy (part_number r) = true) pubs.
Proof.
  eexists. split; [reflexivity |].
  apply (collect_publications_truthy_part_numbers sample_payload _ eq_refl).
Defined.

(** ** The order of texts *)

Lemma ascii_compare_eq (a b : ascii) : Ascii.compare a b = Eq -> a = b.
Proof. apply Ascii.compare_eq_iff. Qed.

Lemma ascii_compare_refl (a : ascii) : Ascii.compare a a = Eq.
Proof. unfold Ascii.compare. apply N.compare_refl. Qed.

Lemma ascii_compare_lt_trans (a b c : ascii) :
  Ascii.compare a b = Lt -> Ascii.compare b c = Lt -> Ascii.compare a c = Lt.
Proof.
  unfold Ascii.compare. rewrite !N.compare_lt_iff. apply N.lt_trans.
Qed.

Lemma string_compare_refl (s : string) : String.compare s s = Eq.
Proof.
  induction s as [| c s IH]; [reflexivity |].
  simpl. rewrite ascii_compare_refl. exact IH.
Qed.

Lemma string_compare_lt_trans (a b c : string) :
  String.compare a b = Lt -> String.compare b c = Lt -> String.compare a c = Lt.
Proof.
  revert b c. induction a as [| x a IH]; intros [| y b] [| z c]; simpl;
    try discriminate; try reflexivity.
  destruct (Ascii.compare x y) eqn:Hxy; try discriminate;
    destruct (Ascii.compare y z) eqn:Hyz; try discriminate; intros H1 H2.
  - apply ascii_compare_eq in Hxy, Hyz. subst. rewrite ascii_compare_refl. eauto.
  - apply ascii_compare_eq in Hxy. subst. rewrite Hyz. reflexivity.
  - apply ascii_compare_eq in Hyz. subst. rewrite Hxy. reflexivity.
  - rewrite (ascii_compare_lt_trans _ _ _ Hxy Hyz). reflexivity.
Qed.

Lemma string_leb_refl (s : string) : String.leb s s = true.
Proof. unfold String.leb. rewrite string_compare_refl. reflexivity. Qed.

Lemma string_leb_trans (a b c : string) :
  String.leb a b = true -> String.leb b c = true -> String.leb a c = true.
Proof.
  unfold String.leb.
  destruct (String.compare a b) eqn:Hab; try discriminate;
    destruct (String.compare b c) eqn:Hbc; try discriminate; intros _ _.
  - apply String.compare_eq_iff in Hab, Hbc. subst. rewrite string_compare_refl.
    reflexivity.
  - apply String.compare_eq_iff in Hab. subst. rewrite Hbc. reflexivity.
  - apply String.compare_eq_iff in Hbc. subst. rewrite Hab. reflexivity.
  - rewrite (string_compare_lt_trans _ _ _ Hab Hbc). reflexivity.
Qed.

Lemma string_ltb_leb (a b : string) : String.ltb a b = true -> String.leb a b = true.
Proof.
  unfold String.ltb, String.leb. destruct (String.compare a b); congruence.
Qed.

Lemma string_ltb_false (a b : string) : String.ltb a b = false -> String.leb b a = true.
Proof.
  unfold String.ltb, String.leb. rewrite (String.compare_antisym a b).
  destruct (String.compare b a); simpl; congruence.
Qed.

(** ** The owner's-manual selector *)

Lemma lower_char_e (c : ascii) :
  lower_char c = "e"%char <-> c = "e"%char \/ c = "E"%char.
Proof.
  split.
  - destruct c as [[] [] [] [] [] [] [] []]; vm_compute; intros H;
      first [discriminate H | left; reflexivity | right; reflexivity].
  - intros [-> | ->]; reflexivity.
Qed.

Lemma lower_char_n (c : ascii) :
  lower_char c = "n"%char <-> c = "n"%char \/ c = "N"%char.
Proof.
  split.
  - destruct c as [[] [] [] [] [] [] [] []]; vm_compute; intros H;
      first [discriminate H | left; reflexivity | right; reflexivity].
  - intros [-> | ->]; reflexivity.
Qed.

Lemma startswith_en_lower (l : string) :
  startswith "en" (lower l) = true <-> starts_with_en l.
Proof.
  unfold starts_with_en. split.
  - destruct l as [| c1 [| c2 rest]]; try discriminate.
    + intros H. cbn [lower string_map] in H.
      apply startswith_cons in H as [_ H]. discriminate H.
    + intros H. cbn [lower string_map] in H.
      apply startswith_cons in H as [H1 H].
      apply startswith_cons in H as [H2 _].
      exists c1, c2, rest. split; [reflexivity |].
      split; [apply lower_char_e | apply lower_char_n]; congruence.
  - intros (c1 & c2 & rest & -> & H1 & H2).
    apply lower_char_e in H1. apply lower_char_n in H2.
    cbn [lower string_map]. rewrite H1, H2.
    apply startswith_cons; split; [reflexivity |].
    apply startswith_cons; split; [reflexivity | apply startswith_empty].
Qed.

(** The filter of the selector, in words: the publication type is the
    text [OM] and the language is a text starting with [en] in any
    letter case. *)
Lemma is_en_om_iff (p : dict) :
  is_en_om p = true
  <-> get p "publicationType" = VStr "OM"
      /\ exists l, get p "language" = VStr l /\ starts_with_en l.
Proof.
  unfold is_en_om. rewrite andb_true_iff. split.
  - intros [Htype Hlang]. split.
    + destruct (get p "publicationType"); simpl in Htype; try discriminate.
      apply String.eqb_eq in Htype. congruence.
    + destruct (get p "language") as [| | | l | |]; try discriminate.
      exists l. split; [reflexivity | apply startswith_en_lower, Hlang].
  - intros [-> (l & -> & Hl)]. split; [reflexivity | apply startswith_en_lower, Hl].
Qed.

Lemma py_or_idem (v e : value) : py_or (py_or v e) e = py_or v e.
Proof.
  unfold py_or. destruct (truthy v) eqn:Hv; [rewrite Hv; reflexivity |].
  destruct (truthy e); reflexivity.
Qed.

Lemma date_key_text (p : dict) :
  date_is_text p = true -> date_key p = Ok (date_portion p).
Proof.
  unfold date_is_text, date_key, norm_date, date_portion. rewrite py_or_idem.
  destruct (py_or (get p "lineOffDate") (VStr "")); intros H; try discriminate.
  reflexivity.
Qed.

Lemma keyed_text (pubs : list dict) :
  Forall (fun p => date_is_text p = true) pubs ->
  keyed pubs = Ok (map (fun p => (date_portion p, p)) pubs).
Proof.
  induction 1 as [| p pubs Hp _ IH]; [reflexivity |].
  simpl. rewrite (date_key_text p Hp), IH. reflexivity.
Qed.

Lemma head_insert_keyed (x : string * dict) (l : list (string * dict)) :
  head (insert_keyed x l)
  = match head l with
    | Some y => if String.ltb (fst x) (fst y) then Some y else Some x
    | None => Some x
    end.
Proof.
  destruct l as [| y l]; [reflexivity |].
  simpl. destruct (String.ltb (fst x) (fst y)); reflexivity.
Qed.

(** The sorted list starts with an entry of greatest key. *)
Lemma head_sort_desc (l : list (string * dict)) :
  l <> [] ->
  exists best,
    head (sort_desc l) = Some best
    /\ In best l
    /\ forall e, In e l -> String.leb (fst e) (fst best) = true.
Proof.
  induction l as [| x l IH]; [congruence |]. intros _.
  cbn [sort_desc fold_right]. fold (sort_desc l). rewrite head_insert_keyed.
  destruct l as [| y l'].
  - exists x. split; [reflexivity |]. split; [left; reflexivity |].
    intros e [<- | []]. apply string_leb_refl.
  - destruct IH as (best & Hhead & Hin & Hmax); [discriminate |].
    rewrite Hhead. destruct (String.ltb (fst x) (fst best)) eqn:Hlt.
    + exists best. split; [reflexivity |]. split; [right; exact Hin |].
      intros e [<- | He]; [apply string_ltb_leb, Hlt | apply Hmax, He].
    + exists x. split; [reflexivity |]. split; [left; reflexivity |].
      intros e [<- | He]; [apply string_leb_refl |].
      eapply string_leb_trans; [apply Hmax, He | apply string_ltb_false, Hlt].
Qed.

(** C5. The selector keeps the publications whose type is the text [OM]
    and whose language is a text starting with [en] in any letter case.
    For publications whose line-off date is a text or absent: when none
    is kept the result is [None]; otherwise the result is a kept
    publication whose date portion, the text before ["T"], is greatest
    among the kept ones in the order of texts. *)
Theorem pick_latest_en_om_newest (pubs : list dict) :
  Forall (fun p => is_en_om p = true -> date_is_text p = true) pubs ->
  (forall p, is_en_om p = true
     <-> get p "publicationType" = VStr "OM"
         /\ exists l, get p "language" = VStr l /\ starts_with_en l)
  /\ ((forall p, In p pubs -> is_en_om p = false) ->
        pick_latest_en_om pubs = Ok None)
  /\ ((exists p, In p pubs /\ is_en_om p = true) ->
        exists best,
          pick_latest_en_om pubs = Ok (Some best)
          /\ In best pubs /\ is_en_om best = true
          /\ forall p, In p pubs -> is_en_om p = true ->
               String.leb (date_portion p) (date_portion best) = true).
Proof.
  intros Htext. split; [exact is_en_om_iff |].
  unfold pick_latest_en_om.
  assert (Forall (fun p => date_is_text p = true) (List.filter is_en_om pubs)) as Hkeys.
  { apply Forall_forall. intros p Hp. apply list_elem_of_In, filter_In in Hp as [Hin Hom].
    rewrite Forall_forall in Htext. apply Htext; [apply list_elem_of_In, Hin | exact Hom]. }
  split.
  - intros Hnone.
    destruct (List.filter is_en_om pubs) as [| p oms] eqn:Hf; [reflexivity |].
    assert (In p (List.filter is_en_om pubs)) as Hp by (rewrite Hf; left; reflexivity).
    apply filter_In in Hp as [Hin Hom]. rewrite (Hnone p Hin) in Hom. discriminate.
  - intros (q & Hq & Hqom).
    assert (In q (List.filter is_en_om pubs)) as Hqf by (apply filter_In; auto).
    rewrite (keyed_text _ Hkeys).
    destruct (head_sort_desc (map (fun p => (date_portion p, p)) (List.filter is_en_om pubs)))
      as (best & Hhead & Hin & Hmax).
    { destruct (List.filter is_en_om pubs); [destruct Hqf | discriminate]. }
    apply in_map_iff in Hin as (b & <- & Hb). apply filter_In in Hb as [Hb Hbom].
    exists b. split; [| split; [exact Hb | split; [exact Hbom |]]].
    + destruct (List.filter is_en_om pubs) as [| p oms]; [destruct Hqf |].
      cbn [bind]. f_equal.
      destruct (sort_desc _) as [| e rest]; simpl in Hhead |- *; [discriminate |].
      inversion Hhead; subst. reflexivity.
    + intros p Hp Hpom.
      apply (Hmax (date_portion p, p)). apply in_map_iff. exists p.
      split; [reflexivity | apply filter_In; auto].
Qed.

Lemma pick_latest_en_om_newest_witness :
  pick_latest_en_om sample_publications = Ok (Some om_2022)
  /\ exists best,
       pick_latest_en_om sample_publications = Ok (Some best)
       /\ In best sample_publications /\ is_en_om best = true
       /\ forall p, In p sample_publications -> is_en_om p = true ->
            String.leb (date_portion p) (date_portion best) = true.
Proof.
  split; [reflexivity |].
  apply (pick_latest_en_om_newest sample_publications).
  - repeat constructor.
  - exists om_2022. split; [right; right; left; reflexivity | reflexivity].
Defined.

(** ** The year-range resolver *)

Lemma year_number_numeric (p : dict) (y : Z) :
  year_number p = Some y ->
  numeric_year (get p "year") = true /\ int_of (get p "year") = Ok y.
Proof.
  unfold year_number. destruct (numeric_year (get p "year")); [| discriminate].
  destruct (int_of (get p "year")); [| discriminate].
  intros H; inversion H; subst. split; reflexivity.
Qed.

Lemma year_ok_number (p : dict) :
  year_ok p = true ->
  numeric_year (get p "year") = true ->
  exists y, year_number p = Some y /\ int_of (get p "year") = Ok y.
Proof.
  unfold year_ok, year_number. intros Hok Hnum. rewrite Hnum in *.
  destruct (int_of (get p "year")) as [y |]; [| discriminate].
  exists y. split; reflexivity.
Qed.

(** The loop collects the year numbers of the products that share the
    key. *)
Lemma sibling_years_spec (prod : dict) (all_products : list dict) :
  Forall (fun p => year_ok p = true) all_products ->
  exists raw,
    sibling_years (identity_key prod) all_products = Ok raw
    /\ forall y, In y raw
         <-> exists p, In p all_products /\ shares_key prod p = true
                       /\ year_number p = Some y.
Proof.
  induction 1 as [| p rest Hp _ (raw & Hraw & Hspec)].
  - exists []. split; [reflexivity |]. intros y. split; [intros [] | intros (p & [] & _)].
  - cbn [sibling_years]. fold (shares_key prod p).
    destruct (shares_key prod p) eqn:Hshare; cbn [andb].
    + destruct (numeric_year (get p "year")) eqn:Hnum.
      * destruct (year_ok_number p Hp Hnum) as (n & Hn & Hint).
        rewrite Hint, Hraw. cbn [bind]. exists (n :: raw). split; [reflexivity |].
        intros y. split.
        -- intros [<- | Hy]; [exists p; auto using in_eq |].
           apply Hspec in Hy as (q & Hq & Hs & Hyq). exists q. auto using in_cons.
        -- intros (q & [<- | Hq] & Hs & Hyq); [left; congruence |].
           right. apply Hspec. exists q. auto.
      * exists raw. split; [exact Hraw |]. intros y. rewrite Hspec. split.
        -- intros (q & Hq & Hs & Hyq). exists q. auto using in_cons.
        -- intros (q & [<- | Hq] & Hs & Hyq); [| exists q; auto].
           apply year_number_numeric in Hyq as [Hnum' _]. congruence.
    + exists raw. split; [exact Hraw |]. intros y. rewrite Hspec. split.
      * intros (q & Hq & Hs & Hyq). exists q. auto using in_cons.
      * intros (q & [<- | Hq] & Hs & Hyq); [congruence | exists q; auto].
Qed.

Lemma insert_desc_in (y z : Z) (l : list Z) :
  In z (insert_desc y l) <-> z = y \/ In z l.
Proof.
  induction l as [| x l IH]; simpl; [intuition |].
  destruct (Z.ltb_spec x y); simpl; [intuition |].
  destruct (Z.eqb_spec x y); simpl; [subst; intuition |].
  rewrite IH. intuition.
Qed.

Lemma insert_desc_sorted (y : Z) (l : list Z) :
  pairwise Z.gt l -> pairwise Z.gt (insert_desc y l).
Proof.
  induction l as [| x l IH]; simpl; [intros _; split; [constructor | exact I] |].
  intros [Hx Hl].
  destruct (Z.ltb_spec x y); simpl.
  - split; [| split; assumption]. constructor; [lia |].
    eapply Forall_impl; [exact Hx |]. intros z Hz. lia.
  - destruct (Z.eqb_spec x y); simpl; [split; assumption |].
    split; [| apply IH, Hl].
    apply Forall_forall. intros z Hz. apply list_elem_of_In, insert_desc_in in Hz.
    destruct Hz as [-> | Hz]; [lia |].
    rewrite Forall_forall in Hx. apply Hx, list_elem_of_In, Hz.
Qed.

Lemma sorted_set_desc_in (years : list Z) (z : Z) :
  In z (sorted_set_desc years) <-> In z years.
Proof.
  induction years as [| y years IH]; simpl; [reflexivity |].
  rewrite insert_desc_in, IH. intuition.
Qed.

Lemma sorted_set_desc_sorted (years : list Z) : pairwise Z.gt (sorted_set_desc years).
Proof.
  induction years as [| y years IH]; simpl; [exact I |].
  apply insert_desc_sorted, IH.
Qed.

(** The first [n] of a descending list are the [n] greatest. *)
Lemma firstn_greatest (n : nat) (l : list Z) :
  pairwise Z.gt l ->
  pairwise Z.gt (firstn n l)
  /\ (length (firstn n l) <= n)%nat
  /\ (forall z, In z (firstn n l) -> In z l)
  /\ (forall z, In z l ->
        In z (firstn n l)
        \/ (length (firstn n l) = n /\ Forall (fun w => z < w) (firstn n l))).
Proof.
  intros Hsorted.
  rewrite <- (firstn_skipn n l) in Hsorted at 1.
  apply pairwise_app in Hsorted as (Hfirst & _ & Hcross).
  split; [exact Hfirst |]. split; [apply firstn_le_length |].
  split.
  - intros z Hz. rewrite <- (firstn_skipn n l). apply in_or_app. left; exact Hz.
  - intros z Hz. rewrite <- (firstn_skipn n l) in Hz.
    apply in_app_or in Hz as [Hz | Hz]; [left; exact Hz | right].
    split.
    + apply firstn_length_le.
      destruct (Nat.le_gt_cases n (length l)) as [Hle | Hgt]; [exact Hle |].
      rewrite skipn_all2 in Hz by lia. destruct Hz.
    + apply Forall_forall. intros w Hw. apply list_elem_of_In in Hw.
      specialize (Hcross w z Hw Hz). lia.
Qed.

Lemma year_from_prod_spec (prod : dict) :
  year_ok prod = true ->
  year_from_prod prod
  = Ok (map str_int match year_number prod with Some y => [y] | None => [] end).
Proof.
  unfold year_ok, year_from_prod, year_number.
  destruct (numeric_year (get prod "year")); [| reflexivity].
  destruct (int_of (get prod "year")); [reflexivity | discriminate].
Qed.

(** For products whose numeric years all convert, the resolver returns:
    the decimal texts of a list of numbers that is strictly descending
    (so without duplicates) and has at most 12 entries. When some product
    of the full list shares the chosen product's identity key and has a
    numeric year, these numbers are years of such products, and every
    year of such a product is among them or is smaller than each of the
    12 returned. When no product of the full list does, the list is the
    chosen product's own year if that is numeric, and empty if not. *)
Theorem pick_years_for_product_spec (prod : dict) (all_products : list dict) :
  year_ok prod = true ->
  Forall (fun p => year_ok p = true) all_products ->
  exists years,
    pick_years_for_product prod all_products = Ok (map str_int years)
    /\ pairwise Z.gt years
    /\ (length years <= 12)%nat
    /\ ((exists p y, In p all_products /\ shares_key prod p = true
                     /\ year_number p = Some y) ->
         (forall y, In y years ->
            exists p, In p all_products /\ shares_key prod p = true
                      /\ year_number p = Some y)
         /\ (forall p y, In p all_products -> shares_key prod p = true ->
               year_number p = Some y ->
               In y years
               \/ (length years = 12%nat /\ Forall (fun w => y < w) years)))
    /\ ((forall p, In p all_products -> shares_key prod p = true ->
           year_number p = None) ->
         years = match year_number prod with Some y => [y] | None => [] end).
Proof.
  intros Hprod Hall.
  destruct (sibling_years_spec prod all_products Hall) as (raw & Hraw & Hspec).
  destruct (firstn_greatest 12 (sorted_set_desc raw) (sorted_set_desc_sorted raw))
    as (Hsorted & Hlen & Hsub & Hsup).
  unfold pick_years_for_product, years_for_same_product. cbn [USE_SIBLING_YEARS].
  rewrite Hraw. cbn [bind].
  destruct (firstn 12 (sorted_set_desc raw)) as [| y0 ys] eqn:Hfirst.
  - (* no sibling year: the product's own year *)
    cbn [map]. rewrite (year_from_prod_spec prod Hprod).
    exists (match year_number prod with Some y => [y] | None => [] end).
    split; [reflexivity |].
    split; [destruct (year_number prod); simpl; repeat constructor |].
    split; [destruct (year_number prod); simpl; lia |].
    split; [| reflexivity].
    intros (p & y & Hp & Hs & Hy). exfalso.
    assert (In y (sorted_set_desc raw)) as Hin
      by (apply sorted_set_desc_in, Hspec; exists p; auto).
    destruct (Hsup y Hin) as [[] | [Hl _]]. discriminate Hl.
  - exists (y0 :: ys). split; [reflexivity |].
    split; [exact Hsorted |]. split; [exact Hlen |]. split.
    + intros _. split.
      * intros y Hy. apply Hspec, sorted_set_desc_in, Hsub, Hy.
      * intros p y Hp Hs Hy. apply Hsup, sorted_set_desc_in, Hspec.
        exists p. auto.
    + intros Hnone. exfalso.
      assert (In y0 raw) as Hin by (apply sorted_set_desc_in, Hsub; left; reflexivity).
      apply Hspec in Hin as (p & Hp & Hs & Hy). rewrite (Hnone p Hp Hs) in Hy.
      discriminate.
Qed.

Lemma pick_years_for_product_spec_witness :
  pick_years_for_product rav4_2023 sample_products = Ok ["2023"; "2021"; "2019"]
  /\ exists years,
       pick_years_for_product rav4_2023 sample_products = Ok (map str_int years)
       /\ pairwise Z.gt years /\ (length years <= 12)%nat.
Proof.
  split; [reflexivity |].
  destruct (pick_years_for_product_spec rav4_2023 sample_products eq_refl)
    as (years & Hrun & Hsorted & Hlen & _).
  - repeat constructor.
  - exists years. auto.
Defined.

(** C4. The resolver does not return for every product and every list.
    The year [superscript_two] passes the test
    [y is not None and str(y).isdigit()], and [int] raises [ValueError]
    on it. So with a product of the chosen identity that has this year
    in the full list, the resolver raises where the list of the years of
    these products is [2021]; and for a chosen product with this year and
    no product of its identity in the list, it raises where the year,
    being no number, gives the empty list. *)
Theorem pick_years_for_product_superscript_year :
  shares_key rav4_2021 rav4_superscript = true
  /\ numeric_year (get rav4_superscript "year") = true
  /\ int_of (get rav4_superscript "year") = Raise ValueError
  /\ year_number rav4_2021 = Some 2021
  /\ year_number rav4_superscript = None
  /\ pick_years_for_product rav4_2021 [rav4_2021; rav4_superscript] = Raise ValueError
  /\ pick_years_for_product rav4_superscript [] = Raise ValueError.
Proof. repeat split. Qed.

(** ** The order of ranks *)

Lemma rank_ltb_iff (a b : rank) : rank_ltb a b = true <-> rank_lt a b.
Proof.
  destruct a as [[[ya ma] da] na], b as [[[yb mb] db] nb].
  unfold rank_ltb, rank_lt, date_eqb, date_ltb; cbn [fst snd].
  destruct (Z.eqb_spec ya yb), (Z.eqb_spec ma mb), (Z.eqb_spec da db);
    cbn [andb orb];
    rewrite ?orb_true_iff, ?andb_true_iff, ?orb_false_r, ?Z.ltb_lt; lia.
Qed.

Lemma rank_ltb_false_iff (a b : rank) : rank_ltb a b = false <-> ~ rank_lt a b.
Proof.
  rewrite <- rank_ltb_iff. destruct (rank_ltb a b); split; congruence.
Qed.

Lemma rank_not_lt_refl (a : rank) : rank_ltb a a = false.
Proof.
  apply rank_ltb_false_iff. destruct a as [[[ya ma] da] na]. unfold rank_lt. lia.
Qed.

(** If [c] is not above [b] and [b] is not above [a], [c] is not above
    [a]. *)
Lemma rank_not_lt_trans (a b c : rank) :
  rank_ltb a b = false -> rank_ltb b c = false -> rank_ltb a c = false.
Proof.
  rewrite !rank_ltb_false_iff.
  destruct a as [[[ya ma] da] na], b as [[[yb mb] db] nb], c as [[[yc mc] dc] nc].
  unfold rank_lt. lia.
Qed.

Lemma rank_lt_not_gt (a b : rank) : rank_ltb a b = true -> rank_ltb b a = false.
Proof.
  rewrite rank_ltb_iff, rank_ltb_false_iff.
  destruct a as [[[ya ma] da] na], b as [[[yb mb] db] nb].
  unfold rank_lt. lia.
Qed.

(** ** Identity keys *)

Lemma key_eq_refl (k : key) : key_hashable k = true -> key_eq k k = true.
Proof.
  destruct k as [[[k1 k2] k3] k4]. unfold key_hashable, key_eq.
  rewrite !andb_true_iff. intros [[[H1 H2] H3] H4].
  repeat split; apply py_eq_refl; assumption.
Qed.

Lemma key_eq_sym (a b : key) :
  key_hashable a = true -> key_eq a b = true -> key_eq b a = true.
Proof.
  destruct a as [[[a1 a2] a3] a4], b as [[[b1 b2] b3] b4]. unfold key_hashable, key_eq.
  rewrite !andb_true_iff. intros [[[H1 H2] H3] H4] [[[E1 E2] E3] E4].
  repeat split; apply py_eq_sym; assumption.
Qed.

Lemma key_eq_trans (a b c : key) :
  key_hashable b = true -> key_eq a b = true -> key_eq b c = true -> key_eq a c = true.
Proof.
  destruct a as [[[a1 a2] a3] a4], b as [[[b1 b2] b3] b4], c as [[[c1 c2] c3] c4].
  unfold key_hashable, key_eq.
  rewrite !andb_true_iff. intros [[[H1 H2] H3] H4] [[[E1 E2] E3] E4] [[[F1 F2] F3] F4].
  repeat split;
    [apply (py_eq_trans a1 b1 c1) | apply (py_eq_trans a2 b2 c2)
    | apply (py_eq_trans a3 b3 c3) | apply (py_eq_trans a4 b4 c4)]; assumption.
Qed.

Lemma key_eq_hashable_l (a b : key) :
  key_hashable b = true -> key_eq a b = true -> key_hashable a = true.
Proof.
  destruct a as [[[a1 a2] a3] a4], b as [[[b1 b2] b3] b4]. unfold key_hashable, key_eq.
  rewrite !andb_true_iff. intros [[[H1 H2] H3] H4] [[[E1 E2] E3] E4].
  repeat split;
    [apply (py_eq_hashable_l a1 b1) | apply (py_eq_hashable_l a2 b2)
    | apply (py_eq_hashable_l a3 b3) | apply (py_eq_hashable_l a4 b4)]; assumption.
Qed.

Lemma key_eq_rewrite_l (a b c : key) :
  key_hashable a = true -> key_hashable b = true -> key_eq a b = true ->
  key_eq a c = key_eq b c.
Proof.
  intros Ha Hb Hab.
  destruct (key_eq a c) eqn:Hac, (key_eq b c) eqn:Hbc; try reflexivity.
  - rewrite <- Hbc. symmetry.
    apply (key_eq_trans b a c Ha); [apply key_eq_sym; assumption | exact Hac].
  - rewrite <- Hac. apply (key_eq_trans a b c Hb); assumption.
Qed.

Lemma key_eq_rewrite_r (a b c : key) :
  key_hashable a = true -> key_hashable b = true -> key_hashable c = true ->
  key_eq a b = true -> key_eq c a = key_eq c b.
Proof.
  intros Ha Hb Hc Hab.
  destruct (key_eq c a) eqn:Hca, (key_eq c b) eqn:Hcb; try reflexivity.
  - rewrite <- Hcb. symmetry. apply (key_eq_trans c a b Ha); assumption.
  - rewrite <- Hca. apply (key_eq_trans c b a Hb); [exact Hcb |].
    apply key_eq_sym; assumption.
Qed.

(** ** Merge: the groups *)

Section Groups.

Variables (k : key) (prod : dict).
Hypothesis k_hashable : key_hashable k = true.

Lemma groups_append_keys_forall (Q : key -> Prop) (groups : list (key * list dict)) :
  Forall Q (map fst groups) -> Q k ->
  Forall Q (map fst (groups_append groups k prod)).
Proof.
  induction groups as [| [k' items] groups IH]; simpl; intros Hall Hk.
  - constructor; [exact Hk | constructor].
  - inversion Hall; subst.
    destruct (key_eq k' k); simpl; constructor; auto.
Qed.

Lemma groups_append_keeps_keys (k' : key) (groups : list (key * list dict)) :
  In k' (map fst groups) -> In k' (map fst (groups_append groups k prod)).
Proof.
  induction groups as [| [k0 items] groups IH]; simpl; [intros [] |].
  intros [<- | Hin]; destruct (key_eq k0 k); simpl; auto.
Qed.

Lemma groups_append_files (groups : list (key * list dict)) :
  exists k', In k' (map fst (groups_append groups k prod)) /\ key_eq k' k = true.
Proof.
  induction groups as [| [k0 items] groups IH]; simpl.
  - exists k. split; [left; reflexivity | apply key_eq_refl, k_hashable].
  - destruct (key_eq k0 k) eqn:He.
    + exists k0. split; [left; reflexivity | exact He].
    + destruct IH as (k' & Hin & He'). exists k'. split; [right |]; assumption.
Qed.

Lemma groups_append_distinct (groups : list (key * list dict)) :
  pairwise key_differ (map fst groups) ->
  pairwise key_differ (map fst (groups_append groups k prod)).
Proof.
  induction groups as [| [k0 items] groups IH]; simpl; intros Hd.
  - split; [constructor | exact I].
  - destruct Hd as [Hk Hd].
    destruct (key_eq k0 k) eqn:He; simpl; [split; assumption |].
    split; [| apply IH; assumption].
    apply groups_append_keys_forall; [exact Hk | exact He].
Qed.

(** An entry after the update: the group of [k] with [prod] at its
    end, a new group of [prod] alone, or an entry left as it was. *)
Lemma groups_append_entries (groups : list (key * list dict)) (g : key * list dict) :
  Forall (fun k' => key_hashable k' = true) (map fst groups) ->
  pairwise key_differ (map fst groups) ->
  In g (groups_append groups k prod) ->
  (key_eq (fst g) k = true
   /\ ((exists items, In (fst g, items) groups /\ snd g = items ++ [prod])
       \/ (snd g = [prod]
           /\ Forall (fun k' => key_eq k' k = false) (map fst groups))))
  \/ (In g groups /\ key_eq (fst g) k = false).
Proof.
  induction groups as [| [k0 items0] groups IH]; simpl; intros Hh Hd Hin.
  - destruct Hin as [<- | []]. left. split; [apply key_eq_refl, k_hashable |].
    right. split; [reflexivity | constructor].
  - inversion Hh as [| ? ? Hk0 Hh']; subst. destruct Hd as [Hkd Hd].
    destruct (key_eq k0 k) eqn:He; simpl in Hin.
    + destruct Hin as [<- | Hin].
      * left. split; [exact He |]. left. exists items0.
        split; [left; reflexivity | reflexivity].
      * right. split; [right; exact Hin |].
        rewrite Forall_forall in Hkd.
        assert (key_differ k0 (fst g)) as Hdiff
          by (apply Hkd, list_elem_of_In, in_map, Hin).
        unfold key_differ in Hdiff.
        destruct (key_eq (fst g) k) eqn:He'; [| reflexivity].
        rewrite <- Hdiff. symmetry.
        apply (key_eq_trans k0 k (fst g) k_hashable He).
        apply key_eq_sym; [| exact He'].
        apply (key_eq_hashable_l _ k k_hashable He').
    + destruct Hin as [<- | Hin]; [right; split; [left; reflexivity | exact He] |].
      destruct (IH Hh' Hd Hin) as [[Hl [Hold | [Hnew Hall]]] | [Hr1 Hr2]].
      * left. split; [exact Hl |]. left. destruct Hold as (items & Hi & Hs).
        exists items. split; [right |]; assumption.
      * left. split; [exact Hl |]. right. split; [exact Hnew |].
        constructor; assumption.
      * right. split; [right |]; assumption.
Qed.

Lemma groups_append_new (groups : list (key * list dict)) :
  Forall (fun k' => key_eq k' k = false) (map fst groups) ->
  groups_append groups k prod = groups ++ [(k, [prod])].
Proof.
  induction groups as [| [k0 items] groups IH]; simpl; intros Hall; [reflexivity |].
  inversion Hall as [| ? ? Hk0 Hrest]; subst. rewrite Hk0, IH by exact Hrest.
  reflexivity.
Qed.

End Groups.

Lemma group_inv_keys (seen : list dict) (groups : list (key * list dict)) :
  group_inv seen groups -> Forall (fun k => key_hashable k = true) (map fst groups).
Proof.
  intros [Hall _]. induction Hall as [| g groups [Hg _] _ IH]; simpl; constructor; auto.
Qed.

Lemma filter_none {A : Type} (f : A -> bool) (l : list A) :
  (forall a, In a l -> f a = false) -> List.filter f l = [].
Proof.
  induction l as [| a l IH]; intros H; [reflexivity |].
  simpl. rewrite (H a (or_introl eq_refl)). apply IH. intros b Hb. apply H. right; exact Hb.
Qed.

Lemma group_inv_step (seen : list dict) (groups : list (key * list dict)) (prod : dict) :
  key_hashable (identity_key prod) = true ->
  group_inv seen groups ->
  group_inv (seen ++ [prod]) (groups_append groups (identity_key prod) prod).
Proof.
  intros Hh Hinv. pose proof (group_inv_keys _ _ Hinv) as Hkeys.
  destruct Hinv as (Hall & Hd & Hcov). split; [| split].
  - apply Forall_forall. intros g Hg. apply list_elem_of_In in Hg.
    assert (key_hashable (fst g) = true) as Hhg.
    { assert (Forall (fun k => key_hashable k = true)
                (map fst (groups_append groups (identity_key prod) prod))) as Hk'
        by (apply groups_append_keys_forall; assumption).
      rewrite Forall_forall in Hk'. apply Hk', list_elem_of_In, in_map, Hg. }
    split; [exact Hhg |].
    rewrite List.filter_app. cbn [List.filter].
    rewrite Forall_forall in Hall.
    destruct (groups_append_entries _ prod Hh groups g Hkeys Hd Hg)
      as [[Heq [(items & Hin & Hsnd) | [Hsnd Hnew]]] | [Hin Hne]].
    + destruct (Hall (fst g, items)) as (_ & Hitems & _);
        [apply list_elem_of_In; exact Hin |].
      cbn [fst snd] in Hitems. rewrite Heq, Hsnd, Hitems.
      split; [reflexivity |]. intros Habs. symmetry in Habs.
      exact (app_cons_not_nil _ _ _ Habs).
    + rewrite Heq, Hsnd. split; [| discriminate].
      rewrite filter_none; [reflexivity |].
      intros p Hp. destruct (Hcov p Hp) as (Hhp & k' & Hk' & Hke').
      destruct (key_eq (fst g) (identity_key p)) eqn:Hgp; [| reflexivity].
      exfalso. rewrite Forall_forall in Hnew, Hkeys.
      assert (key_eq k' (identity_key prod) = false) as Hfalse
        by (apply Hnew, list_elem_of_In, Hk').
      assert (key_eq k' (identity_key prod) = true) as Htrue.
      { apply (key_eq_trans _ (fst g) _ Hhg); [| exact Heq].
        apply (key_eq_trans _ (identity_key p) _ Hhp); [exact Hke' |].
        apply key_eq_sym; assumption. }
      congruence.
    + destruct (Hall g) as (_ & Hitems & Hne'); [apply list_elem_of_In; exact Hin |].
      rewrite Hne, app_nil_r. split; assumption.
  - apply groups_append_distinct; assumption.
  - intros p Hp. apply in_app_or in Hp as [Hp | [<- | []]].
    + destruct (Hcov p Hp) as (Hhp & k' & Hk' & Hke'). split; [exact Hhp |].
      exists k'. split; [apply groups_append_keeps_keys; exact Hk' | exact Hke'].
    + split; [exact Hh |]. apply groups_append_files, Hh.
Qed.

Lemma group_inv_nil : group_inv [] [].
Proof. split; [constructor | split; [exact I | intros p []]]. Qed.

Lemma group_products_inv (all_products seen : list dict)
  (groups groups' : list (key * list dict)) :
  group_products all_products groups = Ok groups' ->
  group_inv seen groups ->
  group_inv (seen ++ all_products) groups'
  /\ Forall (fun p => key_hashable (identity_key p) = true) all_products.
Proof.
  revert seen groups.
  induction all_products as [| prod rest IH]; intros seen groups Hrun Hinv.
  - simpl in Hrun. inversion Hrun; subst. rewrite app_nil_r. split; [exact Hinv | constructor].
  - cbn [group_products] in Hrun.
    destruct (key_hashable (identity_key prod)) eqn:Hh; [| discriminate].
    replace (seen ++ prod :: rest) with ((seen ++ [prod]) ++ rest)
      by (rewrite <- app_assoc; reflexivity).
    destruct (IH _ _ Hrun (group_inv_step _ _ _ Hh Hinv)) as [Hinv' Hall].
    split; [exact Hinv' | constructor; assumption].
Qed.

Lemma group_products_total (all_products : list dict) (groups : list (key * list dict)) :
  Forall (fun p => key_hashable (identity_key p) = true) all_products ->
  exists groups', group_products all_products groups = Ok groups'.
Proof.
  revert groups.
  induction all_products as [| prod rest IH]; intros groups Hall; cbn [group_products].
  - eexists; reflexivity.
  - inversion Hall as [| ? ? Hh Hrest]; subst. rewrite Hh. apply IH, Hrest.
Qed.

(** ** Merge: the best of a group *)

Lemma pairwise_in {A : Type} (R : A -> A -> Prop) (l : list A) (a b : A) :
  pairwise R l -> In a l -> In b l -> a = b \/ R a b \/ R b a.
Proof.
  induction l as [| x l IH]; simpl; [intros _ [] |].
  intros [Hx Hl] Ha Hb. rewrite Forall_forall in Hx.
  destruct Ha as [<- | Ha], Hb as [<- | Hb].
  - left; reflexivity.
  - right; left. apply Hx, list_elem_of_In, Hb.
  - right; right. apply Hx, list_elem_of_In, Ha.
  - apply IH; assumption.
Qed.

Lemma Forall2_with {A B : Type} (P : A -> Prop) (Q : A -> B -> Prop)
  (l1 : list A) (l2 : list B) :
  Forall P l1 -> Forall2 Q l1 l2 -> Forall2 (fun a b => P a /\ Q a b) l1 l2.
Proof.
  intros HP HQ. induction HQ as [| a b l1 l2 Hab _ IH]; [constructor |].
  inversion HP; subst. constructor; auto.
Qed.

Lemma Forall2_in_l {A B : Type} (Q : A -> B -> Prop) (l1 : list A) (l2 : list B) (a : A) :
  Forall2 Q l1 l2 -> In a l1 -> exists b, In b l2 /\ Q a b.
Proof.
  induction 1 as [| x y l1 l2 Hxy _ IH]; [intros [] |].
  intros [<- | Ha]; [exists y; split; [left; reflexivity | exact Hxy] |].
  destruct (IH Ha) as (b & Hb & Hq). exists b. split; [right |]; assumption.
Qed.

Lemma Forall2_in_r {A B : Type} (Q : A -> B -> Prop) (l1 : list A) (l2 : list B) (b : B) :
  Forall2 Q l1 l2 -> In b l2 -> exists a, In a l1 /\ Q a b.
Proof.
  induction 1 as [| x y l1 l2 Hxy _ IH]; [intros [] |].
  intros [<- | Hb]; [exists x; split; [left; reflexivity | exact Hxy] |].
  destruct (IH Hb) as (a & Ha & Hq). exists a. split; [right |]; assumption.
Qed.

Lemma pairwise_Forall2 {A B : Type} (R : A -> A -> Prop) (S : B -> B -> Prop)
  (T : A -> B -> Prop) (l1 : list A) (l2 : list B) :
  (forall a a' b b', T a b -> T a' b' -> R a a' -> S b b') ->
  Forall2 T l1 l2 -> pairwise R l1 -> pairwise S l2.
Proof.
  intros Hstep HT. induction HT as [| a b l1 l2 Hab HT IH]; simpl; [intros _; exact I |].
  intros [Ha Hl]. split; [| apply IH, Hl].
  apply Forall_forall. intros b' Hb'. apply list_elem_of_In in Hb'.
  destruct (Forall2_in_r _ _ _ _ HT Hb') as (a' & Ha' & Hab').
  rewrite Forall_forall in Ha.
  apply (Hstep a a' b b' Hab Hab'). apply Ha, list_elem_of_In, Ha'.
Qed.

Section MergeProperties.

Variable iso : string -> option date.

Lemma parse_iso_date_parsed (p : dict) :
  _parse_iso_date iso (get p "lineOffDate")
  = match parsed_date iso p with Some d => d | None => date_min end.
Proof.
  unfold _parse_iso_date, parsed_date.
  destruct (get p "lineOffDate") as [| b | z | s | l | d]; cbn [truthy negb];
    try reflexivity.
  - destruct b; reflexivity.
  - destruct (negb (z =? 0)); reflexivity.
  - destruct (nonempty s); reflexivity.
  - destruct l; reflexivity.
  - destruct d; reflexivity.
Qed.

(** The rank the code computes is the rank of the specification. *)
Lemma rank_for_merge_ok (p : dict) :
  year_ok p = true -> _rank_for_merge iso p = Ok (rank_of iso p).
Proof.
  unfold _rank_for_merge, rank_of, year_ok, year_number.
  rewrite parse_iso_date_parsed.
  destruct (numeric_year (get p "year")); [| reflexivity].
  destruct (int_of (get p "year")); [reflexivity | discriminate].
Qed.

Lemma rank_for_merge_inv (p : dict) (r : rank) :
  _rank_for_merge iso p = Ok r -> year_ok p = true.
Proof.
  unfold _rank_for_merge, year_ok.
  destruct (numeric_year (get p "year")); [| reflexivity].
  destruct (int_of (get p "year")); [reflexivity | discriminate].
Qed.

Lemma max_loop_spec (items : list dict) (best : dict) :
  Forall (fun p => year_ok p = true) items ->
  exists r,
    max_loop iso best (rank_of iso best) items = Ok r
    /\ (r = best \/ In r items)
    /\ rank_ltb (rank_of iso r) (rank_of iso best) = false
    /\ forall x, In x items -> rank_ltb (rank_of iso r) (rank_of iso x) = false.
Proof.
  intros Hall. revert best.
  induction Hall as [| x items Hx _ IH]; intros best.
  - exists best. split; [reflexivity |]. split; [left; reflexivity |].
    split; [apply rank_not_lt_refl | intros x []].
  - cbn [max_loop]. rewrite (rank_for_merge_ok x Hx). cbn [bind].
    destruct (rank_ltb (rank_of iso best) (rank_of iso x)) eqn:Hlt.
    + destruct (IH x) as (r & Hrun & Hin & Hrx & Hmax).
      exists r. split; [exact Hrun |].
      split; [right; destruct Hin as [-> | Hin]; [left; reflexivity | right; exact Hin] |].
      split.
      * apply (rank_not_lt_trans _ (rank_of iso x)); [exact Hrx |].
        apply rank_lt_not_gt, Hlt.
      * intros y [<- | Hy]; [exact Hrx | apply Hmax, Hy].
    + destruct (IH best) as (r & Hrun & Hin & Hrb & Hmax).
      exists r. split; [exact Hrun |].
      split; [destruct Hin as [-> | Hin]; [left; reflexivity | right; right; exact Hin] |].
      split; [exact Hrb |].
      intros y [<- | Hy]; [| apply Hmax, Hy].
      apply (rank_not_lt_trans _ (rank_of iso best)); assumption.
Qed.

Lemma max_loop_inv (items : list dict) (best r : dict) (best_rank : rank) :
  max_loop iso best best_rank items = Ok r ->
  Forall (fun p => year_ok p = true) items.
Proof.
  revert best best_rank. induction items as [| x items IH]; intros best best_rank Hrun.
  - constructor.
  - cbn [max_loop] in Hrun.
    destruct (_rank_for_merge iso x) as [rx |] eqn:Hrx; [| discriminate].
    cbn [bind] in Hrun. constructor; [eapply rank_for_merge_inv; exact Hrx |].
    destruct (rank_ltb best_rank rx); eapply IH; exact Hrun.
Qed.

(** [max(items, key=...)] returns an item that no item outranks. *)
Lemma max_by_rank_spec (items : list dict) :
  items <> [] ->
  Forall (fun p => year_ok p = true) items ->
  exists r,
    max_by_rank iso items = Ok r
    /\ In r items
    /\ forall x, In x items -> rank_ltb (rank_of iso r) (rank_of iso x) = false.
Proof.
  destruct items as [| x items]; [congruence |]. intros _ Hall.
  inversion Hall as [| ? ? Hx Hrest]; subst.
  unfold max_by_rank. rewrite (rank_for_merge_ok x Hx). cbn [bind].
  destruct (max_loop_spec items x Hrest) as (r & Hrun & Hin & Hrx & Hmax).
  exists r. split; [exact Hrun |].
  split; [destruct Hin as [-> | Hin]; [left; reflexivity | right; exact Hin] |].
  intros y [<- | Hy]; [exact Hrx | apply Hmax, Hy].
Qed.

Lemma max_by_rank_inv (items : list dict) (r : dict) :
  max_by_rank iso items = Ok r -> Forall (fun p => year_ok p = true) items.
Proof.
  destruct items as [| x items]; [discriminate |].
  unfold max_by_rank.
  destruct (_rank_for_merge iso x) as [rx |] eqn:Hrx; [| discriminate].
  cbn [bind]. intros Hrun.
  constructor; [eapply rank_for_merge_inv; exact Hrx | eapply max_loop_inv; exact Hrun].
Qed.

Lemma best_of_groups_spec (groups : list (key * list dict)) (merged : list dict) :
  best_of_groups iso groups = Ok merged ->
  Forall2 (fun g r => max_by_rank iso (snd g) = Ok r) groups merged.
Proof.
  revert merged. induction groups as [| [k items] groups IH]; intros merged Hrun.
  - inversion Hrun; subst. constructor.
  - cbn [best_of_groups] in Hrun.
    destruct (max_by_rank iso items) as [best |] eqn:Hbest; [| discriminate].
    cbn [bind] in Hrun.
    destruct (best_of_groups iso groups) as [rest |]; [| discriminate].
    inversion Hrun; subst. constructor; [exact Hbest | apply IH; reflexivity].
Qed.

Lemma best_of_groups_total (groups : list (key * list dict)) :
  Forall (fun g => exists r, max_by_rank iso (snd g) = Ok r) groups ->
  exists merged, best_of_groups iso groups = Ok merged.
Proof.
  induction 1 as [| [k items] groups [r Hr] _ [rest Hrest]].
  - eexists; reflexivity.
  - cbn [best_of_groups]. cbn [snd] in Hr. rewrite Hr, Hrest.
    eexists; reflexivity.
Qed.

(** ** Merge: one representative per group *)

Lemma group_items_year_ok (all_products : list dict) (g : key * list dict) :
  Forall (fun p => year_ok p = true) all_products ->
  snd g = List.filter (fun p => key_eq (fst g) (identity_key p)) all_products ->
  Forall (fun p => year_ok p = true) (snd g).
Proof.
  intros Hall ->. apply Forall_forall. intros p Hp.
  apply list_elem_of_In, filter_In in Hp as [Hp _].
  rewrite Forall_forall in Hall. apply Hall, list_elem_of_In, Hp.
Qed.

Lemma merged_represents (all_products : list dict) (groups : list (key * list dict))
  (merged : list dict) :
  Forall (fun p => year_ok p = true) all_products ->
  group_inv all_products groups ->
  Forall2 (fun g r => max_by_rank iso (snd g) = Ok r) groups merged ->
  Forall2 (represents iso all_products) groups merged.
Proof.
  intros Hok (Hall & _ & _) Hmax.
  eapply Forall2_impl; [apply (Forall2_with _ _ _ _ Hall Hmax) |].
  intros g r [(Hh & Hitems & Hne) Hbest]. cbn beta in *.
  destruct (max_by_rank_spec (snd g) Hne (group_items_year_ok _ g Hok Hitems))
    as (r' & Hrun & Hin & Hr').
  assert (r' = r) as -> by congruence.
  rewrite Hitems in Hin. apply filter_In in Hin as [Hin Hkey].
  repeat split; try assumption.
  intros x Hx Hxkey. apply Hr'. rewrite Hitems. apply filter_In. auto.
Qed.

(** Merge returns exactly when every product can be filed and
    ranked. *)
Lemma merge_products_latest_inv (all_products merged : list dict) :
  merge_products_latest iso all_products = Ok merged ->
  Forall (fun p => product_ok p = true) all_products
  /\ exists groups,
       group_inv all_products groups
       /\ Forall2 (fun g r => max_by_rank iso (snd g) = Ok r) groups merged.
Proof.
  unfold merge_products_latest. intros Hrun.
  destruct (group_products all_products []) as [groups |] eqn:Hgroups; [| discriminate].
  cbn [bind] in Hrun.
  destruct (group_products_inv _ [] _ _ Hgroups group_inv_nil) as [Hinv Hhash].
  cbn [app] in Hinv. pose proof (best_of_groups_spec _ _ Hrun) as Hmax.
  split; [| exists groups; split; assumption].
  apply Forall_forall. intros p Hp. apply list_elem_of_In in Hp.
  unfold product_ok. apply andb_true_iff. split.
  - rewrite Forall_forall in Hhash. apply Hhash, list_elem_of_In, Hp.
  - destruct Hinv as (Hall & _ & Hcov).
    destruct (Hcov p Hp) as (_ & k & Hk & Hke).
    apply in_map_iff in Hk as (g & <- & Hg).
    destruct (Forall2_in_l _ _ _ g Hmax Hg) as (r & _ & Hr).
    apply max_by_rank_inv in Hr. rewrite Forall_forall in Hall.
    rewrite Forall_forall in Hr.
    destruct (Hall g) as (_ & Hitems & _); [apply list_elem_of_In, Hg |].
    apply Hr. apply list_elem_of_In. rewrite Hitems. apply filter_In. auto.
Qed.

Lemma product_ok_parts (l : list dict) :
  Forall (fun p => product_ok p = true) l ->
  Forall (fun p => key_hashable (identity_key p) = true) l
  /\ Forall (fun p => year_ok p = true) l.
Proof.
  intros H. split; (eapply Forall_impl; [exact H |]); intros p Hp;
    apply andb_true_iff in Hp as [H1 H2]; assumption.
Qed.

Lemma merge_products_latest_total (all_products : list dict) :
  Forall (fun p => product_ok p = true) all_products ->
  exists merged, merge_products_latest iso all_products = Ok merged.
Proof.
  intros Hok. destruct (product_ok_parts _ Hok) as [Hhash Hyear].
  destruct (group_products_total all_products [] Hhash) as [groups Hgroups].
  destruct (group_products_inv _ [] _ _ Hgroups group_inv_nil) as [Hinv _].
  cbn [app] in Hinv.
  unfold merge_products_latest. rewrite Hgroups. cbn [bind].
  apply best_of_groups_total.
  destruct Hinv as (Hall & _). eapply Forall_impl; [exact Hall |].
  intros g (_ & Hitems & Hne). cbn beta.
  destruct (max_by_rank_spec (snd g) Hne (group_items_year_ok _ g Hyear Hitems))
    as (r & Hr & _).
  exists r. exact Hr.
Qed.

Lemma pairwise_map {A B : Type} (R : B -> B -> Prop) (f : A -> B) (l : list A) :
  pairwise R (map f l) <-> pairwise (fun a b => R (f a) (f b)) l.
Proof.
  induction l as [| a l IH]; simpl; [reflexivity |].
  rewrite IH, Forall_map. reflexivity.
Qed.

(** What merge returns for products it can file and rank: products of
    the list, one per group, no two of them with equal keys. *)
Lemma merge_products_latest_groups (all_products : list dict) :
  Forall (fun p => product_ok p = true) all_products ->
  exists merged groups,
    merge_products_latest iso all_products = Ok merged
    /\ group_inv all_products groups
    /\ Forall2 (represents iso all_products) groups merged
    /\ (forall r, In r merged -> In r all_products)
    /\ pairwise (fun a b => same_product a b = false) merged.
Proof.
  intros Hok. destruct (merge_products_latest_total _ Hok) as [merged Hrun].
  destruct (merge_products_latest_inv _ _ Hrun) as (_ & groups & Hinv & Hmax).
  destruct (product_ok_parts _ Hok) as [Hhash Hyear].
  pose proof (merged_represents _ _ _ Hyear Hinv Hmax) as Hrep.
  exists merged, groups. split; [exact Hrun |]. split; [exact Hinv |].
  split; [exact Hrep |].
  destruct Hinv as (Hall & Hd & Hcov).
  rewrite Forall_forall in Hhash.
  assert (forall r, In r merged -> In r all_products) as Hsub.
  { intros r Hr. destruct (Forall2_in_r _ _ _ r Hrep Hr) as (g & _ & _ & Hin & _).
    exact Hin. }
  split; [exact Hsub |].
  apply (proj1 (pairwise_map key_differ fst groups)) in Hd.
  refine (pairwise_Forall2 _ _ _ _ _ _ Hrep Hd).
  intros g g' r r' (Hg & Hr & Hgr & _) (Hg' & Hr' & Hgr' & _) Hdiff.
  unfold key_differ in Hdiff. unfold same_product.
  destruct (key_eq (identity_key r) (identity_key r')) eqn:Hrr; [| reflexivity].
  rewrite <- Hdiff. symmetry.
  assert (key_hashable (identity_key r) = true) as Hhr
    by (apply Hhash, list_elem_of_In, Hr).
  assert (key_hashable (identity_key r') = true) as Hhr'
    by (apply Hhash, list_elem_of_In, Hr').
  apply (key_eq_trans _ (identity_key r') _ Hhr');
    [apply (key_eq_trans _ (identity_key r) _ Hhr); assumption |].
  apply key_eq_sym; assumption.
Qed.

(** X22. For products that can be filed and ranked (hashable identity,
    a year that converts when numeric), merge returns a list of the
    given products in which no two share an identity key. The rank of
    a product is its line-off date, the earliest date when that is
    missing or unreadable, then its year, -1 when that is missing or
    not numeric. Every given product has exactly one returned product
    with its identity key, and that one is not outranked by it: the
    date decides, the year breaks a tie. *)
Theorem merge_products_latest_selects_latest (all_products : list dict) :
  Forall (fun p => product_ok p = true) all_products ->
  exists merged,
    merge_products_latest iso all_products = Ok merged
    /\ (forall r, In r merged -> In r all_products)
    /\ pairwise (fun a b => same_product a b = false) merged
    /\ (forall p, In p all_products ->
          _rank_for_merge iso p = Ok (rank_of iso p)
          /\ exists r,
               In r merged
               /\ same_product r p = true
               /\ ~ rank_lt (rank_of iso r) (rank_of iso p)
               /\ forall r', In r' merged -> same_product r' p = true -> r' = r).
Proof.
  intros Hok.
  destruct (merge_products_latest_groups _ Hok)
    as (merged & groups & Hrun & Hinv & Hrep & Hsub & Hdistinct).
  exists merged. split; [exact Hrun |].
  destruct (product_ok_parts _ Hok) as [Hhash Hyear].
  destruct Hinv as (Hall & Hd & Hcov).
  rewrite Forall_forall in Hhash. rewrite Forall_forall in Hyear.
  split; [exact Hsub |]. split; [exact Hdistinct |].
  intros p Hp.
  split; [apply rank_for_merge_ok, Hyear, list_elem_of_In, Hp |].
  destruct (Hcov p Hp) as (Hhp & k & Hk & Hkp).
  apply in_map_iff in Hk as (g & <- & Hg).
  destruct (Forall2_in_l _ _ _ g Hrep Hg) as (r & Hr & Hhg & Hrin & Hgr & Hbest).
  assert (key_hashable (identity_key r) = true) as Hhr
    by (apply Hhash, list_elem_of_In, Hrin).
  assert (same_product r p = true) as Hsame.
  { unfold same_product. apply (key_eq_trans _ (fst g) _ Hhg); [| exact Hkp].
    apply key_eq_sym; assumption. }
  exists r. split; [exact Hr |]. split; [exact Hsame |].
  split; [apply rank_ltb_false_iff, Hbest; assumption |].
  intros r' Hr' Hsame'.
  assert (key_hashable (identity_key r') = true) as Hhr'
    by (apply Hhash, list_elem_of_In, Hsub, Hr').
  assert (same_product r' r = true) as Hboth.
  { unfold same_product in *. apply (key_eq_trans _ (identity_key p) _ Hhp);
      [exact Hsame' | apply key_eq_sym; assumption]. }
  destruct (pairwise_in _ _ r' r Hdistinct Hr' Hr) as [Heq | [Hne | Hne]];
    [exact Heq | congruence |].
  unfold same_product in *. apply key_eq_sym in Hboth; [congruence | exact Hhr'].
Qed.

(** ** Merge: idempotence *)

Lemma group_products_distinct (l : list dict) (groups : list (key * list dict)) :
  Forall (fun p => key_hashable (identity_key p) = true) l ->
  pairwise (fun a b => same_product a b = false) l ->
  (forall k p, In k (map fst groups) -> In p l -> key_eq k (identity_key p) = false) ->
  group_products l groups = Ok (groups ++ map (fun p => (identity_key p, [p])) l).
Proof.
  revert groups. induction l as [| p l IH]; intros groups Hhash Hd Hfresh.
  - cbn. rewrite app_nil_r. reflexivity.
  - inversion Hhash as [| ? ? Hp Hrest]; subst. destruct Hd as [Hpl Hd].
    cbn [group_products]. rewrite Hp.
    rewrite groups_append_new.
    + rewrite IH; [rewrite <- app_assoc; reflexivity | exact Hrest | exact Hd |].
      intros k q Hk Hq. rewrite map_app in Hk. apply in_app_or in Hk as [Hk | [<- | []]].
      * apply Hfresh; [exact Hk | right; exact Hq].
      * rewrite Forall_forall in Hpl. apply (Hpl q), list_elem_of_In, Hq.
    + apply Forall_forall. intros k Hk. apply list_elem_of_In in Hk.
      apply Hfresh; [exact Hk | left; reflexivity].
Qed.

Lemma best_of_singletons (l : list dict) :
  Forall (fun p => year_ok p = true) l ->
  best_of_groups iso (map (fun p => (identity_key p, [p])) l) = Ok l.
Proof.
  induction 1 as [| p l Hp _ IH]; [reflexivity |].
  cbn [map best_of_groups max_by_rank max_loop].
  rewrite (rank_for_merge_ok p Hp), IH. reflexivity.
Qed.

(** Merge leaves a list alone in which no two products share a key. *)
Lemma merge_products_latest_fixed (l : list dict) :
  Forall (fun p => product_ok p = true) l ->
  pairwise (fun a b => same_product a b = false) l ->
  merge_products_latest iso l = Ok l.
Proof.
  intros Hok Hd. destruct (product_ok_parts _ Hok) as [Hhash Hyear].
  unfold merge_products_latest.
  rewrite (group_products_distinct l [] Hhash Hd) by (intros k p []).
  cbn [app bind]. apply best_of_singletons, Hyear.
Qed.

(** C3. Merging the result of a merge gives that result again; when
    the first merge raises there is no result to merge. *)
Theorem merge_products_latest_idempotent (all_products : list dict) :
  bind (merge_products_latest iso all_products) (merge_products_latest iso)
  = merge_products_latest iso all_products.
Proof.
  destruct (merge_products_latest iso all_products) as [merged | e] eqn:Hrun;
    [| reflexivity].
  cbn [bind].
  destruct (merge_products_latest_inv _ _ Hrun) as (Hok & _).
  destruct (merge_products_latest_groups all_products Hok)
    as (merged' & _ & Hrun' & _ & _ & Hsub & Hd).
  assert (merged' = merged) as -> by congruence.
  apply merge_products_latest_fixed; [| exact Hd].
  apply Forall_forall. intros r Hr. apply list_elem_of_In in Hr.
  rewrite Forall_forall in Hok. apply Hok, list_elem_of_In, Hsub, Hr.
Qed.

End MergeProperties.

Lemma merge_products_latest_selects_latest_witness :
  merge_products_latest iso_ymd sample_products = Ok [rav4_2021; yaris_2022]
  /\ exists merged,
       merge_products_latest iso_ymd sample_products = Ok merged
       /\ (forall r, In r merged -> In r sample_products)
       /\ pairwise (fun a b => same_product a b = false) merged.
Proof.
  split; [reflexivity |].
  destruct (merge_products_latest_selects_latest iso_ymd sample_products)
    as (merged & Hrun & Hsub & Hdistinct & _).
  - repeat constructor.
  - exists merged. auto.
Defined.

(** The group of the specification's example: the dated 2021 variant is
    kept although the undated variant has the later year, and its rank is
    the earliest date with its year. *)
Lemma merge_date_dominates_year :
  merge_products_latest iso_ymd [rav4_2019; rav4_2021; rav4_2023] = Ok [rav4_2021]
  /\ rank_of iso_ymd rav4_2021 = ((2021, 6, 15), 2021)
  /\ rank_of iso_ymd rav4_2023 = (date_min, 2023).
Proof. repeat split. Qed.

(** A year that is not numeric ranks as -1, an unreadable date as the
    earliest date. *)
Lemma rank_of_defaults :
  rank_of iso_ymd (product "Toyota" "RAV4" "XA50" 7 (VStr "n/a") (VStr "soon"))
  = (date_min, -1).
Proof. reflexivity. Qed.

(** C1. Merge does not select a representative for every list. The
    year [superscript_two] passes the test
    [y_raw is not None and str(y_raw).isdigit()], and [int] raises
    [ValueError] on it. The ordering of the claim gives such a product
    the year -1, so that alone in its list it would be the representative
    of its key; merge raises instead, on the list of this one product and
    on the sample catalogue with this product added. *)
Theorem merge_products_latest_superscript_year (iso : string -> option date) :
  numeric_year (get rav4_superscript "year") = true
  /\ int_of (get rav4_superscript "year") = Raise ValueError
  /\ year_number rav4_superscript = None
  /\ snd (rank_of iso rav4_superscript) = -1
  /\ merge_products_latest iso [rav4_superscript] = Raise ValueError
  /\ merge_products_latest iso_ymd (sample_products ++ [rav4_superscript])
     = Raise ValueError.
Proof. repeat split. Qed.

(** * Further properties *)

(** ** Text: characters kept by the string operations *)

Lemma string_forallb_map (f : ascii -> ascii) (P : ascii -> bool) (s : string) :
  (forall c, P (f c) = true) -> string_forallb P (string_map f s) = true.
Proof.
  intros H. induction s as [| c s IH]; [reflexivity |].
  cbn [string_map string_forallb]. rewrite H, IH. reflexivity.
Qed.

Lemma string_forallb_lstrip (drop P : ascii -> bool) (s : string) :
  string_forallb P s = true -> string_forallb P (lstrip drop s) = true.
Proof.
  induction s as [| c s IH]; [reflexivity |].
  cbn [lstrip]. intros H. destruct (drop c); [| exact H].
  cbn [string_forallb] in H. apply andb_true_iff in H as [_ H]. exact (IH H).
Qed.

Lemma string_forallb_rstrip (drop P : ascii -> bool) (s : string) :
  string_forallb P s = true -> string_forallb P (rstrip drop s) = true.
Proof.
  induction s as [| c s IH]; [reflexivity |].
  cbn [rstrip string_forallb]. intros H. apply andb_true_iff in H as [Hc H].
  specialize (IH H). destruct (rstrip drop s) as [| x r].
  - destruct (drop c); [reflexivity |]. cbn. rewrite Hc. reflexivity.
  - cbn [string_forallb]. rewrite Hc. exact IH.
Qed.

Lemma string_forallb_slice_to (P : ascii -> bool) (n : nat) (s : string) :
  string_forallb P s = true -> string_forallb P (slice_to n s) = true.
Proof.
  revert s. induction n as [| n IH]; intros s H; [reflexivity |].
  destruct s as [| c s]; [reflexivity |].
  cbn [slice_to string_forallb] in *. apply andb_true_iff in H as [Hc H].
  rewrite Hc, (IH s H). reflexivity.
Qed.

Lemma length_slice_to (n : nat) (s : string) : (String.length (slice_to n s) <= n)%nat.
Proof.
  revert s. induction n as [| n IH]; intros s; [simpl; lia |].
  destruct s as [| c s]; simpl; [lia |]. specialize (IH s). lia.
Qed.

Lemma string_forallb_app (P : ascii -> bool) (a b : string) :
  string_forallb P (a ++ b) = string_forallb P a && string_forallb P b.
Proof.
  induction a as [| c a IH]; [reflexivity |].
  simpl. rewrite IH. apply andb_assoc.
Qed.

Lemma string_forallb_impl (P Q : ascii -> bool) (s : string) :
  (forall c, P c = true -> Q c = true) ->
  string_forallb P s = true -> string_forallb Q s = true.
Proof.
  intros H. induction s as [| c s IH]; [reflexivity |].
  cbn [string_forallb]. rewrite !andb_true_iff. intros [Hc Hs]. auto.
Qed.

Lemma string_forallb_not_mem (P : ascii -> bool) (c : ascii) (s : string) :
  P c = false -> string_forallb P s = true -> string_mem c s = false.
Proof.
  intros Hc. induction s as [| d s IH]; [reflexivity |].
  cbn [string_forallb string_mem]. rewrite andb_true_iff. intros [Hd Hs].
  rewrite (IH Hs), orb_false_r.
  destruct (Ascii.eqb_spec c d) as [-> |]; [congruence | reflexivity].
Qed.

Lemma nonempty_app_l (a b : string) : nonempty a = true -> nonempty (a ++ b) = true.
Proof. destruct a; [discriminate | reflexivity]. Qed.

Lemma before_T_no_T (s : string) : string_mem "T" (before_T s) = false.
Proof.
  induction s as [| c s IH]; [reflexivity |].
  cbn [before_T]. destruct (Ascii.eqb c "T") eqn:Hc; [reflexivity |].
  cbn [string_mem]. rewrite IH, orb_false_r.
  rewrite Ascii.eqb_sym. exact Hc.
Qed.

(** ** File naming: what a name is made of *)

Lemma keep_char_underscore : keep_char "_" = true.
Proof. reflexivity. Qed.

(** A name [safe_filename] returns is not empty and holds kept
    characters only. *)
Lemma safe_filename_keep (s : string) :
  nonempty (safe_filename s) = true
  /\ string_forallb keep_char (safe_filename s) = true.
Proof.
  split; [apply safe_filename_nonempty |].
  rewrite safe_filename_sanitize.
  destruct (nonempty (spec_sanitize s)); [| reflexivity].
  unfold spec_sanitize.
  apply string_forallb_slice_to, string_forallb_rstrip, string_forallb_lstrip.
  apply string_forallb_map. intros c. destruct (keep_char c) eqn:Hc; [exact Hc |].
  reflexivity.
Qed.

(** X1. Whatever the text, [safe_filename] returns a text that is not
    empty, has at most 200 characters and holds only letters, digits,
    dots, underscores, hyphens and spaces; a slash never survives. *)
Theorem safe_filename_safe (s : string) :
  nonempty (safe_filename s) = true
  /\ (String.length (safe_filename s) <= 200)%nat
  /\ string_forallb keep_char (safe_filename s) = true
  /\ string_mem "/" (safe_filename s) = false.
Proof.
  assert (string_forallb keep_char (spec_sanitize s) = true) as Hkept.
  { unfold spec_sanitize.
    apply string_forallb_slice_to, string_forallb_rstrip, string_forallb_lstrip.
    apply string_forallb_map. intros c. destruct (keep_char c) eqn:Hc; [exact Hc |].
    reflexivity. }
  assert (string_forallb keep_char (safe_filename s) = true) as Hall.
  { rewrite safe_filename_sanitize.
    destruct (nonempty (spec_sanitize s)); [exact Hkept | reflexivity]. }
  split; [apply safe_filename_nonempty |]. split.
  - rewrite safe_filename_sanitize.
    destruct (nonempty (spec_sanitize s)); [apply length_slice_to | simpl; lia].
  - split; [exact Hall |].
    apply (string_forallb_not_mem keep_char); [reflexivity | exact Hall].
Qed.

Lemma join_forallb (P : ascii -> bool) (sep : string) (parts : list string) :
  string_forallb P sep = true ->
  Forall (fun p => string_forallb P p = true) parts ->
  string_forallb P (join sep parts) = true.
Proof.
  intros Hsep. induction 1 as [| p parts Hp _ IH]; [reflexivity |].
  destruct parts as [| q parts]; [exact Hp |].
  change (join sep (p :: q :: parts)) with (p ++ sep ++ join sep (q :: parts))%string.
  rewrite !string_forallb_app, Hp, Hsep, IH. reflexivity.
Qed.

Lemma join_nonempty (sep p : string) (parts : list string) :
  nonempty p = true -> nonempty (join sep (p :: parts)) = true.
Proof.
  intros Hp. destruct parts as [| q parts]; [exact Hp |].
  change (join sep (p :: q :: parts)) with (p ++ sep ++ join sep (q :: parts))%string.
  apply nonempty_app_l, Hp.
Qed.

Lemma nonempty_string_map (f : ascii -> ascii) (s : string) :
  nonempty (string_map f s) = nonempty s.
Proof. destruct s; reflexivity. Qed.

Lemma space_to_underscore_name (s : string) :
  string_forallb keep_char s = true ->
  string_forallb name_char
    (string_map (fun c => if Ascii.eqb c " " then "_"%char else c) s) = true.
Proof.
  induction s as [| c s IH]; [reflexivity |].
  cbn [string_forallb string_map]. rewrite !andb_true_iff. intros [Hc Hs].
  split; [| exact (IH Hs)].
  destruct (Ascii.eqb_spec c " ") as [-> | Hne]; [reflexivity |].
  unfold keep_char in Hc. unfold name_char.
  destruct (isalnum_char c); [reflexivity |]. cbn [orb] in *.
  cbn [string_mem] in *.
  destruct (Ascii.eqb c "."); [reflexivity |].
  destruct (Ascii.eqb c "_"); [reflexivity |].
  destruct (Ascii.eqb c "-"); [reflexivity |].
  destruct (Ascii.eqb_spec c " "); [contradiction | discriminate].
Qed.

(** X2. Whatever the five components, [make_named_pdf] returns a name
    of the form base + [.pdf] with a base that is not empty, and the
    whole name holds only letters, digits, dots, underscores and
    hyphens: no space, no slash. *)
Theorem make_named_pdf_safe
  (brand model model_type : string) (year : option string) (part_number : string) :
  exists base,
    make_named_pdf brand model model_type year part_number = (base ++ ".pdf")%string
    /\ nonempty base = true
    /\ string_forallb name_char (make_named_pdf brand model model_type year part_number)
       = true
    /\ string_mem "/" (make_named_pdf brand model model_type year part_number) = false
    /\ string_mem " " (make_named_pdf brand model model_type year part_number) = false.
Proof.
  unfold make_named_pdf.
  set (segments := map segment_name
                     (List.filter segment_kept
                        [Some brand; Some model; Some model_type; year; Some part_number])).
  set (base := match segments with [] => "manual" | _ :: _ => join "." segments end).
  assert (Forall (fun p => nonempty p = true /\ string_forallb keep_char p = true)
            segments) as Hsegments.
  { subst segments. apply Forall_forall. intros p Hp.
    apply list_elem_of_In, in_map_iff in Hp as (x & <- & _).
    destruct x as [s |]; cbn [segment_name];
      [destruct (safe_filename_keep s) as (Hn & Hk)
      | destruct (safe_filename_keep "") as (Hn & Hk)]; split; assumption. }
  assert (nonempty base = true /\ string_forallb keep_char base = true) as [Hne Hkeep].
  { subst base. destruct segments as [| p parts]; [split; reflexivity |].
    inversion Hsegments as [| ? ? [Hp1 Hp2] Hrest]; subst. split.
    - apply join_nonempty, Hp1.
    - apply join_forallb; [reflexivity |].
      eapply Forall_impl; [exact Hsegments |]. intros q [_ Hq]. exact Hq. }
  set (name := string_map (fun c => if Ascii.eqb c " " then "_"%char else c) base).
  assert (string_forallb name_char (name ++ ".pdf") = true) as Hall.
  { rewrite string_forallb_app. subst name.
    rewrite (space_to_underscore_name base Hkeep). reflexivity. }
  exists name. split; [reflexivity |].
  split; [subst name; rewrite nonempty_string_map; exact Hne |].
  split; [exact Hall |].
  split; apply (string_forallb_not_mem name_char); (reflexivity || exact Hall).
Qed.

(** ** Download: what it leaves alone *)

Lemma bind_ok {A B : Type} (m : result A) (k : A -> result B) (b : B) :
  bind m k = Ok b -> exists a, m = Ok a /\ k a = Ok b.
Proof. destruct m as [a | e]; [intros H; exists a; auto | discriminate]. Qed.

Lemma startswith_forallb (P : ascii -> bool) (t s : string) :
  startswith t s = true -> string_forallb P s = true -> string_forallb P t = true.
Proof.
  revert s. induction t as [| a t IH]; intros s Hpre Hs; [reflexivity |].
  destruct s as [| b s]; [discriminate |].
  apply startswith_cons in Hpre as [-> Hpre].
  cbn [string_forallb] in *. apply andb_true_iff in Hs as [Hb Hs].
  rewrite Hb, (IH s Hpre Hs). reflexivity.
Qed.

(** A text that occurs in another holds only characters of the other. *)
Lemma occurs_in_forallb (P : ascii -> bool) (t s : string) :
  occurs_in t s = true -> string_forallb P s = true -> string_forallb P t = true.
Proof.
  induction s as [| b s IH]; cbn [occurs_in]; intros Hocc Hs.
  - rewrite orb_false_r in Hocc. exact (startswith_forallb P t "" Hocc Hs).
  - apply orb_true_iff in Hocc as [Hpre | Hocc].
    + exact (startswith_forallb P t (String b s) Hpre Hs).
    + cbn [string_forallb] in Hs. apply andb_true_iff in Hs as [_ Hs]. exact (IH Hocc Hs).
Qed.

Lemma occurs_in_char (c : ascii) (s : string) :
  occurs_in (String c "") s = string_mem c s.
Proof.
  induction s as [| d s IH]; [reflexivity |].
  cbn [occurs_in string_mem String.prefix]. rewrite IH.
  destruct (ascii_dec c d) as [-> | Hne].
  - rewrite Ascii.eqb_refl. destruct s; reflexivity.
  - apply Ascii.eqb_neq in Hne. rewrite Hne. reflexivity.
Qed.

Lemma kept_item_keep (c : value) (a : string) :
  kept_item c = Ok a -> string_forallb keep_char a = true.
Proof.
  destruct c as [| | | t | |]; try discriminate. cbn [kept_item].
  destruct (isalnum t || occurs_in t "._- ") eqn:Hkeep; intros H; inversion H; subst;
    [| reflexivity].
  apply orb_true_iff in Hkeep as [Halnum | Hocc].
  - unfold isalnum in Halnum. apply andb_true_iff in Halnum as [_ Hall].
    apply (string_forallb_impl isalnum_char); [| exact Hall].
    intros x Hx. unfold keep_char. rewrite Hx. reflexivity.
  - apply (occurs_in_forallb keep_char a "._- " Hocc). reflexivity.
Qed.

Lemma join_kept_keep (items : list value) (cleaned : string) :
  join_kept items = Ok cleaned -> string_forallb keep_char cleaned = true.
Proof.
  revert cleaned. induction items as [| c items IH]; intros cleaned H.
  - inversion H; reflexivity.
  - cbn [join_kept] in H. apply bind_ok in H as (a & Ha & H).
    apply bind_ok in H as (b & Hb & H). inversion H; subst.
    rewrite string_forallb_app, (kept_item_keep _ _ Ha), (IH _ Hb). reflexivity.
Qed.

(** Whatever it is given, a name [safe_filename] returns is not empty
    and holds kept characters only. *)
Lemma safe_filename_any_shape (s : value) (name : string) :
  safe_filename_any s = Ok name ->
  nonempty name = true /\ string_forallb keep_char name = true.
Proof.
  unfold safe_filename_any. intros H.
  apply bind_ok in H as (items & _ & H). apply bind_ok in H as (cleaned & Hc & H).
  set (x := slice_to 200 (strip (fun c => string_mem c "_ ") cleaned)) in H.
  injection H as <-.
  assert (string_forallb keep_char x = true) as Hx.
  { apply string_forallb_slice_to, string_forallb_rstrip, string_forallb_lstrip.
    exact (join_kept_keep _ _ Hc). }
  destruct (nonempty x) eqn:Hne; [split; [exact Hne | exact Hx] | split; reflexivity].
Qed.

Lemma named_segments_shape (segments : list value) (names : list string) :
  named_segments segments = Ok names ->
  Forall (fun p => nonempty p = true /\ string_forallb keep_char p = true) names.
Proof.
  revert names. induction segments as [| x segments IH]; intros names H.
  - inversion H; constructor.
  - cbn [named_segments] in H. destruct (truthy x); [| exact (IH _ H)].
    apply bind_ok in H as (name & Hname & H).
    destruct (nonempty name); [| exact (IH _ H)].
    apply bind_ok in H as (rest & Hrest & H). inversion H; subst.
    constructor; [exact (safe_filename_any_shape _ _ Hname) | exact (IH _ Hrest)].
Qed.

Lemma make_named_pdf_any_shape (brand model model_type year part_number : value)
  (name : string) :
  make_named_pdf_any brand model model_type year part_number = Ok name ->
  exists base,
    name = (base ++ ".pdf")%string
    /\ nonempty base = true
    /\ string_forallb name_char base = true.
Proof.
  unfold make_named_pdf_any. intros H.
  apply bind_ok in H as (segments & Hsegments & H). inversion H; subst. clear H.
  apply named_segments_shape in Hsegments.
  set (base := match segments with [] => "manual" | _ :: _ => join "." segments end).
  assert (nonempty base = true /\ string_forallb keep_char base = true) as [Hne Hkeep].
  { subst base. destruct segments as [| p parts]; [split; reflexivity |].
    inversion Hsegments as [| ? ? [Hp1 Hp2] Hrest]; subst. split.
    - apply join_nonempty, Hp1.
    - apply join_forallb; [reflexivity |].
      eapply Forall_impl; [exact Hsegments |]. intros q [_ Hq]. exact Hq. }
  eexists. split; [reflexivity |].
  split; [rewrite nonempty_string_map; exact Hne |].
  apply space_to_underscore_name, Hkeep.
Qed.

(** On a text, [safe_filename] as it runs on any value is [safe_filename]. *)
Lemma join_kept_text (t : string) :
  join_kept (map (fun c => VStr (String c "")) (list_ascii_of_string t))
  = Ok (string_map (fun c => if keep_char c then c else "_"%char) t).
Proof.
  induction t as [| c t IH]; [reflexivity |].
  cbn [list_ascii_of_string map join_kept kept_item string_map]. rewrite IH. cbn [bind].
  rewrite occurs_in_char. unfold isalnum, keep_char. cbn [nonempty string_forallb].
  rewrite andb_true_r. cbn [andb].
  destruct (isalnum_char c || string_mem c "._- "); reflexivity.
Qed.

Lemma safe_filename_any_text (t : string) :
  safe_filename_any (VStr t) = Ok (safe_filename t).
Proof.
  unfold safe_filename_any, safe_filename.
  replace (py_or (VStr t) (VStr "")) with (VStr t)
    by (unfold py_or; destruct t; reflexivity).
  cbn [iterate bind]. rewrite join_kept_text. reflexivity.
Qed.

Lemma named_segments_text (segments : list (option string)) :
  named_segments (map (fun x => match x with Some t => VStr t | None => VNone end)
                    segments)
  = Ok (map segment_name (List.filter segment_kept segments)).
Proof.
  induction segments as [| x segments IH]; [reflexivity |].
  cbn [map named_segments List.filter]. rewrite segment_kept_iff.
  destruct x as [t |]; cbn [truthy]; [| exact IH].
  destruct (nonempty t); [| exact IH].
  rewrite safe_filename_any_text. cbn [bind]. rewrite safe_filename_nonempty, IH.
  reflexivity.
Qed.

(** On texts and an optional year, [make_named_pdf] as it runs on any
    values is [make_named_pdf]. *)
Lemma make_named_pdf_any_text
  (brand model model_type : string) (year : option string) (part_number : string) :
  make_named_pdf_any (VStr brand) (VStr model) (VStr model_type)
    (match year with Some y => VStr y | None => VNone end) (VStr part_number)
  = Ok (make_named_pdf brand model model_type year part_number).
Proof.
  unfold make_named_pdf_any, make_named_pdf.
  pose proof (named_segments_text
                [Some brand; Some model; Some model_type; year; Some part_number]) as H.
  cbn [map] in H. rewrite H. reflexivity.
Qed.

(** The path of a download lies directly in the output directory and
    its name is a safe file name ending in [.pdf]. *)
Lemma target_path_shape (prod pub : dict) (path : string) :
  target_path prod pub = Ok path ->
  exists base,
    path = ("./manuals/" ++ base ++ ".pdf")%string
    /\ nonempty base = true
    /\ string_forallb name_char base = true.
Proof.
  unfold target_path. intros H.
  apply bind_ok in H as (year & _ & H).
  apply bind_ok in H as (name & Hname & H).
  inversion H; subst.
  destruct (make_named_pdf_any_shape _ _ _ _ _ _ Hname) as (base & -> & Hne & Hall).
  exists base. split; [reflexivity |]. split; assumption.
Qed.

(** X3. Whatever the far end answers, [download_pdf] leaves every file
    that exists as it is (it neither overwrites nor deletes), changes no
    path but its own target, and sends at most one request, for the given
    URL. When it returns a path, that path exists afterwards, lies
    directly in [./manuals] and is a safe name ending in [.pdf]. *)
Theorem download_pdf_never_overwrites
  (server : nat -> request -> result response) (url : string) (prod pub : dict)
  (w : world) :
  (forall p c, files w !! p = Some c ->
     files (snd (download_pdf server url prod pub w)) !! p = Some c)
  /\ (forall p, files (snd (download_pdf server url prod pub w)) !! p <> files w !! p ->
        target_path prod pub = Ok p)
  /\ (sent (snd (download_pdf server url prod pub w)) = sent w
      \/ sent (snd (download_pdf server url prod pub w))
         = {| req_url := url; req_params := [] |} :: sent w)
  /\ (forall path, fst (download_pdf server url prod pub w) = Ok path ->
        is_Some (files (snd (download_pdf server url prod pub w)) !! path)
        /\ exists base,
             path = ("./manuals/" ++ base ++ ".pdf")%string
             /\ nonempty base = true
             /\ string_forallb name_char base = true).
Proof.
  unfold download_pdf.
  destruct (target_path prod pub) as [path | e] eqn:Hpath; cbn [fst snd].
  2: { repeat split; try (left; reflexivity); try tauto; discriminate. }
  pose proof (target_path_shape _ _ _ Hpath) as Hshape.
  destruct (decide (is_Some (files w !! path))) as [Hyes | Hno]; cbn [fst snd].
  { split; [tauto |]. split; [tauto |]. split; [left; reflexivity |].
    intros p Hp. inversion Hp; subst. split; assumption. }
  assert (files w !! path = None) as Hnone
    by (destruct (files w !! path) eqn:E; [exfalso; apply Hno; eauto | reflexivity]).
  unfold send.
  destruct (server (length (sent w)) _) as [r | e]; cbn [fst snd files sent].
  2: { split; [tauto |]. split; [tauto |]. split; [right; reflexivity | discriminate]. }
  assert (forall p c, files w !! p = Some c ->
            <[path := String.concat "" (chunks r)]> (files w) !! p = Some c) as Hkeep.
  { intros p c Hp. rewrite lookup_insert_ne; [exact Hp |]. congruence. }
  assert (forall p, <[path := String.concat "" (chunks r)]> (files w) !! p <> files w !! p ->
            Ok path = Ok p :> result string) as Honly.
  { intros p Hp. destruct (decide (path = p)) as [-> | Hne]; [reflexivity |].
    rewrite lookup_insert_ne in Hp by exact Hne. contradiction. }
  destruct (raise_for_status r); cbn [fst snd files sent].
  2: { split; [tauto |]. split; [tauto |]. split; [right; reflexivity | discriminate]. }
  unfold write_file.
  destruct (complete r); cbn [fst snd files sent];
    (split; [exact Hkeep |]); (split; [exact Honly |]);
    (split; [right; reflexivity |]); [| discriminate].
  intros p Hp. inversion Hp; subst.
  split; [rewrite lookup_insert_eq; eauto | exact Hshape].
Qed.

(** ** The link resolver: what it sends *)

(** X4. Whatever the publication and the far end, [get_pdf_link] leaves
    the files alone and sends at most one request; a request it sends
    carries exactly the three parameters, a part number and a model type
    that are true, and a line-off date that is a text, not empty and
    without ["T"]: the date portion only. *)
Theorem get_pdf_link_request_shape
  (server : nat -> request -> result response) (pub : dict) (w : world) :
  files (snd (get_pdf_link server pub w)) = files w
  /\ (sent (snd (get_pdf_link server pub w)) = sent w
      \/ exists line_off,
           sent (snd (get_pdf_link server pub w))
           = {| req_url := (API ++ "/publications/content/pdfLink")%string;
                req_params := [("partNumber", get pub "partNumber");
                               ("modelType", get pub "modelType");
                               ("lineOffDate", VStr line_off)] |} :: sent w
           /\ truthy (get pub "partNumber") = true
           /\ truthy (get pub "modelType") = true
           /\ nonempty line_off = true
           /\ string_mem "T" line_off = false).
Proof.
  unfold get_pdf_link.
  destruct (py_or (get pub "lineOffDate") (VStr "")) as [| | | s | |];
    try (split; [reflexivity | left; reflexivity]).
  destruct (truthy (get pub "partNumber") && truthy (get pub "modelType")
            && nonempty (before_T s)) eqn:Hfields; cbn [negb];
    [| split; [reflexivity | left; reflexivity]].
  apply andb_true_iff in Hfields as [Hfields Hdate].
  apply andb_true_iff in Hfields as [Hpn Hmt].
  assert (forall res : result value * world,
            snd res = {| files := files w;
                         sent := {| req_url := (API ++ "/publications/content/pdfLink")%string;
                                    req_params := [("partNumber", get pub "partNumber");
                                                   ("modelType", get pub "modelType");
                                                   ("lineOffDate", VStr (before_T s))] |}
                                 :: sent w |} ->
            files (snd res) = files w
            /\ (sent (snd res) = sent w
                \/ exists line_off,
                     sent (snd res)
                     = {| req_url := (API ++ "/publications/content/pdfLink")%string;
                          req_params := [("partNumber", get pub "partNumber");
                                         ("modelType", get pub "modelType");
                                         ("lineOffDate", VStr line_off)] |} :: sent w
                     /\ truthy (get pub "partNumber") = true
                     /\ truthy (get pub "modelType") = true
                     /\ nonempty line_off = true
                     /\ string_mem "T" line_off = false)) as Hsent.
  { intros res ->. split; [reflexivity |]. right. exists (before_T s).
    repeat split; try assumption. apply before_T_no_T. }
  apply Hsent. unfold send.
  destruct (server (length (sent w)) _) as [r | e]; [| reflexivity].
  destruct ((status_code r =? 400) || (status_code r =? 404) || (status_code r =? 500));
    [reflexivity |].
  destruct (raise_for_status r); [| reflexivity].
  destruct (json r) as [[| | | | |] |]; reflexivity.
Qed.

(** ** Numbers and their decimal texts *)

Lemma string_of_uint_decimal (d : Decimal.uint) :
  string_forallb isdecimal_char (NilEmpty.string_of_uint d) = true.
Proof. induction d; cbn [NilEmpty.string_of_uint string_forallb]; auto. Qed.

Lemma int_digits_of_uint_acc (d : Decimal.uint) (acc : positive) :
  int_digits (Z.pos acc) (NilEmpty.string_of_uint d)
  = Ok (Z.pos (Pos.of_uint_acc d acc)).
Proof.
  revert acc.
  induction d; intros acc; cbn [NilEmpty.string_of_uint int_digits Pos.of_uint_acc];
    [reflexivity | ..];
    match goal with
    | |- (if ?b then _ else _) = _ => change b with true; cbv iota
    end;
    match goal with
    | |- int_digits ?z _ = Ok (Z.pos (Pos.of_uint_acc _ ?p)) =>
        replace z with (Z.pos p) by (cbn; lia)
    end; apply IHd.
Qed.

Lemma int_digits_of_uint (d : Decimal.uint) :
  int_digits 0 (NilEmpty.string_of_uint d) = Ok (Z.of_N (Pos.of_uint d)).
Proof.
  induction d; cbn [NilEmpty.string_of_uint int_digits Pos.of_uint];
    [reflexivity | ..];
    match goal with
    | |- (if ?b then _ else _) = _ => change b with true; cbv iota
    end;
    [exact IHd | ..];
    match goal with
    | |- int_digits ?z _ = Ok (Z.of_N (N.pos (Pos.of_uint_acc _ ?p))) =>
        change z with (Z.pos p)
    end; apply int_digits_of_uint_acc.
Qed.

Lemma str_int_pos (p : positive) :
  str_int (Z.pos p) = NilEmpty.string_of_uint (Pos.to_uint p).
Proof.
  unfold str_int. cbn [Z.to_int NilZero.string_of_int NilZero.string_of_uint].
  pose proof (DecimalPos.Unsigned.to_uint_nonnil p) as Hnil.
  destruct (Pos.to_uint p); [contradiction | reflexivity..].
Qed.

(** The decimal text of a number that is not negative holds decimal
    digits only and is not empty. *)
Lemma str_int_decimal (n : Z) :
  0 <= n ->
  nonempty (str_int n) = true /\ string_forallb isdecimal_char (str_int n) = true.
Proof.
  intros Hn. destruct n as [| p | p]; [split; reflexivity | | lia].
  rewrite str_int_pos. split; [| apply string_of_uint_decimal].
  pose proof (DecimalPos.Unsigned.to_uint_nonnil p) as Hnil.
  destruct (Pos.to_uint p); [contradiction | reflexivity..].
Qed.

Lemma isdecimal_isdigit (s : string) :
  string_forallb isdecimal_char s = true -> string_forallb isdigit_char s = true.
Proof.
  apply string_forallb_impl. intros c Hc. unfold isdigit_char. rewrite Hc. reflexivity.
Qed.

Lemma str_int_isdigit (n : Z) : 0 <= n -> isdigit (str_int n) = true.
Proof.
  intros Hn. destruct (str_int_decimal n Hn) as [Hne Hall].
  unfold isdigit. rewrite Hne, (isdecimal_isdigit _ Hall). reflexivity.
Qed.

(** [int(str(n)) == n] *)
Lemma int_str_int (n : Z) : 0 <= n -> int_digits 0 (str_int n) = Ok n.
Proof.
  intros Hn. destruct n as [| p | p]; [reflexivity | | lia].
  rewrite str_int_pos, int_digits_of_uint, DecimalPos.Unsigned.of_to. reflexivity.
Qed.

Lemma str_int_negative (p : positive) : isdigit (str_int (Z.neg p)) = false.
Proof.
  unfold str_int. cbn [Z.to_int NilZero.string_of_int].
  unfold isdigit. cbn [nonempty string_forallb]. reflexivity.
Qed.

(** [str(z).isdigit()] for an integer: it is not negative. *)
Lemma str_isdigit_int (z : Z) : str_isdigit (VInt z) = (0 <=? z).
Proof.
  cbn [str_isdigit]. destruct z as [| p | p].
  - reflexivity.
  - rewrite str_int_isdigit by lia. reflexivity.
  - rewrite str_int_negative. reflexivity.
Qed.

Lemma int_digits_nonneg (s : string) (acc n : Z) :
  0 <= acc -> int_digits acc s = Ok n -> 0 <= n.
Proof.
  revert acc. induction s as [| c s IH]; intros acc Hacc H.
  - inversion H; subst. exact Hacc.
  - cbn [int_digits] in H. destruct (isdecimal_char c) eqn:Hc; [| discriminate].
    unfold isdecimal_char, between in Hc. apply andb_true_iff in Hc as [Hlo _].
    apply N.leb_le in Hlo. apply (IH (10 * acc + (Z.of_N (code c) - 48))); [lia | exact H].
Qed.

(** A numeric year converts to a number that is not negative. *)
Lemma numeric_year_nonneg (y : value) (n : Z) :
  numeric_year y = true -> int_of y = Ok n -> 0 <= n.
Proof.
  destruct y as [| b | z | s | l | d]; cbn [numeric_year]; try discriminate.
  - rewrite str_isdigit_int. intros Hz H. inversion H; subst. apply Z.leb_le, Hz.
  - intros _ H. cbn [int_of] in H. apply (int_digits_nonneg s 0 n); [lia | exact H].
Qed.

(** ** The year-range resolver: the texts it returns *)

Lemma sibling_years_nonneg (k : key) (all_products : list dict) (raw : list Z) :
  sibling_years k all_products = Ok raw -> Forall (fun y => 0 <= y) raw.
Proof.
  revert raw. induction all_products as [| p rest IH]; intros raw H.
  - inversion H; subst. constructor.
  - cbn [sibling_years] in H.
    destruct (key_eq (identity_key p) k && numeric_year (get p "year")) eqn:Hcond;
      [| exact (IH _ H)].
    apply andb_true_iff in Hcond as [_ Hnum].
    apply bind_ok in H as (y & Hy & H). apply bind_ok in H as (years & Hyears & H).
    inversion H; subst. constructor; [| exact (IH _ Hyears)].
    exact (numeric_year_nonneg _ _ Hnum Hy).
Qed.

Lemma str_int_inj (a b : Z) : 0 <= a -> 0 <= b -> str_int a = str_int b -> a = b.
Proof.
  intros Ha Hb Heq. pose proof (int_str_int a Ha) as H.
  rewrite Heq, (int_str_int b Hb) in H. congruence.
Qed.

Lemma pairwise_impl_in {A : Type} (R S : A -> A -> Prop) (l : list A) :
  (forall a b, In a l -> In b l -> R a b -> S a b) -> pairwise R l -> pairwise S l.
Proof.
  induction l as [| x l IH]; intros H; [intros _; exact I |].
  intros [Hx Hl]. split.
  - apply Forall_forall. intros b Hb. rewrite Forall_forall in Hx.
    apply H; [left; reflexivity | right; apply list_elem_of_In, Hb | apply Hx, Hb].
  - apply IH; [| exact Hl]. intros a b Ha Hb. apply H; right; assumption.
Qed.

Lemma pairwise_neq_NoDup {A : Type} (l : list A) :
  pairwise (fun a b => a <> b) l -> List.NoDup l.
Proof.
  induction l as [| x l IH]; [constructor |].
  intros [Hx Hl]. constructor; [| exact (IH Hl)].
  intros Hin. rewrite Forall_forall in Hx.
  exact (Hx x (proj2 (list_elem_of_In _ _) Hin) eq_refl).
Qed.

(** X10. When [years_for_same_product] returns, it returns at most [cap]
    texts, no two of them equal, each the decimal text of a year that is
    not negative: decimal digits only, and [int] reads the year back.
    The years are strictly descending, so the texts are in that
    order. *)
Theorem years_for_same_product_texts
  (prod : dict) (all_products : list dict) (cap : nat) (texts : list string) :
  years_for_same_product prod all_products cap = Ok texts ->
  exists years,
    texts = map str_int years
    /\ (length texts <= cap)%nat
    /\ pairwise Z.gt years
    /\ Forall (fun y => 0 <= y
                        /\ string_forallb isdecimal_char (str_int y) = true
                        /\ int_digits 0 (str_int y) = Ok y) years
    /\ List.NoDup texts.
Proof.
  unfold years_for_same_product. intros H.
  apply bind_ok in H as (raw & Hraw & H). inversion H; subst. clear H.
  pose proof (sibling_years_nonneg _ _ _ Hraw) as Hnonneg.
  destruct (firstn_greatest cap (sorted_set_desc raw) (sorted_set_desc_sorted raw))
    as (Hsorted & Hlen & Hsub & _).
  assert (forall y, In y (firstn cap (sorted_set_desc raw)) -> 0 <= y) as Hpos.
  { intros y Hy. rewrite Forall_forall in Hnonneg.
    apply Hnonneg, list_elem_of_In, sorted_set_desc_in, Hsub, Hy. }
  exists (firstn cap (sorted_set_desc raw)).
  split; [reflexivity |]. split; [rewrite length_map; exact Hlen |].
  split; [exact Hsorted |]. split.
  - apply Forall_forall. intros y Hy. apply list_elem_of_In in Hy.
    split; [apply Hpos, Hy |].
    split; [apply str_int_decimal, Hpos, Hy | apply int_str_int, Hpos, Hy].
  - apply pairwise_neq_NoDup, pairwise_map.
    refine (pairwise_impl_in _ _ _ _ Hsorted).
    intros a b Ha Hb Hgt Heq. apply str_int_inj in Heq; [lia | auto..].
Qed.

Lemma years_for_same_product_texts_witness :
  years_for_same_product rav4_2023 sample_products 2 = Ok ["2023"; "2021"]
  /\ exists years,
       ["2023"; "2021"] = map str_int years /\ pairwise Z.gt years.
Proof.
  split; [reflexivity |].
  destruct (years_for_same_product_texts rav4_2023 sample_products 2 _ eq_refl)
    as (years & Htexts & _ & Hsorted & _).
  exists years. split; assumption.
Defined.

(** ** The preferred year *)

(** X11. A year [preferred_year] returns holds digits only, and a
    publication whose own year is numeric decides it alone: the product
    plays no part then. *)
Theorem preferred_year_digits (pub prod : dict) :
  (forall y, preferred_year pub prod = Ok (Some y) -> isdigit y = true)
  /\ (numeric_year (get pub "year") = true ->
      forall prod', preferred_year pub prod' = preferred_year pub prod).
Proof.
  split.
  - intros y. unfold preferred_year.
    destruct (numeric_year (get pub "year")) eqn:Hpub.
    { intros H. apply bind_ok in H as (n & Hn & H). inversion H; subst.
      apply str_int_isdigit. exact (numeric_year_nonneg _ _ Hpub Hn). }
    destruct (numeric_year (get prod "year")) eqn:Hprod.
    { intros H. apply bind_ok in H as (n & Hn & H). inversion H; subst.
      apply str_int_isdigit. exact (numeric_year_nonneg _ _ Hprod Hn). }
    destruct (py_or (get pub "lineOffDate") (VStr "")) as [| | | s | l | d];
      try discriminate.
    + destruct ((4 <=? String.length s)%nat && isdigit (slice_to 4 s)) eqn:Hcond;
        [| discriminate].
      intros H. inversion H; subst. apply andb_true_iff in Hcond as [_ Hd]. exact Hd.
    + destruct (4 <=? length l)%nat; discriminate.
    + destruct (4 <=? length d)%nat; discriminate.
  - intros Hpub prod'. unfold preferred_year. rewrite Hpub. reflexivity.
Qed.

(** ** Ties: the first of the best *)

Lemma filter_split {A : Type} (f : A -> bool) (l a b : list A) (x : A) :
  List.filter f l = a ++ x :: b ->
  exists a' b', l = a' ++ x :: b' /\ List.filter f a' = a /\ List.filter f b' = b.
Proof.
  revert a. induction l as [| y l IH]; intros a H.
  - destruct a; discriminate.
  - cbn [List.filter] in H. destruct (f y) eqn:Hy.
    + destruct a as [| y' a].
      * inversion H; subst. exists [], l. repeat split.
      * inversion H; subst. destruct (IH _ H2) as (a' & b' & -> & Ha & Hb).
        exists (y' :: a'), b'. cbn [List.filter]. rewrite Hy, Ha. repeat split. exact Hb.
    + destruct (IH _ H) as (a' & b' & -> & Ha & Hb).
      exists (y :: a'), b'. cbn [List.filter]. rewrite Hy. repeat split; assumption.
Qed.

Lemma date_key_inv (p : dict) (k : string) : date_key p = Ok k -> k = date_portion p.
Proof.
  unfold date_key, norm_date, date_portion. rewrite py_or_idem.
  destruct (py_or (get p "lineOffDate") (VStr "")); intros H; inversion H; reflexivity.
Qed.

Lemma keyed_inv (pubs : list dict) (ks : list (string * dict)) :
  keyed pubs = Ok ks -> ks = map (fun p => (date_portion p, p)) pubs.
Proof.
  revert ks. induction pubs as [| p pubs IH]; intros ks H.
  - inversion H; reflexivity.
  - cbn [keyed] in H. apply bind_ok in H as (k & Hk & H).
    apply bind_ok in H as (rest & Hrest & H). inversion H; subst.
    rewrite (date_key_inv _ _ Hk), (IH _ Hrest). reflexivity.
Qed.

(** The sorted list starts with the first of the entries of greatest
    key: what stands before it in the input has a smaller key. *)
Lemma head_sort_desc_first (l : list (string * dict)) :
  l <> [] ->
  exists pre best post,
    head (sort_desc l) = Some best
    /\ l = pre ++ best :: post
    /\ (forall e, In e pre -> String.ltb (fst e) (fst best) = true)
    /\ (forall e, In e post -> String.leb (fst e) (fst best) = true).
Proof.
  induction l as [| x l IH]; [congruence |]. intros _.
  cbn [sort_desc fold_right]. fold (sort_desc l). rewrite head_insert_keyed.
  destruct l as [| y l'].
  - exists [], x, []. repeat split; intros e [].
  - destruct IH as (pre & best & post & Hhead & Hsplit & Hpre & Hpost); [discriminate |].
    rewrite Hhead. destruct (String.ltb (fst x) (fst best)) eqn:Hlt.
    + exists (x :: pre), best, post. split; [reflexivity |].
      split; [rewrite Hsplit; reflexivity |]. split; [| exact Hpost].
      intros e [<- | He]; [exact Hlt | apply Hpre, He].
    + exists [], x, (y :: l'). split; [reflexivity |]. split; [reflexivity |].
      split; [intros e [] |]. intros e He. rewrite Hsplit in He.
      apply string_ltb_false in Hlt.
      apply in_app_or in He as [He | [<- | He]].
      * eapply string_leb_trans; [apply string_ltb_leb, Hpre, He | exact Hlt].
      * exact Hlt.
      * eapply string_leb_trans; [apply Hpost, He | exact Hlt].
Qed.

(** X7. The publication the selector returns is the first, in the order
    of the list, among the candidates with the greatest date portion:
    every candidate before it is strictly older, no candidate after it is
    newer. *)
Theorem pick_latest_en_om_first_of_newest (pubs : list dict) (best : dict) :
  pick_latest_en_om pubs = Ok (Some best) ->
  exists pre post,
    pubs = pre ++ best :: post
    /\ is_en_om best = true
    /\ (forall p, In p pre -> is_en_om p = true ->
          String.ltb (date_portion p) (date_portion best) = true)
    /\ (forall p, In p post -> is_en_om p = true ->
          String.leb (date_portion p) (date_portion best) = true).
Proof.
  unfold pick_latest_en_om. intros H.
  destruct (List.filter is_en_om pubs) as [| p0 oms0] eqn:Hf; [discriminate |].
  rewrite <- Hf in H. apply bind_ok in H as (ks & Hks & H).
  apply keyed_inv in Hks. subst ks. inversion H as [Hhead]. clear H.
  destruct (head_sort_desc_first (map (fun p => (date_portion p, p)) (List.filter is_en_om pubs)))
    as (pre & b & post & Hb & Hsplit & Hpre & Hpost).
  { rewrite Hf. discriminate. }
  assert (snd b = best) as Hbest.
  { destruct (sort_desc _) as [| e rest]; [discriminate |].
    cbn in Hb, Hhead. congruence. }
  apply map_eq_app in Hsplit as (pre' & rest' & Homs & Hpre' & Hrest').
  apply map_eq_cons in Hrest' as (b' & post' & -> & Hb' & Hpost').
  subst b pre post. cbn [snd fst] in *. subst b'.
  assert (is_en_om best = true) as Hom.
  { assert (In best (List.filter is_en_om pubs)) as Hin
      by (rewrite Homs; apply in_or_app; right; left; reflexivity).
    apply filter_In in Hin. tauto. }
  apply filter_split in Homs as (pre'' & post'' & Hpubs & Hfpre & Hfpost).
  exists pre'', post''. split; [exact Hpubs |]. split; [exact Hom |].
  split.
  - intros p Hp Hp_om. apply (Hpre (date_portion p, p)).
    apply in_map_iff. exists p. split; [reflexivity |].
    rewrite <- Hfpre. apply filter_In. auto.
  - intros p Hp Hp_om. apply (Hpost (date_portion p, p)).
    apply in_map_iff. exists p. split; [reflexivity |].
    rewrite <- Hfpost. apply filter_In. auto.
Qed.

Lemma rank_lt_trans (a b c : rank) :
  rank_ltb a b = true -> rank_ltb b c = true -> rank_ltb a c = true.
Proof.
  rewrite !rank_ltb_iff.
  destruct a as [[[ya ma] da] na], b as [[[yb mb] db] nb], c as [[[yc mc] dc] nc].
  unfold rank_lt. lia.
Qed.

Lemma rank_le_lt_trans (a b c : rank) :
  rank_ltb b a = false -> rank_ltb b c = true -> rank_ltb a c = true.
Proof.
  rewrite rank_ltb_false_iff, !rank_ltb_iff.
  destruct a as [[[ya ma] da] na], b as [[[yb mb] db] nb], c as [[[yc mc] dc] nc].
  unfold rank_lt. lia.
Qed.

Section MergeOrder.

Variable iso : string -> option date.

Lemma max_loop_first (items pre0 post0 : list dict) (best : dict) :
  Forall (fun p => year_ok p = true) items ->
  (forall x, In x pre0 -> rank_ltb (rank_of iso x) (rank_of iso best) = true) ->
  (forall x, In x post0 -> rank_ltb (rank_of iso best) (rank_of iso x) = false) ->
  exists r pre post,
    max_loop iso best (rank_of iso best) items = Ok r
    /\ pre0 ++ best :: post0 ++ items = pre ++ r :: post
    /\ (forall x, In x pre -> rank_ltb (rank_of iso x) (rank_of iso r) = true)
    /\ (forall x, In x post -> rank_ltb (rank_of iso r) (rank_of iso x) = false).
Proof.
  intros Hall. revert pre0 post0 best.
  induction Hall as [| x items Hx _ IH]; intros pre0 post0 best Hpre Hpost.
  - exists best, pre0, post0. rewrite app_nil_r. repeat split; assumption.
  - cbn [max_loop]. rewrite (rank_for_merge_ok iso x Hx). cbn [bind].
    destruct (rank_ltb (rank_of iso best) (rank_of iso x)) eqn:Hlt.
    + destruct (IH (pre0 ++ best :: post0) [] x) as (r & pre & post & Hrun & Hsplit & H1 & H2).
      * intros y Hy. apply in_app_or in Hy as [Hy | [<- | Hy]].
        -- eapply rank_lt_trans; [apply Hpre, Hy | exact Hlt].
        -- exact Hlt.
        -- eapply rank_le_lt_trans; [apply Hpost, Hy | exact Hlt].
      * intros y [].
      * exists r, pre, post. split; [exact Hrun |]. split; [| split; assumption].
        rewrite <- Hsplit, <- !app_assoc. reflexivity.
    + destruct (IH pre0 (post0 ++ [x]) best) as (r & pre & post & Hrun & Hsplit & H1 & H2).
      * exact Hpre.
      * intros y Hy. apply in_app_or in Hy as [Hy | [<- | []]]; [apply Hpost, Hy | exact Hlt].
      * exists r, pre, post. split; [exact Hrun |]. split; [| split; assumption].
        rewrite <- Hsplit, <- !app_assoc. reflexivity.
Qed.

Lemma max_by_rank_first (items : list dict) (r : dict) :
  max_by_rank iso items = Ok r ->
  exists pre post,
    items = pre ++ r :: post
    /\ (forall x, In x pre -> rank_ltb (rank_of iso x) (rank_of iso r) = true)
    /\ (forall x, In x post -> rank_ltb (rank_of iso r) (rank_of iso x) = false).
Proof.
  intros Hrun. pose proof (max_by_rank_inv iso _ _ Hrun) as Hall.
  destruct items as [| x items]; [discriminate |].
  inversion Hall as [| ? ? Hx Hrest]; subst.
  unfold max_by_rank in Hrun. rewrite (rank_for_merge_ok iso x Hx) in Hrun.
  cbn [bind] in Hrun.
  destruct (max_loop_first items [] [] x Hrest) as (r' & pre & post & Hrun' & Hsplit & H1 & H2);
    [intros y [] | intros y [] |].
  assert (r' = r) as -> by congruence.
  exists pre, post. repeat split; assumption.
Qed.

(** X8. Of the products of a group that share the best rank, merge
    returns the first in the order of the list: in the list, every
    product of its group before the returned one ranks strictly lower,
    and no product of its group after it ranks higher. *)
Theorem merge_products_latest_first_of_best (all_products merged : list dict) :
  merge_products_latest iso all_products = Ok merged ->
  forall r, In r merged ->
    exists pre post,
      all_products = pre ++ r :: post
      /\ (forall x, In x pre -> same_product x r = true ->
            rank_lt (rank_of iso x) (rank_of iso r))
      /\ (forall x, In x post -> same_product x r = true ->
            ~ rank_lt (rank_of iso r) (rank_of iso x)).
Proof.
  intros Hrun r Hr.
  destruct (merge_products_latest_inv iso _ _ Hrun) as (Hok & groups & Hinv & Hmax).
  destruct (product_ok_parts _ Hok) as [Hhash _]. rewrite Forall_forall in Hhash.
  destruct (Forall2_in_r _ _ _ r Hmax Hr) as (g & Hg & Hbest).
  destruct Hinv as (Hall & _ & _). rewrite Forall_forall in Hall.
  destruct (Hall g) as (Hhg & Hitems & _); [apply list_elem_of_In, Hg |].
  destruct (max_by_rank_first _ _ Hbest) as (pre & post & Hsplit & Hpre & Hpost).
  rewrite Hitems in Hsplit.
  assert (In r all_products /\ key_eq (fst g) (identity_key r) = true) as [Hrin Hgr].
  { apply (proj1 (filter_In (fun p => key_eq (fst g) (identity_key p)) r all_products)).
    rewrite Hsplit. apply in_or_app. right; left; reflexivity. }
  apply filter_split in Hsplit as (pre' & post' & Hlist & Hfpre & Hfpost).
  assert (forall x, In x all_products -> same_product x r = true ->
            key_eq (fst g) (identity_key x) = true) as Hgroup.
  { intros x Hx Hsame. unfold same_product in Hsame.
    assert (key_hashable (identity_key x) = true) as Hhx
      by (apply Hhash, list_elem_of_In, Hx).
    assert (key_hashable (identity_key r) = true) as Hhr
      by (apply Hhash, list_elem_of_In, Hrin).
    apply (key_eq_trans _ (identity_key r) _ Hhr); [exact Hgr |].
    apply key_eq_sym; assumption. }
  exists pre', post'. split; [exact Hlist |]. split.
  - intros x Hx Hsame. apply rank_ltb_iff, Hpre. rewrite <- Hfpre.
    apply filter_In. split; [exact Hx |]. apply Hgroup; [| exact Hsame].
    rewrite Hlist. apply in_or_app. left; exact Hx.
  - intros x Hx Hsame. apply rank_ltb_false_iff, Hpost. rewrite <- Hfpost.
    apply filter_In. split; [exact Hx |]. apply Hgroup; [| exact Hsame].
    rewrite Hlist. apply in_or_app. right; right; exact Hx.
Qed.

End MergeOrder.

Lemma merge_products_latest_first_of_best_witness :
  merge_products_latest iso_ymd sample_products = Ok [rav4_2021; yaris_2022]
  /\ exists pre post,
       sample_products = pre ++ rav4_2021 :: post
       /\ (forall x, In x pre -> same_product x rav4_2021 = true ->
             rank_lt (rank_of iso_ymd x) (rank_of iso_ymd rav4_2021)).
Proof.
  split; [reflexivity |].
  destruct (merge_products_latest_first_of_best iso_ymd sample_products _ eq_refl
              rav4_2021) as (pre & post & Hsplit & Hpre & _); [left; reflexivity |].
  exists pre, post. split; assumption.
Defined.

(** ** Merge: the order of the result *)

Lemma groups_append_keys (groups : list (key * list dict)) (k : key) (prod : dict) :
  map fst (groups_append groups k prod) = map fst groups
  \/ (map fst (groups_append groups k prod) = map fst groups ++ [k]
      /\ Forall (fun k' => key_eq k' k = false) (map fst groups)).
Proof.
  induction groups as [| [k0 items] groups IH]; cbn [groups_append map fst].
  - right. split; [reflexivity | constructor].
  - destruct (key_eq k0 k) eqn:He; cbn [map fst]; [left; reflexivity |].
    destruct IH as [-> | [-> Hall]]; [left; reflexivity |].
    right. split; [reflexivity | constructor; assumption].
Qed.

Lemma appears_before_snoc (seen : list dict) (p : dict) (k1 k2 : key) :
  appears_before seen k1 k2 -> appears_before (seen ++ [p]) k1 k2.
Proof.
  intros (before & x & after & -> & Hx & Hbefore).
  exists before, x, (after ++ [p]). split; [| split; assumption].
  rewrite <- app_assoc. reflexivity.
Qed.

Lemma appears_before_step (seen : list dict) (groups : list (key * list dict))
  (prod : dict) :
  key_hashable (identity_key prod) = true ->
  group_inv seen groups ->
  pairwise (appears_before seen) (map fst groups) ->
  pairwise (appears_before (seen ++ [prod]))
    (map fst (groups_append groups (identity_key prod) prod)).
Proof.
  intros Hh Hinv Hord.
  assert (pairwise (appears_before (seen ++ [prod])) (map fst groups)) as Hord'.
  { refine (pairwise_impl_in _ _ _ _ Hord). intros a b _ _. apply appears_before_snoc. }
  destruct (groups_append_keys groups (identity_key prod) prod) as [-> | [-> Hnew]];
    [exact Hord' |].
  apply pairwise_app. split; [exact Hord' |]. split; [split; [constructor | exact I] |].
  intros k1 k Hk1 [<- | []].
  destruct Hinv as (Hall & _ & Hcov).
  apply in_map_iff in Hk1 as (g & <- & Hg).
  rewrite Forall_forall in Hall.
  destruct (Hall g) as (Hhg & Hitems & Hne); [apply list_elem_of_In, Hg |].
  destruct (snd g) as [| x items] eqn:Hsnd; [congruence |].
  assert (In x seen /\ key_eq (fst g) (identity_key x) = true) as [Hx Hgx].
  { apply (proj1 (filter_In (fun p => key_eq (fst g) (identity_key p)) x seen)).
    rewrite <- Hitems. left; reflexivity. }
  apply in_split in Hx as (before & after & ->).
  exists before, x, (after ++ [prod]). split; [rewrite <- app_assoc; reflexivity |].
  split; [exact Hgx |].
  intros y Hy.
  destruct (Hcov y) as (Hhy & k' & Hk' & Hky); [apply in_or_app; left; exact Hy |].
  destruct (key_eq (identity_key prod) (identity_key y)) eqn:Hpy; [| reflexivity].
  exfalso. rewrite Forall_forall in Hnew.
  assert (key_eq k' (identity_key prod) = false) as Hfalse
    by (apply Hnew, list_elem_of_In, Hk').
  assert (key_eq k' (identity_key prod) = true) as Htrue.
  { apply (key_eq_trans _ (identity_key y) _ Hhy); [exact Hky |].
    apply key_eq_sym; assumption. }
  congruence.
Qed.

Lemma group_products_order (all_products seen : list dict)
  (groups groups' : list (key * list dict)) :
  group_products all_products groups = Ok groups' ->
  group_inv seen groups ->
  pairwise (appears_before seen) (map fst groups) ->
  pairwise (appears_before (seen ++ all_products)) (map fst groups').
Proof.
  revert seen groups.
  induction all_products as [| prod rest IH]; intros seen groups Hrun Hinv Hord.
  - cbn in Hrun. inversion Hrun; subst. rewrite app_nil_r. exact Hord.
  - cbn [group_products] in Hrun.
    destruct (key_hashable (identity_key prod)) eqn:Hh; [| discriminate].
    replace (seen ++ prod :: rest) with ((seen ++ [prod]) ++ rest)
      by (rewrite <- app_assoc; reflexivity).
    apply (IH _ _ Hrun).
    + apply group_inv_step; assumption.
    + apply appears_before_step; assumption.
Qed.

(** X9. Merge returns the representatives in the order in which their
    groups begin in the list: of two returned products, the group of the
    earlier one has a product in the list before every product of the
    group of the later one. So the first products of the result are those
    of the groups met first. *)
Theorem merge_products_latest_order
  (iso : string -> option date) (all_products merged : list dict) :
  merge_products_latest iso all_products = Ok merged ->
  pairwise (group_begins_before all_products) merged.
Proof.
  intros Hrun.
  destruct (merge_products_latest_inv iso _ _ Hrun) as (Hok & _).
  destruct (product_ok_parts _ Hok) as [Hhash Hyear].
  unfold merge_products_latest in Hrun.
  destruct (group_products all_products []) as [groups |] eqn:Hgroups; [| discriminate].
  cbn [bind] in Hrun.
  destruct (group_products_inv _ [] _ _ Hgroups group_inv_nil) as [Hinv _].
  pose proof (group_products_order _ [] _ _ Hgroups group_inv_nil I) as Hord.
  cbn [app] in Hinv, Hord.
  pose proof (merged_represents iso _ _ _ Hyear Hinv (best_of_groups_spec iso _ _ Hrun))
    as Hrep.
  apply (proj1 (pairwise_map (appears_before all_products) fst groups)) in Hord.
  refine (pairwise_Forall2 _ _ _ _ _ _ Hrep Hord).
  rewrite Forall_forall in Hhash.
  intros g g' a b (Hhg & Ha & Hga & _) (Hhg' & Hb & Hgb & _)
    (before & x & after & Hsplit & Hgx & Hbefore).
  exists before, x, after. split; [exact Hsplit |].
  assert (forall y, In y all_products -> key_hashable (identity_key y) = true) as Hh
    by (intros y Hy; apply Hhash, list_elem_of_In, Hy).
  split.
  - unfold same_product. apply (key_eq_trans _ (fst g) _ Hhg); [| exact Hga].
    apply key_eq_sym; [exact Hhg | exact Hgx].
  - intros y Hy. unfold same_product.
    destruct (key_eq (identity_key y) (identity_key b)) eqn:Hyb; [| reflexivity].
    exfalso.
    assert (In y all_products) as Hyin
      by (rewrite Hsplit; apply in_or_app; left; exact Hy).
    assert (key_eq (fst g') (identity_key y) = true) as Htrue.
    { apply (key_eq_trans _ (identity_key b) _ (Hh b Hb)); [exact Hgb |].
      apply key_eq_sym; [apply Hh, Hyin | exact Hyb]. }
    rewrite (Hbefore y Hy) in Htrue. discriminate.
Qed.

Lemma merge_products_latest_order_witness :
  merge_products_latest iso_ymd sample_products = Ok [rav4_2021; yaris_2022]
  /\ pairwise (group_begins_before sample_products) [rav4_2021; yaris_2022].
Proof.
  split; [reflexivity |].
  apply (merge_products_latest_order iso_ymd sample_products _ eq_refl).
Defined.

(** ** The SQL tool: what reaches the database *)

Lemma rstrip_idem (drop : ascii -> bool) (s : string) :
  rstrip drop (rstrip drop s) = rstrip drop s.
Proof.
  induction s as [| c s IH]; [reflexivity |].
  cbn [rstrip]. destruct (rstrip drop s) as [| x r] eqn:Hr.
  - destruct (drop c) eqn:Hc; [reflexivity |]. cbn [rstrip]. rewrite Hc. reflexivity.
  - change (rstrip drop (String c (String x r)))
      with (match rstrip drop (String x r) with
            | EmptyString => if drop c then EmptyString else String c EmptyString
            | String y r' => String c (String y r')
            end).
    rewrite IH. reflexivity.
Qed.

Lemma lower_char_s (c : ascii) : lower_char c = "s"%char -> isspace_char c = false.
Proof.
  destruct c as [[] [] [] [] [] [] [] []]; vm_compute; intros H;
    first [discriminate H | reflexivity].
Qed.

(** X12. [forward] executes at most one statement. The statement it
    executes is the query with the white space around it and the
    semicolons at its end stripped: it begins with [select] in some
    letter case, so with no white space, and it does not end in a
    semicolon. *)
Theorem forward_executes_trimmed
  (run_select : string -> Z -> result string) (query : option string) (limit : value)
  (q : string) (others : list string) :
  snd (forward run_select query limit) = q :: others ->
  others = []
  /\ (exists text,
        query = Some text /\ q = rstrip is_semicolon (strip isspace_char text))
  /\ startswith "select" (lower q) = true
  /\ lstrip isspace_char q = q
  /\ rstrip is_semicolon q = q.
Proof.
  unfold forward. destruct query as [text |]; [| discriminate].
  destruct (negb (nonempty text) || negb (nonempty (strip isspace_char text)));
    [discriminate |].
  destruct (startswith "select" (lower (rstrip is_semicolon (strip isspace_char text))))
    eqn:Hsel; cbn [negb]; [| discriminate].
  destruct (row_limit limit); [| discriminate].
  cbn [snd]. intros H. inversion H; subst. clear H.
  split; [reflexivity |]. split; [exists text; split; reflexivity |].
  split; [exact Hsel |]. split; [| apply rstrip_idem].
  destruct (rstrip is_semicolon (strip isspace_char text)) as [| c r]; [reflexivity |].
  cbn [lower string_map] in Hsel. apply startswith_cons in Hsel as [Hc _].
  cbn [lstrip]. rewrite (lower_char_s c); [reflexivity | congruence].
Qed.

Lemma forward_executes_trimmed_witness :
  snd (forward one_row_db (Some "  SELECT 1 ;; ") VNone) = ["SELECT 1 "]
  /\ rstrip is_semicolon "SELECT 1 " = "SELECT 1 ".
Proof.
  split; [reflexivity |].
  apply (forward_executes_trimmed one_row_db (Some "  SELECT 1 ;; ") VNone _ []
           eq_refl).
Defined.

(** ** The page parser: nothing but what the payload holds *)

Lemma value_induction (P : value -> Prop) :
  P VNone ->
  (forall b, P (VBool b)) ->
  (forall z, P (VInt z)) ->
  (forall s, P (VStr s)) ->
  (forall l, Forall P l -> P (VList l)) ->
  (forall d, Forall (fun e => P (snd e)) d -> P (VDict d)) ->
  forall v, P v.
Proof.
  intros HNone HBool HInt HStr HList HDict.
  exact (fix F (v : value) : P v :=
           match v with
           | VNone => HNone
           | VBool b => HBool b
           | VInt z => HInt z
           | VStr s => HStr s
           | VList l =>
               HList l ((fix G (l : list value) : Forall P l :=
                           match l with
                           | [] => @List.Forall_nil _ P
                           | x :: r => @List.Forall_cons _ P x r (F x) (G r)
                           end) l)
           | VDict d =>
               HDict d ((fix G (d : list (string * value))
                           : Forall (fun e => P (snd e)) d :=
                           match d with
                           | [] => @List.Forall_nil _ _
                           | (k, x) :: r =>
                               @List.Forall_cons _ (fun e => P (snd e)) (k, x) r
                                 (F x) (G r)
                           end) d)
           end).
Qed.

Lemma inside_trans (root a b : value) : inside root a -> inside a b -> inside root b.
Proof.
  intros Ha Hb. induction Hb as [| l v _ IH Hin | d k v _ IH Hin].
  - exact Ha.
  - exact (inside_item root l v IH Hin).
  - exact (inside_entry root d k v IH Hin).
Qed.

Lemma visit_list_inv (l : list value) (r : dict) :
  In r (visit (VList l)) -> exists v, In v l /\ In r (visit v).
Proof.
  induction l as [| a l IH]; [intros [] |].
  cbn [visit]. intros H. apply in_app_or in H as [H | H].
  - exists a. split; [left; reflexivity | exact H].
  - destruct (IH H) as (v & Hv & Hr). exists v. split; [right |]; assumption.
Qed.

Lemma visit_dict_inv (d : dict) (r : dict) :
  In r (visit (VDict d)) ->
  (has_key "partNumber" d = true /\ r = publication_of d)
  \/ exists k v, In (k, v) d /\ In r (visit v).
Proof.
  cbn [visit]. intros H. apply in_app_or in H as [H | H].
  - destruct (has_key "partNumber" d); [| destruct H].
    destruct H as [<- | []]. left. split; reflexivity.
  - right. induction d as [| [k a] d IH]; [destruct H |].
    apply in_app_or in H as [H | H].
    + exists k, a. split; [left; reflexivity | exact H].
    + destruct (IH H) as (k' & v & Hin & Hr).
      exists k', v. split; [right |]; assumption.
Qed.

(** Every record of the walk comes from a dict of the payload that has
    the key [partNumber]. *)
Lemma visit_sound (root : value) (r : dict) :
  In r (visit root) ->
  exists d,
    inside root (VDict d) /\ has_key "partNumber" d = true /\ r = publication_of d.
Proof.
  revert r. induction root as [| b | z | s | l IH | d IH] using value_induction;
    intros r Hr; try (destruct Hr).
  - apply visit_list_inv in Hr as (v & Hv & Hr).
    rewrite Forall_forall in IH.
    destruct (IH v (proj2 (list_elem_of_In _ _) Hv) r Hr) as (d & Hin & Hkey & Heq).
    exists d. split; [| split; assumption].
    eapply inside_trans; [| exact Hin].
    exact (inside_item _ l v (inside_root _) Hv).
  - apply visit_dict_inv in Hr as [[Hkey ->] | (k & v & Hv & Hr)].
    + exists d. split; [apply inside_root | split; [exact Hkey | reflexivity]].
    + rewrite Forall_forall in IH.
      destruct (IH (k, v) (proj2 (list_elem_of_In _ _) Hv) r Hr)
        as (d' & Hin & Hkey & Heq).
      exists d'. split; [| split; assumption].
      eapply inside_trans; [| exact Hin].
      exact (inside_entry _ d k v (inside_root _) Hv).
Qed.

Lemma py_or_default_text (a b : value) :
  truthy (py_or (py_or a b) (VStr "")) = true
  \/ py_or (py_or a b) (VStr "") = VStr "".
Proof.
  destruct (truthy (py_or a b)) eqn:H.
  - left. unfold py_or at 1. rewrite H. exact H.
  - right. unfold py_or at 1. rewrite H. reflexivity.
Qed.

(** X5. The parser invents nothing: every record it returns is the
    record of a dict of the payload that has the key [partNumber], with
    a part number that is true. In such a record the line-off date, the
    model type and the model identifier are never [None]: each is a true
    value or the empty text. A payload without such a dict gives the
    empty list. *)
Theorem collect_publications_sound (next_data : value) (pubs : list dict) :
  collect_publications next_data = Ok pubs ->
  (forall r, In r pubs ->
     (exists d,
        inside next_data (VDict d)
        /\ has_key "partNumber" d = true
        /\ truthy (get d "partNumber") = true
        /\ r = publication_of d)
     /\ Forall (fun k => truthy (get r k) = true \/ get r k = VStr "")
          ["lineOffDate"; "modelType"; "ngtdModelId"])
  /\ ((forall d, inside next_data (VDict d) -> has_key "partNumber" d = false) ->
      pubs = []).
Proof.
  intros Hrun. destruct (collect_publications_inv _ _ Hrun) as (uniq & -> & Hinv).
  assert (forall r, In r (map snd uniq) ->
            exists d,
              inside next_data (VDict d)
              /\ has_key "partNumber" d = true
              /\ truthy (get d "partNumber") = true
              /\ r = publication_of d) as Hsound.
  { intros r Hr.
    destruct (uniq_inv_entry _ _ r Hinv Hr) as (k & _ & _ & Hl & _).
    destruct (last_with_some _ _ _ Hl) as (Hseen & Ht & _).
    destruct (visit_sound _ _ Hseen) as (d & Hin & Hkey & ->).
    exists d. repeat split; assumption. }
  split.
  - intros r Hr. split; [exact (Hsound r Hr) |].
    destruct (Hsound r Hr) as (d & _ & _ & _ & ->).
    constructor; [apply py_or_default_text |].
    constructor; [apply py_or_default_text |].
    constructor; [apply py_or_default_text | constructor].
  - intros Hnone. destruct (map snd uniq) as [| r rest]; [reflexivity |].
    destruct (Hsound r (or_introl eq_refl)) as (d & Hin & Hkey & _).
    rewrite (Hnone d Hin) in Hkey. discriminate.
Qed.

Lemma collect_publications_sound_witness :
  exists pubs,
    collect_publications sample_payload = Ok pubs
    /\ forall r, In r pubs ->
         exists d, inside sample_payload (VDict d) /\ r = publication_of d.
Proof.
  eexists. split; [reflexivity |].
  intros r Hr.
  destruct (collect_publications_sound sample_payload _ eq_refl) as [Hsound _].
  destruct (Hsound r Hr) as [(d & Hin & _ & _ & Heq) _].
  exists d. split; assumption.
Defined.

Lemma pick_latest_en_om_first_of_newest_witness :
  pick_latest_en_om sample_publications = Ok (Some om_2022)
  /\ exists pre post,
       sample_publications = pre ++ om_2022 :: post /\ is_en_om om_2022 = true.
Proof.
  split; [reflexivity |].
  destruct (pick_latest_en_om_first_of_newest sample_publications om_2022 eq_refl)
    as (pre & post & Hsplit & Hom & _).
  exists pre, post. split; assumption.
Defined.

(** ** The publications URL *)

Lemma string_forallb_flat_map (P : ascii -> bool) (f : ascii -> string) (s : string) :
  (forall c, string_forallb P (f c) = true) ->
  string_forallb P (string_flat_map f s) = true.
Proof.
  intros H. induction s as [| c s IH]; [reflexivity |].
  cbn [string_flat_map]. rewrite string_forallb_app, H, IH. reflexivity.
Qed.

Lemma quote_bytes_value_chars (c : ascii) :
  string_forallb value_char (String.concat "" (map quote_byte (utf8 c))) = true.
Proof. destruct c as [[] [] [] [] [] [] [] []]; vm_compute; reflexivity. Qed.

(** What [quote] returns holds unreserved characters, slashes and
    escapes only. *)
Lemma quote_value_chars (s : string) : string_forallb value_char (quote s) = true.
Proof. apply string_forallb_flat_map, quote_bytes_value_chars. Qed.

Lemma count_char_app (c : ascii) (a b : string) :
  count_char c (a ++ b) = (count_char c a + count_char c b)%nat.
Proof.
  induction a as [| d a IH]; [reflexivity |].
  simpl. rewrite IH. lia.
Qed.

Lemma count_char_none (P : ascii -> bool) (c : ascii) (s : string) :
  P c = false -> string_forallb P s = true -> count_char c s = 0%nat.
Proof.
  intros Hc. induction s as [| d s IH]; [reflexivity |].
  cbn [string_forallb count_char]. rewrite andb_true_iff. intros [Hd Hs].
  rewrite (IH Hs). destruct (Ascii.eqb_spec c d) as [-> |]; [congruence | reflexivity].
Qed.

(** The text of a value that is true is not empty. *)
Lemma py_str_truthy (v : value) : truthy v = true -> nonempty (py_str v) = true.
Proof.
  destruct v as [| [] | z | s | l | d]; try discriminate; try reflexivity.
  - destruct z as [| p | p]; [discriminate | | reflexivity].
    intros _. destruct (str_int_decimal (Z.pos p)) as [H _]; [lia | exact H].
  - intros H. exact H.
Qed.

Lemma truthy_or_text (v : value) : truthy (py_or v (VStr "")) = truthy v.
Proof. unfold py_or. destruct (truthy v) eqn:H; [exact H | reflexivity]. Qed.

Lemma nonempty_str_or_text (v : value) :
  nonempty (py_str (py_or v (VStr ""))) = truthy v.
Proof.
  unfold py_or. destruct (truthy v) eqn:H; [apply py_str_truthy, H | reflexivity].
Qed.

Lemma text_or_false_or_text (v : value) :
  text_or_false (py_or v (VStr "")) = text_or_false v.
Proof.
  unfold py_or. destruct (truthy v) eqn:H; [reflexivity |].
  destruct v; cbn [text_or_false]; try rewrite H; reflexivity.
Qed.

(** *** Which products have a URL *)

Lemma query_parts_app (a b : list (string * value)) :
  query_parts (a ++ b)
  = do pa <- query_parts a; do pb <- query_parts b; Ok (pa ++ pb).
Proof.
  induction a as [| [k v] a IH]; cbn [query_parts app bind].
  - destruct (query_parts b); reflexivity.
  - destruct (truthy v); [| exact IH].
    destruct (quote_value v) as [qv | e]; cbn [bind]; [| reflexivity].
    rewrite IH. destruct (query_parts a) as [pa | e]; cbn [bind]; [| reflexivity].
    destruct (query_parts b); reflexivity.
Qed.

Lemma query_parts_texts (params : list (string * value)) :
  Forall (fun kv => text_or_false (snd kv) = true) params ->
  exists parts, query_parts params = Ok parts.
Proof.
  induction 1 as [| [k v] params Hv _ [parts IH]]; [exists []; reflexivity |].
  cbn [query_parts snd] in *. destruct (truthy v) eqn:Ht; [| exists parts; exact IH].
  destruct v; cbn [text_or_false] in Hv; try (rewrite Ht in Hv; discriminate).
  cbn [quote_value bind]. rewrite IH. cbn [bind]. eauto.
Qed.

Lemma query_parts_no_text (params : list (string * value)) :
  Exists (fun kv => text_or_false (snd kv) = false) params ->
  query_parts params = Raise TypeError.
Proof.
  induction params as [| [k v] params IH]; intros H; [inversion H |].
  cbn [query_parts].
  assert (truthy v = false -> query_parts params = Raise TypeError) as Hrest.
  { intros Hf. apply IH. inversion H as [? ? Hv | ? ? Hin]; subst; [| exact Hin].
    cbn [snd] in Hv. destruct v; cbn [text_or_false] in Hv; try discriminate;
      rewrite Hf in Hv; discriminate. }
  destruct (truthy v) eqn:Ht; [| apply Hrest; reflexivity].
  destruct v as [| b | z | s | l | d]; cbn [quote_value bind]; try reflexivity.
  rewrite IH; [reflexivity |].
  inversion H as [? ? Hv | ? ? Hin]; subst; [discriminate Hv | exact Hin].
Qed.

Lemma year_params_texts (i : nat) (years : list string) :
  Forall (fun kv => text_or_false (snd kv) = true) (year_params i years).
Proof.
  revert i. induction years as [| y years IH]; intros i; cbn [year_params];
    constructor; [reflexivity | apply IH].
Qed.

(** X6. [build_publications_url] returns a URL exactly for a product
    whose brand, model and model type are each a text or false (missing,
    [None], empty, zero); when one of them is true and is no text, it
    raises [TypeError]. The model id may be any value, and neither the
    years nor the language matter. *)
Theorem build_publications_url_needs_texts
  (prod : dict) (years : list string) (language : string) :
  if text_or_false (get prod "brand") && text_or_false (get prod "model")
     && text_or_false (get prod "modelType")
  then exists url, build_publications_url prod years language = Ok url
  else build_publications_url prod years language = Raise TypeError.
Proof.
  unfold build_publications_url.
  set (brand := get prod "brand"). set (model := get prod "model").
  set (model_type := get prod "modelType"). set (id := get prod "ngtdModelId").
  destruct (text_or_false brand && text_or_false model && text_or_false model_type)
    eqn:Hok.
  - apply andb_true_iff in Hok as [Hok Hmt]. apply andb_true_iff in Hok as [Hb Hm].
    destruct (query_parts_texts
                ([("brand", py_or brand (VStr "")); ("model", py_or model (VStr ""));
                  ("modelType", py_or (py_or model_type model) (VStr ""));
                  ("ngtdModelId", VStr (py_str (py_or id (VStr ""))));
                  ("language", VStr language)] ++ year_params 0 years))
      as [parts Hparts].
    { apply Forall_app. split; [| apply year_params_texts].
      repeat (apply List.Forall_cons); cbn [snd];
        rewrite ?text_or_false_or_text; try assumption; try reflexivity;
        [| apply List.Forall_nil].
      unfold py_or at 1. destruct (truthy model_type); assumption. }
    rewrite Hparts. cbn [bind]. eauto.
  - rewrite query_parts_no_text; [reflexivity |].
    apply Exists_app. left.
    destruct (text_or_false brand) eqn:Hb.
    2: { apply Exists_cons_hd. cbn [snd]. rewrite text_or_false_or_text. exact Hb. }
    apply Exists_cons_tl.
    destruct (text_or_false model) eqn:Hm.
    2: { apply Exists_cons_hd. cbn [snd]. rewrite text_or_false_or_text. exact Hm. }
    apply Exists_cons_tl, Exists_cons_hd. cbn [snd andb] in *.
    rewrite text_or_false_or_text. unfold py_or.
    destruct (truthy model_type) eqn:Ht; [exact Hok |].
    destruct model_type; cbn [text_or_false] in Hok; try discriminate;
      rewrite Ht in Hok; discriminate.
Qed.

(** *** One field for each parameter *)

Lemma join_count (c : ascii) (sep : string) (parts : list string) (n : nat) :
  Forall (fun p => count_char c p = n) parts ->
  count_char c (join sep parts)
  = (n * length parts + count_char c sep * pred (length parts))%nat.
Proof.
  induction 1 as [| p parts Hp _ IH]; [cbn; lia |].
  destruct parts as [| q parts]; [cbn [join length pred]; lia |].
  change (join sep (p :: q :: parts)) with (p ++ sep ++ join sep (q :: parts))%string.
  rewrite !count_char_app, IH, Hp. cbn [length pred]. lia.
Qed.

Lemma decimal_unreserved (c : ascii) : isdecimal_char c = true -> unreserved_char c = true.
Proof. unfold isdecimal_char, unreserved_char. intros ->. reflexivity. Qed.

Lemma year_name_chars (i : nat) :
  string_forallb name_of_field_char ("year[" ++ str_int (Z.of_nat i) ++ "]") = true.
Proof.
  rewrite !string_forallb_app.
  destruct (str_int_decimal (Z.of_nat i)) as [_ H]; [lia |].
  rewrite (string_forallb_impl isdecimal_char name_of_field_char (str_int (Z.of_nat i)));
    [reflexivity | | exact H].
  intros c Hc. unfold name_of_field_char. rewrite (decimal_unreserved c Hc). reflexivity.
Qed.

(** A part [name=value] of the query: one [=], no [&], and only
    characters of a query. *)
Lemma part_shape (k qv : string) :
  string_forallb name_of_field_char k = true ->
  string_forallb value_char qv = true ->
  string_forallb query_char (k ++ "=" ++ qv) = true
  /\ count_char "=" (k ++ "=" ++ qv) = 1%nat
  /\ count_char "&" (k ++ "=" ++ qv) = 0%nat.
Proof.
  intros Hk Hv. split; [| split].
  - rewrite !string_forallb_app.
    rewrite (string_forallb_impl name_of_field_char query_char k); [| | exact Hk].
    + rewrite (string_forallb_impl value_char query_char qv); [reflexivity | | exact Hv].
      intros c Hc. unfold query_char. rewrite Hc. reflexivity.
    + intros c Hc. unfold query_char. rewrite Hc. apply orb_true_iff. left.
      apply orb_true_r.
  - rewrite !count_char_app.
    rewrite (count_char_none name_of_field_char "=" k eq_refl Hk).
    rewrite (count_char_none value_char "=" qv eq_refl Hv). reflexivity.
  - rewrite !count_char_app.
    rewrite (count_char_none name_of_field_char "&" k eq_refl Hk).
    rewrite (count_char_none value_char "&" qv eq_refl Hv). reflexivity.
Qed.

Lemma query_parts_shape (params : list (string * value)) (parts : list string) :
  Forall (fun kv => string_forallb name_of_field_char (fst kv) = true) params ->
  query_parts params = Ok parts ->
  length parts = length (List.filter (fun kv => truthy (snd kv)) params)
  /\ Forall (fun p => string_forallb query_char p = true
                      /\ count_char "=" p = 1%nat /\ count_char "&" p = 0%nat) parts.
Proof.
  intros Hnames. revert parts.
  induction Hnames as [| [k v] params Hk _ IH]; intros parts H.
  - inversion H; subst. split; [reflexivity | constructor].
  - cbn [query_parts List.filter snd fst] in *. destruct (truthy v); [| exact (IH _ H)].
    apply bind_ok in H as (qv & Hqv & H). apply bind_ok in H as (rest & Hrest & H).
    inversion H; subst. destruct (IH rest Hrest) as [Hlen Hall].
    split; [cbn [length]; rewrite Hlen; reflexivity |].
    constructor; [| exact Hall].
    destruct v; try discriminate. inversion Hqv; subst.
    apply part_shape; [exact Hk | apply quote_value_chars].
Qed.

Lemma year_params_names (i : nat) (years : list string) :
  Forall (fun kv => string_forallb name_of_field_char (fst kv) = true)
    (year_params i years).
Proof.
  revert i. induction years as [| y years IH]; intros i; cbn [year_params];
    constructor; [apply year_name_chars | apply IH].
Qed.

Lemma year_params_with_value (i : nat) (years : list string) :
  length (List.filter (fun kv => truthy (snd kv)) (year_params i years))
  = length (List.filter nonempty years).
Proof.
  revert i. induction years as [| y years IH]; intros i; [reflexivity |].
  cbn [year_params List.filter snd truthy]. destruct (nonempty y); cbn [length];
    rewrite IH; reflexivity.
Qed.

(** X13. A URL that [build_publications_url] returns is the portal's
    publications address followed by a query that has exactly one field
    for each parameter with a value: as many [=] as there are such
    parameters, one [&] less, and apart from these separators only
    characters of an escaped value or of a parameter name. So no value,
    whatever characters it holds, adds or splits a field, and a parameter
    without a value is left out. *)
Theorem build_publications_url_fields
  (prod : dict) (years : list string) (language url : string) :
  build_publications_url prod years language = Ok url ->
  exists q,
    url = ("https://customerportal.tweddle-aws.eu/publications?" ++ q)%string
    /\ string_forallb query_char q = true
    /\ count_char "=" q = url_fields prod years language
    /\ count_char "&" q = pred (url_fields prod years language).
Proof.
  unfold build_publications_url. intros H.
  apply bind_ok in H as (parts & Hparts & H). inversion H; subst.
  exists (join "&" parts). split; [reflexivity |].
  apply query_parts_shape in Hparts as [Hlen Hall].
  2: { apply Forall_app. split; [| apply year_params_names].
       repeat (apply List.Forall_cons; [reflexivity |]). apply List.Forall_nil. }
  assert (length parts = url_fields prod years language) as Hn.
  { rewrite Hlen, List.filter_app, length_app, year_params_with_value.
    unfold url_fields. f_equal.
    cbn [List.filter snd]. rewrite !truthy_or_text.
    cbn [truthy]. rewrite nonempty_str_or_text.
    destruct (truthy (get prod "brand")), (truthy (get prod "model")),
      (truthy (py_or (get prod "modelType") (get prod "model"))),
      (truthy (get prod "ngtdModelId")), (nonempty language); reflexivity. }
  split; [| split].
  - apply join_forallb; [reflexivity |].
    eapply Forall_impl; [exact Hall |]. intros p (Hp & _). exact Hp.
  - rewrite (join_count "=" "&" parts 1).
    + cbn [count_char]. rewrite <- Hn. cbn. lia.
    + eapply Forall_impl; [exact Hall |]. intros p (_ & Hp & _). exact Hp.
  - rewrite (join_count "&" "&" parts 0).
    + cbn [count_char]. rewrite <- Hn. cbn. lia.
    + eapply Forall_impl; [exact Hall |]. intros p (_ & _ & Hp). exact Hp.
Qed.

Lemma build_publications_url_fields_witness :
  build_publications_url rav4_2021 ["2023"; "2021"] "en"
  = Ok "https://customerportal.tweddle-aws.eu/publications?brand=Toyota&model=RAV4&modelType=XA50&ngtdModelId=7&language=en&year[0]=2023&year[1]=2021"
  /\ exists q,
       "https://customerportal.tweddle-aws.eu/publications?brand=Toyota&model=RAV4&modelType=XA50&ngtdModelId=7&language=en&year[0]=2023&year[1]=2021"
       = ("https://customerportal.tweddle-aws.eu/publications?" ++ q)%string
       /\ string_forallb query_char q = true
       /\ count_char "=" q = url_fields rav4_2021 ["2023"; "2021"] "en"
       /\ count_char "&" q = pred (url_fields rav4_2021 ["2023"; "2021"] "en").
Proof.
  split; [reflexivity |].
  apply (build_publications_url_fields rav4_2021 ["2023"; "2021"] "en"). reflexivity.
Defined.

(** ** The run: how the world grows *)

Lemma grows_refl (w : world) : grows 0 0 w w.
Proof.
  split; [exists []; split; [reflexivity | cbn; lia] |].
  split; [reflexivity |].
  split; [intros p Hnone [c Hc]; congruence | lia].
Qed.

Lemma grows_trans (n1 m1 n2 m2 : nat) (w1 w2 w3 : world) :
  grows n1 m1 w1 w2 -> grows n2 m2 w2 w3 -> grows (n1 + n2) (m1 + m2) w1 w3.
Proof.
  intros ((new1 & Hs1 & Hl1) & Hsub1 & Hnew1 & Hsize1)
         ((new2 & Hs2 & Hl2) & Hsub2 & Hnew2 & Hsize2).
  split; [| split; [| split]].
  - exists (new2 ++ new1). rewrite Hs2, Hs1, app_assoc, length_app. split; [reflexivity | lia].
  - etransitivity; eassumption.
  - intros p Hnone Hsome. destruct (files w2 !! p) eqn:H2.
    + apply Hnew1; [exact Hnone | eauto].
    + apply Hnew2; assumption.
  - lia.
Qed.

Lemma grows_le (n m n' m' : nat) (w w' : world) :
  (n <= n')%nat -> (m <= m')%nat -> grows n m w w' -> grows n' m' w w'.
Proof.
  intros Hn Hm ((new & Hs & Hl) & Hsub & Hnew & Hsize).
  split; [exists new; split; [exact Hs | lia] |].
  split; [exact Hsub |]. split; [exact Hnew | lia].
Qed.

Lemma send_grows (server : nat -> request -> result response) (req : request) (w : world) :
  grows 1 0 w (snd (send server req w)).
Proof.
  unfold send. cbn [snd].
  split; [exists [req]; split; [reflexivity | cbn; lia] |].
  cbn [files]. split; [reflexivity |].
  split; [intros p Hnone [c Hc]; congruence | lia].
Qed.

Lemma get_pdf_link_grows
  (server : nat -> request -> result response) (pub : dict) (w : world) :
  grows 1 0 w (snd (get_pdf_link server pub w)).
Proof.
  unfold get_pdf_link.
  destruct (py_or (get pub "lineOffDate") (VStr "")) as [| | | s | |];
    try (apply (grows_le 0 0); [lia | lia | apply grows_refl]).
  destruct (negb _); [apply (grows_le 0 0); [lia | lia | apply grows_refl] |].
  match goal with
  | |- context [send server ?req w] =>
      pose proof (send_grows server req w) as Hsend;
      destruct (send server req w) as [[r | e] w']
  end; cbn [snd] in *; [| exact Hsend].
  destruct ((status_code r =? 400) || (status_code r =? 404) || (status_code r =? 500));
    [exact Hsend |].
  destruct (raise_for_status r); [| exact Hsend].
  destruct (json r) as [[| | | | |] |]; exact Hsend.
Qed.

Lemma download_pdf_grows
  (server : nat -> request -> result response) (url : string) (prod pub : dict)
  (w : world) :
  grows 1 1 w (snd (download_pdf server url prod pub w)).
Proof.
  unfold download_pdf.
  destruct (target_path prod pub) as [path | e] eqn:Hpath; cbn [snd];
    [| apply (grows_le 0 0); [lia | lia | apply grows_refl]].
  destruct (decide (is_Some (files w !! path))) as [Hyes | Hno]; cbn [snd];
    [apply (grows_le 0 0); [lia | lia | apply grows_refl] |].
  assert (files w !! path = None) as Hnone
    by (destruct (files w !! path) eqn:E; [exfalso; apply Hno; eauto | reflexivity]).
  unfold send.
  destruct (server (length (sent w)) _) as [r | e]; cbn [snd].
  2: { apply (grows_le 1 0); [lia | lia |]. apply (send_grows (fun _ _ => Raise e)). }
  assert (grows 1 1 w (write_file path (chunks r)
                         {| files := files w;
                            sent := {| req_url := url; req_params := [] |} :: sent w |}))
    as Hwrite.
  { unfold write_file. cbn [files sent].
    split; [exists [{| req_url := url; req_params := [] |}]; split; [reflexivity | cbn; lia] |].
    cbn [files]. split; [apply insert_subseteq, Hnone |].
    split.
    - intros p Hp Hsome. destruct (decide (path = p)) as [<- | Hne].
      + exact (target_path_shape _ _ _ Hpath).
      + rewrite lookup_insert_ne in Hsome by exact Hne. destruct Hsome; congruence.
    - rewrite map_size_insert, Hnone. lia. }
  destruct (raise_for_status r); cbn [snd].
  2: { apply (grows_le 1 0); [lia | lia |]. apply (send_grows (fun _ _ => Raise e)). }
  destruct (complete r); exact Hwrite.
Qed.

Section RunProperties.

Variable iso : string -> option date.
Variable text : response -> string.
Variable parse_next_data : string -> result value.
Variable server : nat -> request -> result response.

Lemma process_product_grows (all_products : list dict) (p : dict) (w : world) :
  grows 3 1 w (snd (process_product text parse_next_data server all_products p w)).
Proof.
  unfold process_product.
  assert (grows 3 1 w w) as Hstay by (apply (grows_le 0 0); [lia | lia | apply grows_refl]).
  destruct (pick_years_for_product p all_products) as [years | e]; [| exact Hstay].
  destruct (build_publications_url p years "en") as [pub_url | e]; [| exact Hstay].
  pose proof (send_grows server {| req_url := pub_url; req_params := [] |} w) as Hpage.
  destruct (send server {| req_url := pub_url; req_params := [] |} w) as [[r | e] w1];
    cbn [snd] in *.
  2: { apply (grows_le 1 0); [lia | lia | exact Hpage]. }
  assert (grows 3 1 w w1) as Hone by (apply (grows_le 1 0); [lia | lia | exact Hpage]).
  destruct (parse_next_data (text r)) as [next_data | e]; [| exact Hone].
  destruct (negb (truthy next_data)); [exact Hone |].
  destruct (collect_publications next_data) as [pubs | e]; [| exact Hone].
  destruct (pick_latest_en_om pubs) as [[om |] | e]; [| exact Hone | exact Hone].
  destruct (negb (truthy (VDict om))); [exact Hone |].
  pose proof (get_pdf_link_grows server om w1) as Hlink.
  destruct (get_pdf_link server om w1) as [[pdf_url | e] w2]; cbn [snd] in *.
  2: { apply (grows_le (1 + 1) (0 + 0)); [lia | lia |].
       exact (grows_trans _ _ _ _ _ _ _ Hpage Hlink). }
  assert (grows 2 0 w w2) as Htwo by exact (grows_trans _ _ _ _ _ _ _ Hpage Hlink).
  destruct (negb (truthy pdf_url)); [apply (grows_le 2 0); [lia | lia | exact Htwo] |].
  pose proof (download_pdf_grows server (py_str pdf_url) p om w2) as Hdown.
  destruct (download_pdf server (py_str pdf_url) p om w2) as [[path | e] w3];
    cbn [snd] in *; exact (grows_trans _ _ _ _ _ _ _ Htwo Hdown).
Qed.

Lemma process_products_grows (all_products products : list dict) (w : world) :
  grows (3 * length products) (length products) w
    (snd (process_products text parse_next_data server all_products products w)).
Proof.
  revert w. induction products as [| p products IH]; intros w.
  - apply grows_refl.
  - cbn [process_products].
    pose proof (process_product_grows all_products p w) as Hp.
    destruct (process_product text parse_next_data server all_products p w)
      as [[[] | e] w']; cbn [snd] in *.
    + apply (grows_le (3 + 3 * length products) (1 + length products));
        [cbn [length]; lia | cbn [length]; lia |].
      exact (grows_trans _ _ _ _ _ _ _ Hp (IH w')).
    + apply (grows_le 3 1); [cbn [length]; lia | cbn [length]; lia | exact Hp].
Qed.

(** [get_products] sends the request for the catalogue, whatever comes
    back, and touches no file. *)
Lemma get_products_world (w : world) :
  snd (get_products server w)
  = {| files := files w; sent := catalogue_request :: sent w |}.
Proof.
  unfold get_products, send.
  destruct (server (length (sent w)) _) as [r | e]; [| reflexivity].
  destruct (raise_for_status r); [| reflexivity].
  destruct (json r) as [data |]; [| reflexivity].
  destruct (py_len data); reflexivity.
Qed.

Lemma main_after_catalogue (w : world) :
  grows (3 * PRODUCT_LIMIT) PRODUCT_LIMIT
    {| files := files w; sent := catalogue_request :: sent w |}
    (snd (main iso text parse_next_data server w)).
Proof.
  unfold main. pose proof (get_products_world w) as Hw.
  destruct (get_products server w) as [[data | e] w1]; cbn [snd] in Hw; subst w1;
    cbn [snd].
  2: { apply (grows_le 0 0); [lia | lia | apply grows_refl]. }
  destruct (merge_catalogue iso data) as [base_list | e]; cbn [snd].
  2: { apply (grows_le 0 0); [lia | lia | apply grows_refl]. }
  eapply grows_le; [| | apply process_products_grows];
    rewrite length_firstn; lia.
Qed.

(** X14. Whatever the far end answers and whatever the pages hold,
    a run of [main] sends the request for the catalogue first, and after
    it at most three requests for each of at most fifteen products: 46
    requests at most. *)
Theorem main_request_budget (w : world) :
  exists later,
    sent (snd (main iso text parse_next_data server w))
    = later ++ catalogue_request :: sent w
    /\ (length later <= 45)%nat.
Proof.
  destruct (main_after_catalogue w) as ((later & Hsent & Hlen) & _).
  exists later. split; [exact Hsent | exact Hlen].
Qed.

(** X15. Whatever the far end answers and whatever the pages hold, a
    run of [main] keeps every file there is with its content, adds at
    most fifteen files, and every file it adds lies directly in
    [./manuals] under a safe name ending in [.pdf]; this also when the
    run ends with an exception. *)
Theorem main_files (w : world) :
  files w ⊆ files (snd (main iso text parse_next_data server w))
  /\ (size (files (snd (main iso text parse_next_data server w)))
      <= size (files w) + 15)%nat
  /\ forall p,
       files w !! p = None ->
       is_Some (files (snd (main iso text parse_next_data server w)) !! p) ->
       pdf_path p.
Proof.
  destruct (main_after_catalogue w) as (_ & Hsub & Hnew & Hsize).
  cbn [files] in *. split; [exact Hsub |]. split; [exact Hsize | exact Hnew].
Qed.

Lemma group_values_shape (items : list value) (groups groups' : list (key * list dict)) :
  group_values items groups = Ok groups' -> forallb is_dict items = true.
Proof.
  revert groups. induction items as [| v items IH]; intros groups H; [reflexivity |].
  destruct v as [| | | | | prod]; try discriminate.
  cbn [group_values forallb is_dict andb] in *.
  destruct (key_hashable (identity_key prod)); [| discriminate].
  exact (IH _ H).
Qed.

Lemma merge_catalogue_shape (data : value) (n : nat) (merged : list dict) :
  py_len data = Ok n -> merge_catalogue iso data = Ok merged ->
  catalogue_shape data = true.
Proof.
  unfold merge_catalogue. intros Hlen H.
  apply bind_ok in H as (groups & Hgroups & _).
  apply group_values_shape in Hgroups.
  destruct data as [| | | s | l | d]; try discriminate; cbn [catalogue_shape].
  - destruct s; [reflexivity | discriminate].
  - exact Hgroups.
  - destruct d as [| [k v] d]; [reflexivity | discriminate].
Qed.

(** X16. When the catalogue that comes back is not a list of dicts (a
    JSON object wrapping the list, a number, a text that is not empty,
    a list with an item that is no dict), [main] ends with an exception
    after that one request: no page is fetched and no file is written. *)
Theorem main_needs_a_list_of_dicts (w : world) (r : response) (data : value) :
  server (length (sent w)) catalogue_request = Ok r ->
  json r = Some data ->
  catalogue_shape data = false ->
  exists e,
    main iso text parse_next_data server w
    = (Raise e, {| files := files w; sent := catalogue_request :: sent w |}).
Proof.
  intros Hr Hjson Hshape. unfold main, get_products, send.
  change {| req_url := (API ++ "/pubhub/info/products")%string; req_params := [] |}
    with catalogue_request.
  rewrite Hr. destruct (raise_for_status r) as [[] | e]; [| eauto].
  rewrite Hjson. destruct (py_len data) as [n | e] eqn:Hlen; [| eauto].
  destruct (merge_catalogue iso data) as [merged | e] eqn:Hmerge; [| eauto].
  rewrite (merge_catalogue_shape data n merged Hlen Hmerge) in Hshape. discriminate.
Qed.

End RunProperties.

Lemma main_needs_a_list_of_dicts_witness :
  exists e,
    main iso_ymd latin1_text no_payload wrapped_catalogue_server empty_world
    = (Raise e, {| files := files empty_world;
                   sent := catalogue_request :: sent empty_world |}).
Proof.
  apply (main_needs_a_list_of_dicts iso_ymd latin1_text no_payload
           wrapped_catalogue_server empty_world
           {| status_code := 200;
              json := Some (VDict [("products", VList [VDict rav4_2019])]);
              content_type := "application/json";
              chunks := [];
              complete := true |}
           (VDict [("products", VList [VDict rav4_2019])]));
    reflexivity.
Defined.

(** The run on the sample catalogue: one page, one link and one download
    for each of the two vehicles, after the request for the catalogue. *)
Remark main_sample_run :
  exists w,
    main iso_ymd latin1_text sample_page sample_server empty_world = (Ok tt, w)
    /\ length (sent w) = 7%nat
    /\ size (files w) = 2%nat
    /\ files w !! "./manuals/Toyota.RAV4.XA50.2022.OM42B02E.pdf" = Some "%PDF-1.7%%EOF"
    /\ files w !! "./manuals/Toyota.Yaris.XA50.2022.OM42B02E.pdf" = Some "%PDF-1.7%%EOF".
Proof. eexists. split; [vm_compute; reflexivity |]. vm_compute. auto. Qed.

(** ** When the functions raise *)

Lemma int_digits_raises (s : string) (acc : Z) (e : exn) :
  int_digits acc s = Raise e -> e = ValueError.
Proof.
  revert acc. induction s as [| c s IH]; intros acc H; [discriminate |].
  cbn [int_digits] in H. destruct (isdecimal_char c); [exact (IH _ H) | congruence].
Qed.

(** [int] of a numeric year fails in one way only. *)
Lemma numeric_year_raises (y : value) (e : exn) :
  numeric_year y = true -> int_of y = Raise e -> e = ValueError.
Proof.
  destruct y as [| b | z | s | l | d]; cbn [numeric_year str_isdigit int_of];
    try discriminate.
  intros _. apply int_digits_raises.
Qed.

Lemma group_products_raises (all_products : list dict) (groups : list (key * list dict))
  (e : exn) :
  group_products all_products groups = Raise e -> e = TypeError.
Proof.
  revert groups. induction all_products as [| prod rest IH]; intros groups H;
    [discriminate |].
  cbn [group_products] in H.
  destruct (key_hashable (identity_key prod)); [exact (IH _ H) | congruence].
Qed.

Section MergeRaises.

Variable iso : string -> option date.

Lemma rank_for_merge_raises (p : dict) (e : exn) :
  _rank_for_merge iso p = Raise e -> e = ValueError.
Proof.
  unfold _rank_for_merge.
  destruct (numeric_year (get p "year")) eqn:Hnum; [| discriminate].
  destruct (int_of (get p "year")) as [y | e'] eqn:Hint; [discriminate |].
  cbn [bind]. intros H. inversion H; subst.
  exact (numeric_year_raises _ _ Hnum Hint).
Qed.

Lemma max_loop_raises (items : list dict) (best : dict) (best_rank : rank) (e : exn) :
  max_loop iso best best_rank items = Raise e -> e = ValueError.
Proof.
  revert best best_rank. induction items as [| x items IH]; intros best best_rank H;
    [discriminate |].
  cbn [max_loop] in H.
  destruct (_rank_for_merge iso x) as [rx | e'] eqn:Hrx; cbn [bind] in H.
  - destruct (rank_ltb best_rank rx); exact (IH _ _ H).
  - inversion H; subst. exact (rank_for_merge_raises _ _ Hrx).
Qed.

Lemma best_of_groups_raises (groups : list (key * list dict)) (e : exn) :
  best_of_groups iso groups = Raise e -> e = ValueError.
Proof.
  induction groups as [| [k items] groups IH]; intros H; [discriminate |].
  cbn [best_of_groups] in H.
  destruct (max_by_rank iso items) as [best | e'] eqn:Hbest; cbn [bind] in H.
  - destruct (best_of_groups iso groups) as [rest | e'']; cbn [bind] in H;
      [discriminate |].
    inversion H; subst. apply IH. reflexivity.
  - inversion H; subst. destruct items as [| x items]; [cbn in Hbest; congruence |].
    unfold max_by_rank in Hbest.
    destruct (_rank_for_merge iso x) as [rx | e'] eqn:Hrx; cbn [bind] in Hbest.
    + exact (max_loop_raises _ _ _ _ Hbest).
    + inversion Hbest; subst. exact (rank_for_merge_raises _ _ Hrx).
Qed.

(** X17. [merge_products_latest] returns exactly when every product
    has an identity that can be hashed and a year that converts. One
    product whose brand, model, model type or model id is a list or a
    dict makes it raise [TypeError], whatever the years, because the
    grouping loop runs first; with identities that can all be hashed,
    one year of digits that are not all decimal (a superscript) makes it
    raise [ValueError], also when that product would not be the best of
    its group. *)
Theorem merge_products_latest_raises (all_products : list dict) :
  ((exists merged, merge_products_latest iso all_products = Ok merged)
   <-> Forall (fun p => product_ok p = true) all_products)
  /\ (Exists (fun p => key_hashable (identity_key p) = false) all_products ->
      merge_products_latest iso all_products = Raise TypeError)
  /\ (Forall (fun p => key_hashable (identity_key p) = true) all_products ->
      Exists (fun p => year_ok p = false) all_products ->
      merge_products_latest iso all_products = Raise ValueError).
Proof.
  split; [split |].
  - intros [merged H]. exact (proj1 (merge_products_latest_inv iso _ _ H)).
  - apply merge_products_latest_total.
  - split.
    + intros Hbad. unfold merge_products_latest.
      destruct (group_products all_products []) as [groups | e] eqn:Hgroups.
      * destruct (group_products_inv _ [] _ _ Hgroups group_inv_nil) as [_ Hhash].
        exfalso. apply Exists_exists in Hbad as (p & Hp & Hno).
        rewrite Forall_forall in Hhash. rewrite (Hhash p Hp) in Hno. discriminate.
      * rewrite (group_products_raises _ _ _ Hgroups). reflexivity.
    + intros Hhash Hbad.
      destruct (merge_products_latest iso all_products) as [merged | e] eqn:Hrun.
      * destruct (merge_products_latest_inv iso _ _ Hrun) as [Hok _].
        destruct (product_ok_parts _ Hok) as [_ Hyears].
        exfalso. apply Exists_exists in Hbad as (p & Hp & Hno).
        rewrite Forall_forall in Hyears. rewrite (Hyears p Hp) in Hno. discriminate.
      * unfold merge_products_latest in Hrun.
        destruct (group_products_total all_products [] Hhash) as [groups Hgroups].
        rewrite Hgroups in Hrun. cbn [bind] in Hrun.
        rewrite (best_of_groups_raises _ _ Hrun). reflexivity.
Qed.

End MergeRaises.

Lemma dedup_raises (found : list dict) (uniq : list (value * dict)) (e : exn) :
  dedup found uniq = Raise e -> e = TypeError.
Proof.
  revert uniq. induction found as [| x found IH]; intros uniq H; [discriminate |].
  cbn [dedup] in H. destruct (truthy (get x "partNumber")); [| exact (IH _ H)].
  destruct (hashable (get x "partNumber")); [exact (IH _ H) | congruence].
Qed.

(** X18. [collect_publications] returns exactly when every dict of the
    payload that has a part number that is true has one that can be a
    dict key; a part number that is a list or a dict, not empty, makes it
    raise [TypeError], wherever in the payload it stands, and nothing
    else makes it raise. *)
Theorem collect_publications_raises (next_data : value) :
  ((exists pubs, collect_publications next_data = Ok pubs)
   <-> forall d, inside next_data (VDict d) -> has_key "partNumber" d = true ->
         truthy (get d "partNumber") = true -> hashable (get d "partNumber") = true)
  /\ forall e, collect_publications next_data = Raise e -> e = TypeError.
Proof.
  split; [split |].
  - intros [pubs H] d Hin Hkey Ht.
    destruct (collect_publications_inv _ _ H) as (uniq & _ & _ & _ & Hcov).
    destruct (Hcov (publication_of d)) as [Hh _].
    + eapply visit_inside; [exact Hin | apply visit_dict_self, Hkey].
    + rewrite part_number_publication_of. exact Ht.
    + rewrite part_number_publication_of in Hh. exact Hh.
  - intros Hall. apply collect_publications_total.
    apply Forall_forall. intros x Hx Ht. apply list_elem_of_In in Hx.
    destruct (visit_sound _ _ Hx) as (d & Hin & Hkey & ->).
    rewrite part_number_publication_of in *. exact (Hall d Hin Hkey Ht).
  - intros e H. unfold collect_publications in H.
    destruct (dedup (visit next_data) []) as [uniq | e'] eqn:Hrun; [discriminate |].
    cbn [bind] in H. inversion H; subst. exact (dedup_raises _ _ _ Hrun).
Qed.

Lemma date_key_ok_text (p : dict) (k : string) : date_key p = Ok k -> date_is_text p = true.
Proof.
  unfold date_key, norm_date, date_is_text. rewrite py_or_idem.
  destruct (py_or (get p "lineOffDate") (VStr "")); intros H; (discriminate || reflexivity).
Qed.

Lemma keyed_ok_text (pubs : list dict) (ks : list (string * dict)) :
  keyed pubs = Ok ks -> Forall (fun p => date_is_text p = true) pubs.
Proof.
  revert ks. induction pubs as [| p pubs IH]; intros ks H; [constructor |].
  cbn [keyed] in H. apply bind_ok in H as (k & Hk & H).
  apply bind_ok in H as (rest & Hrest & _).
  constructor; [exact (date_key_ok_text _ _ Hk) | exact (IH _ Hrest)].
Qed.

Lemma keyed_raises (pubs : list dict) (e : exn) :
  keyed pubs = Raise e -> e = AttributeError.
Proof.
  induction pubs as [| p pubs IH]; intros H; [discriminate |].
  cbn [keyed] in H. destruct (date_key p) as [k | e'] eqn:Hk; cbn [bind] in H.
  - destruct (keyed pubs) as [ks | e'']; cbn [bind] in H; [discriminate |].
    inversion H; subst. apply IH. reflexivity.
  - inversion H; subst. unfold date_key, norm_date in Hk.
    destruct (py_or _ _); congruence.
Qed.

(** X19. [pick_latest_en_om] returns exactly when every English owner's
    manual of the list has a line-off date that is a text or a false
    value; one whose date is true and is no text makes it raise
    [AttributeError], and nothing else does: the dates of the other
    publications are not looked at. It returns [None] exactly when the
    list holds no English owner's manual. *)
Theorem pick_latest_en_om_raises (pubs : list dict) :
  ((exists r, pick_latest_en_om pubs = Ok r)
   <-> Forall (fun p => is_en_om p = true -> date_is_text p = true) pubs)
  /\ (pick_latest_en_om pubs = Ok None <-> forall p, In p pubs -> is_en_om p = false)
  /\ forall e, pick_latest_en_om pubs = Raise e -> e = AttributeError.
Proof.
  unfold pick_latest_en_om.
  assert (forall p, In p (List.filter is_en_om pubs) <-> In p pubs /\ is_en_om p = true)
    as Hfilter by (intros p; apply filter_In).
  destruct (List.filter is_en_om pubs) as [| o oms] eqn:Hf.
  - split; [split |].
    + intros _. apply Forall_forall. intros p Hp Hom. apply list_elem_of_In in Hp.
      destruct (proj2 (Hfilter p) (conj Hp Hom)).
    + eauto.
    + split; [| discriminate]. split; [| reflexivity].
      intros _ p Hp. destruct (is_en_om p) eqn:Hom; [| reflexivity].
      destruct (proj2 (Hfilter p) (conj Hp Hom)).
  - assert (In o pubs /\ is_en_om o = true) as [Ho Hom]
      by (apply Hfilter; left; reflexivity).
    split; [split |].
    + intros [r H]. apply bind_ok in H as (ks & Hks & _).
      apply keyed_ok_text in Hks. apply Forall_forall. intros p Hp Hp_om.
      apply list_elem_of_In in Hp. rewrite Forall_forall in Hks.
      apply Hks, list_elem_of_In, Hfilter. split; assumption.
    + intros Hall. rewrite keyed_text; [cbn [bind]; eauto |].
      apply Forall_forall. intros p Hp. apply list_elem_of_In, Hfilter in Hp as [Hp Hp_om].
      rewrite Forall_forall in Hall. apply Hall; [apply list_elem_of_In, Hp | exact Hp_om].
    + split.
      * split.
        -- intros H. apply bind_ok in H as (ks & Hks & H).
           apply keyed_inv in Hks. subst ks.
           destruct (head_sort_desc (map (fun p => (date_portion p, p)) (o :: oms)))
             as (best & Hhead & _); [discriminate |].
           destruct (sort_desc (map (fun p => (date_portion p, p)) (o :: oms)));
             [discriminate Hhead | discriminate H].
        -- intros Hnone. rewrite (Hnone o Ho) in Hom. discriminate.
      * intros e H. destruct (keyed (o :: oms)) as [ks | e'] eqn:Hks; cbn [bind] in H;
          [discriminate |].
        inversion H; subst. exact (keyed_raises _ _ Hks).
Qed.

Lemma sibling_years_run (prod : dict) (all_products : list dict) :
  match sibling_years (identity_key prod) all_products with
  | Ok raw =>
      Forall (fun p => shares_key prod p = true -> year_ok p = true) all_products
      /\ (raw = [] <->
          forall p, In p all_products -> shares_key prod p = true ->
            numeric_year (get p "year") = false)
  | Raise e =>
      e = ValueError
      /\ ~ Forall (fun p => shares_key prod p = true -> year_ok p = true) all_products
  end.
Proof.
  induction all_products as [| p rest IH]; cbn [sibling_years].
  - split; [constructor |]. split; [intros _ p [] | reflexivity].
  - fold (shares_key prod p).
    destruct (shares_key prod p) eqn:Hshare; cbn [andb].
    + destruct (numeric_year (get p "year")) eqn:Hnum.
      * destruct (int_of (get p "year")) as [y | e] eqn:Hint; cbn [bind].
        -- destruct (sibling_years (identity_key prod) rest) as [raw | e];
             cbn [bind].
           ++ destruct IH as [Hall _]. split.
              ** constructor; [| exact Hall]. intros _. unfold year_ok.
                 rewrite Hnum, Hint. reflexivity.
              ** split; [discriminate |]. intros Hnone.
                 rewrite (Hnone p (or_introl eq_refl) Hshare) in Hnum. discriminate.
           ++ destruct IH as [-> Hnot]. split; [reflexivity |].
              intros Hall. apply Hnot. inversion Hall; assumption.
        -- split; [exact (numeric_year_raises _ _ Hnum Hint) |].
           intros Hall. inversion Hall as [| ? ? Hp _]; subst.
           specialize (Hp Hshare). unfold year_ok in Hp.
           rewrite Hnum, Hint in Hp. discriminate.
      * destruct (sibling_years (identity_key prod) rest) as [raw | e].
        -- destruct IH as [Hall Hempty]. split.
           ++ constructor; [| exact Hall]. intros _. unfold year_ok.
              rewrite Hnum. reflexivity.
           ++ rewrite Hempty. split.
              ** intros H q [<- | Hq] Hs; [exact Hnum | exact (H q Hq Hs)].
              ** intros H q Hq Hs. exact (H q (or_intror Hq) Hs).
        -- destruct IH as [-> Hnot]. split; [reflexivity |].
           intros Hall. apply Hnot. inversion Hall; assumption.
    + destruct (sibling_years (identity_key prod) rest) as [raw | e].
      * destruct IH as [Hall Hempty]. split.
        -- constructor; [intros H; congruence | exact Hall].
        -- rewrite Hempty. split.
           ++ intros H q [<- | Hq] Hs; [congruence | exact (H q Hq Hs)].
           ++ intros H q Hq Hs. exact (H q (or_intror Hq) Hs).
      * destruct IH as [-> Hnot]. split; [reflexivity |].
        intros Hall. apply Hnot. inversion Hall; assumption.
Qed.

Lemma insert_desc_not_nil (y : Z) (l : list Z) : insert_desc y l <> [].
Proof.
  destruct l as [| x l]; cbn [insert_desc]; [discriminate |].
  destruct (x <? y); [discriminate |]. destruct (x =? y); discriminate.
Qed.

Lemma resolved_years_nil (raw : list Z) :
  map str_int (firstn 12 (sorted_set_desc raw)) = [] <-> raw = [].
Proof.
  split; [| intros ->; reflexivity].
  destruct raw as [| y raw]; [reflexivity |].
  cbn [sorted_set_desc fold_right]. fold (sorted_set_desc raw).
  pose proof (insert_desc_not_nil y (sorted_set_desc raw)) as Hne.
  destruct (insert_desc y (sorted_set_desc raw)); [contradiction | discriminate].
Qed.

(** X20. [pick_years_for_product] returns exactly when the year of
    every product that shares the identity of the chosen one converts
    and, should none of them have a numeric year, the year of the chosen
    product converts too. The years of the products with another
    identity are not looked at. When it raises, it raises [ValueError]:
    a year of digits that are not all decimal. *)
Theorem pick_years_for_product_raises (prod : dict) (all_products : list dict) :
  ((exists years, pick_years_for_product prod all_products = Ok years)
   <-> Forall (fun p => shares_key prod p = true -> year_ok p = true) all_products
       /\ ((forall p, In p all_products -> shares_key prod p = true ->
              numeric_year (get p "year") = false) ->
           year_ok prod = true))
  /\ forall e, pick_years_for_product prod all_products = Raise e -> e = ValueError.
Proof.
  unfold pick_years_for_product, years_for_same_product. cbn [USE_SIBLING_YEARS].
  pose proof (sibling_years_run prod all_products) as Hrun.
  destruct (sibling_years (identity_key prod) all_products) as [raw | e0]; cbn [bind].
  2: { destruct Hrun as [-> Hnot]. split; [| intros e H; congruence].
       split; [intros [years H]; discriminate | intros [Hall _]; contradiction]. }
  destruct Hrun as [Hall Hempty].
  pose proof (resolved_years_nil raw) as Hnil.
  assert (((exists years, year_from_prod prod = Ok years) <-> year_ok prod = true)
          /\ forall e, year_from_prod prod = Raise e -> e = ValueError) as (Hown & Hown_e).
  { unfold year_from_prod, year_ok.
    destruct (numeric_year (get prod "year")) eqn:Hnum.
    - destruct (int_of (get prod "year")) as [y | e] eqn:Hint; cbn [bind].
      + split; [split; eauto | discriminate].
      + rewrite (numeric_year_raises _ _ Hnum Hint).
        split; [| intros e' H; congruence].
        split; [intros [years H]; discriminate | discriminate].
    - split; [split; eauto | discriminate]. }
  destruct (map str_int (firstn 12 (sorted_set_desc raw))) as [| y years] eqn:Hyears.
  - assert (raw = []) as Hraw by (apply Hnil; reflexivity).
    split; [| exact Hown_e]. rewrite Hown. split.
    + intros Hok. split; [exact Hall | intros _; exact Hok].
    + intros [_ Hok]. apply Hok, Hempty, Hraw.
  - split; [| discriminate]. split; [| eauto].
    intros _. split; [exact Hall |]. intros Hnone.
    apply Hempty in Hnone. apply Hnil in Hnone. discriminate.
Qed.

(** ** The year-range resolver: what it returns when it returns *)

Lemma sibling_years_inv (prod : dict) (all_products : list dict) (raw : list Z) :
  sibling_years (identity_key prod) all_products = Ok raw ->
  forall y, In y raw
    <-> exists p, In p all_products /\ shares_key prod p = true
                  /\ year_number p = Some y.
Proof.
  revert raw. induction all_products as [| p rest IH]; intros raw H y.
  - inversion H; subst. split; [intros [] | intros (q & [] & _)].
  - cbn [sibling_years] in H. fold (shares_key prod p) in H.
    destruct (shares_key prod p && numeric_year (get p "year")) eqn:Hcond.
    + apply andb_true_iff in Hcond as [Hshare Hnum].
      apply bind_ok in H as (n & Hn & H). apply bind_ok in H as (years & Hyears & H).
      inversion H; subst. clear H.
      assert (year_number p = Some n) as Hp
        by (unfold year_number; rewrite Hnum, Hn; reflexivity).
      split.
      * intros [<- | Hy]; [exists p; auto using in_eq |].
        apply (IH _ Hyears) in Hy as (q & Hq & Hs & Hyq). exists q. auto using in_cons.
      * intros (q & [<- | Hq] & Hs & Hyq); [left; congruence |].
        right. apply (IH _ Hyears). exists q. auto.
    + rewrite (IH _ H). split.
      * intros (q & Hq & Hs & Hyq). exists q. auto using in_cons.
      * intros (q & [<- | Hq] & Hs & Hyq); [| exists q; auto].
        exfalso. unfold year_number in Hyq. rewrite Hs in Hcond. cbn [andb] in Hcond.
        rewrite Hcond in Hyq. discriminate.
Qed.

Lemma year_from_prod_inv (prod : dict) (texts : list string) :
  year_from_prod prod = Ok texts ->
  texts = map str_int match year_number prod with Some y => [y] | None => [] end.
Proof.
  unfold year_from_prod, year_number.
  destruct (numeric_year (get prod "year")); [| intros H; inversion H; reflexivity].
  destruct (int_of (get prod "year")) as [n | e]; [| discriminate].
  intros H; inversion H; reflexivity.
Qed.

(** X23. Whenever [pick_years_for_product] returns, it returns the
    decimal texts of a list of numbers that is strictly descending (so
    without duplicates) and has at most 12 entries. When some product of
    the full list shares the chosen product's identity key and has a
    numeric year, these numbers are years of such products, and every
    year of such a product is among them or is smaller than each of the
    12 returned. When no product of the full list does, the list is the
    chosen product's own year if that is numeric, and empty if not. *)
Theorem pick_years_for_product_returns
  (prod : dict) (all_products : list dict) (texts : list string) :
  pick_years_for_product prod all_products = Ok texts ->
  exists years,
    texts = map str_int years
    /\ pairwise Z.gt years
    /\ (length years <= 12)%nat
    /\ ((exists p y, In p all_products /\ shares_key prod p = true
                     /\ year_number p = Some y) ->
         (forall y, In y years ->
            exists p, In p all_products /\ shares_key prod p = true
                      /\ year_number p = Some y)
         /\ (forall p y, In p all_products -> shares_key prod p = true ->
               year_number p = Some y ->
               In y years
               \/ (length years = 12%nat /\ Forall (fun w => y < w) years)))
    /\ ((forall p, In p all_products -> shares_key prod p = true ->
           year_number p = None) ->
         years = match year_number prod with Some y => [y] | None => [] end).
Proof.
  unfold pick_years_for_product, years_for_same_product. cbn [USE_SIBLING_YEARS].
  intros H. apply bind_ok in H as (found & Hfound & H).
  apply bind_ok in Hfound as (raw & Hraw & Hfound). inversion Hfound; subst found.
  clear Hfound. pose proof (sibling_years_inv _ _ _ Hraw) as Hspec.
  destruct (firstn_greatest 12 (sorted_set_desc raw) (sorted_set_desc_sorted raw))
    as (Hsorted & Hlen & Hsub & Hsup).
  destruct (firstn 12 (sorted_set_desc raw)) as [| y0 ys] eqn:Hfirst.
  - cbn [map] in H. apply year_from_prod_inv in H. subst texts.
    exists (match year_number prod with Some y => [y] | None => [] end).
    split; [reflexivity |].
    split; [destruct (year_number prod); simpl; repeat constructor |].
    split; [destruct (year_number prod); simpl; lia |].
    split; [| reflexivity].
    intros (p & y & Hp & Hs & Hy). exfalso.
    assert (In y (sorted_set_desc raw)) as Hin
      by (apply sorted_set_desc_in, Hspec; exists p; auto).
    destruct (Hsup y Hin) as [[] | [Hl _]]. discriminate Hl.
  - cbn [map] in H. inversion H; subst texts. clear H.
    exists (y0 :: ys). split; [reflexivity |].
    split; [exact Hsorted |]. split; [exact Hlen |]. split.
    + intros _. split.
      * intros y Hy. apply Hspec, sorted_set_desc_in, Hsub, Hy.
      * intros p y Hp Hs Hy. apply Hsup, sorted_set_desc_in, Hspec.
        exists p. auto.
    + intros Hnone. exfalso.
      assert (In y0 raw) as Hin by (apply sorted_set_desc_in, Hsub; left; reflexivity).
      apply Hspec in Hin as (p & Hp & Hs & Hy). rewrite (Hnone p Hp Hs) in Hy.
      discriminate.
Qed.

Lemma pick_years_for_product_returns_witness :
  pick_years_for_product yaris_2022 (sample_products ++ [rav4_superscript])
  = Ok ["2022"]
  /\ exists years,
       ["2022"] = map str_int years /\ pairwise Z.gt years /\ (length years <= 12)%nat.
Proof.
  split; [reflexivity |].
  destruct (pick_years_for_product_returns yaris_2022
              (sample_products ++ [rav4_superscript]) ["2022"] eq_refl)
    as (years & Htexts & Hsorted & Hlen & _).
  exists years. auto.
Defined.

(** ** Download: a file once written is never fetched again *)

(** X21. Whenever a call of [download_pdf] changes the disk, also a
    call that ends with an exception because the stream broke off, the
    file it wrote is new, stands under the target path, and the next call
    with the same arguments returns that path and sends nothing: what
    arrived of a broken download is taken for the whole and never fetched
    again. A call that raises anything but the transport's exception has
    written nothing. *)
Theorem download_pdf_never_resumes
  (server : nat -> request -> result response) (url : string) (prod pub : dict)
  (w : world) :
  (files (snd (download_pdf server url prod pub w)) <> files w ->
     exists path,
       target_path prod pub = Ok path
       /\ files w !! path = None
       /\ is_Some (files (snd (download_pdf server url prod pub w)) !! path)
       /\ download_pdf server url prod pub (snd (download_pdf server url prod pub w))
          = (Ok path, snd (download_pdf server url prod pub w)))
  /\ (forall e,
        fst (download_pdf server url prod pub w) = Raise e ->
        files (snd (download_pdf server url prod pub w)) <> files w ->
        e = TransportError).
Proof.
  destruct (download_pdf server url prod pub w) as [res w1] eqn:Hcall. cbn [fst snd].
  unfold download_pdf in Hcall.
  destruct (target_path prod pub) as [path | e0] eqn:Hpath.
  2: { inversion Hcall; subst.
       split; [intros H; destruct (H eq_refl) | intros x _ H; destruct (H eq_refl)]. }
  destruct (decide (is_Some (files w !! path))) as [Hyes | Hno].
  { inversion Hcall; subst.
    split; [intros H; destruct (H eq_refl) | intros x _ H; destruct (H eq_refl)]. }
  assert (files w !! path = None) as Hnone
    by (destruct (files w !! path) eqn:E; [exfalso; apply Hno; eauto | reflexivity]).
  unfold send in Hcall.
  destruct (server (length (sent w)) _) as [r | e1].
  2: { inversion Hcall; subst. cbn [files].
       split; [intros H; destruct (H eq_refl) | intros x _ H; destruct (H eq_refl)]. }
  destruct (raise_for_status r).
  2: { inversion Hcall; subst. cbn [files].
       split; [intros H; destruct (H eq_refl) | intros x _ H; destruct (H eq_refl)]. }
  assert (exists path0,
            Ok path = Ok path0 :> result string
            /\ files w !! path0 = None
            /\ is_Some (files (write_file path (chunks r)
                                 {| files := files w;
                                    sent := {| req_url := url; req_params := [] |}
                                            :: sent w |}) !! path0)
            /\ download_pdf server url prod pub
                 (write_file path (chunks r)
                    {| files := files w;
                       sent := {| req_url := url; req_params := [] |} :: sent w |})
               = (Ok path0,
                  write_file path (chunks r)
                    {| files := files w;
                       sent := {| req_url := url; req_params := [] |} :: sent w |}))
    as Hnext.
  { exists path. split; [reflexivity |]. split; [exact Hnone |].
    split; [apply write_file_exists |].
    apply download_pdf_existing; [exact Hpath | apply write_file_exists]. }
  destruct (complete r); inversion Hcall; subst.
  - split; [intros _; exact Hnext | discriminate].
  - split; [intros _; exact Hnext | intros x Hx _; congruence].
Qed.

Lemma download_pdf_never_resumes_witness :
  exists path,
    target_path rav4_2021 om_2022 = Ok path
    /\ files empty_world !! path = None
    /\ is_Some (files (snd (download_pdf broken_server "https://cdn.example/OM42B02E.pdf"
                              rav4_2021 om_2022 empty_world)) !! path)
    /\ download_pdf broken_server "https://cdn.example/OM42B02E.pdf" rav4_2021 om_2022
         (snd (download_pdf broken_server "https://cdn.example/OM42B02E.pdf"
                 rav4_2021 om_2022 empty_world))
       = (Ok path,
          snd (download_pdf broken_server "https://cdn.example/OM42B02E.pdf"
                 rav4_2021 om_2022 empty_world)).
Proof.
  apply (proj1 (download_pdf_never_resumes broken_server
                  "https://cdn.example/OM42B02E.pdf" rav4_2021 om_2022 empty_world)).
  intros H.
  apply (f_equal (fun m => m !! "./manuals/Toyota.RAV4.XA50.2022.OM42B02E.pdf")) in H.
  vm_compute in H. discriminate H.
Defined.

(** A model type that is a list of one text names the file as the text
    does: [safe_filename] walks the items of the list. *)
Remark target_path_of_listed_model_type :
  target_path rav4_2021 om_listed = Ok "./manuals/Toyota.RAV4.XA50.2022.OM42B02E.pdf"
  /\ safe_filename_any (VList [VStr "XA50"]) = Ok "XA50"
  /\ safe_filename_any (VDict [("a", VInt 1)]) = Ok "a"
  /\ safe_filename_any (VList [VInt 1]) = Raise AttributeError
  /\ safe_filename_any (VInt 1) = Raise TypeError.
Proof. repeat split. Qed.
